(** * sgp4gl-demo: the batched propagation pipeline of [CesiumComponent]

    A shallow embedding of the GPU satellite tracker component
    (the [CesiumComponent] React component): the TLE epoch decoder, the
    registration of a TLE batch, the self-rescheduling propagation loop, the
    per-frame render step and the cleanup that releases the registered
    constant set.

    Conventions of the embedding.
    - A React ref [fooRef.current] is a field [fooRef] of the record [World];
      a ref of type [T | null] is an [option T].
    - Integers of the program (counters, indices, lengths, handles, time
      values of dates) are [Z] or [nat]; every other number is a binary64
      number ([float]) and its arithmetic rounds as IEEE 754 does: the
      coordinates, the time offsets, the day and the time of an epoch, the
      results of Cesium's [JulianDate] arithmetic.
    - A character of a [string] is one UTF-16 code unit below 256, so that
      the length of a string is its number of code units; the TLE format
      is ASCII.
    - Cesium and the sgp4.gl bindings are not part of the component; what
      the component calls from them is a parameter of the development. The
      Julian dates of Cesium are given as an instance, for closed
      examples.
    - A function that throws returns [None], or the exception in a
      [Completion].
    - An [async] function is split at its [await]: the part run by the
      caller, and the continuation run when the awaited promise settles. *)

From Stdlib Require Import ZArith QArith Qabs Lqa Floats Uint63 String Ascii Strings.Byte List Bool Lia.
From stdpp Require Import base option list.
From coqutil Require Import Datatypes.RecordSettersUsingExistingGetters.

#[local] Arguments RecordSettersUsingExistingGetters.const {E} newValue _ /.

Local Open Scope Z_scope.

(** ** ECMAScript helpers used by the component *)

Module Js.

(** *** Characters and numeric literals *)

Definition is_digit (c : ascii) : bool :=
  let n := nat_of_ascii c in (48 <=? n)%nat && (n <=? 57)%nat.

Definition digit_val (c : ascii) : Z := Z.of_nat (nat_of_ascii c) - 48.

(** The white space and line terminators of [StrWhiteSpaceChar] below
    256: tab to carriage return, space and no-break space. *)
Definition is_space (c : ascii) : bool :=
  let n := nat_of_ascii c in
  ((9 <=? n)%nat && (n <=? 13)%nat) || (n =? 32)%nat || (n =? 160)%nat.

Fixpoint skip_space (s : string) : string :=
  match s with
  | String c s' => if is_space c then skip_space s' else s
  | EmptyString => s
  end.

(** Longest prefix of decimal digits, and what follows it. *)
Fixpoint span_digits (s : string) : string * string :=
  match s with
  | String c s' =>
      if is_digit c
      then let '(ds, rest) := span_digits s' in (String c ds, rest)
      else (EmptyString, s)
  | EmptyString => (EmptyString, EmptyString)
  end.

Fixpoint digits_value_from (acc : Z) (ds : string) : Z :=
  match ds with
  | String c ds' => digits_value_from (10 * acc + digit_val c) ds'
  | EmptyString => acc
  end.

Definition digits_value (ds : string) : Z := digits_value_from 0 ds.

(** An optional sign: its factor and the rest of the string. *)
Definition take_sign (s : string) : Z * string :=
  match s with
  | String "-" s' => (-1, s')
  | String "+" s' => (1, s')
  | _ => (1, s)
  end.

(** [parseInt(s, 10)]; [None] is NaN. *)
Definition parseInt (s : string) : option Z :=
  let '(sg, s1) := take_sign (skip_space s) in
  let '(ds, _) := span_digits s1 in
  match ds with
  | EmptyString => None
  | _ => Some (sg * digits_value ds)
  end.

(** *** Numbers: binary64 *)

(** The Number value of a rational: the binary64 number nearest to it,
    ties to even, by the division of IEEE 754 on integers of any size. *)
Definition Number_of_Q (q : Q) : float :=
  match Qnum q with
  | Z0 => 0%float
  | Zpos n => SF2Prim (SFdiv prec emax (S754_finite false n 0) (S754_finite false (Qden q) 0))
  | Zneg n => SF2Prim (SFdiv prec emax (S754_finite true n 0) (S754_finite false (Qden q) 0))
  end.

Definition Number_of_Z (z : Z) : float := Number_of_Q (inject_Z z).

(** [ToIntegerOrInfinity] of a finite number: the integral part, by
    shifting the mantissa; [None] for NaN and the infinities. *)
Definition integral_part (x : float) : option Z :=
  match Prim2SF x with
  | S754_zero _ => Some 0
  | S754_finite neg m e =>
      let a := if 0 <=? e then Z.shiftl (Zpos m) e else Z.shiftr (Zpos m) (- e) in
      Some (if neg then - a else a)
  | _ => None
  end.

(** The mathematical value of [digits * 10 ^ exponent] as a Number. *)
Definition Number_of_decimal (digits exponent : Z) : float :=
  if 0 <=? exponent then Number_of_Q (digits * 10 ^ exponent # 1)
  else Number_of_Q (digits # Z.to_pos (10 ^ (- exponent))).

(** The exponent part of a [StrDecimalLiteral]: [e] or [E], an optional
    sign and at least one digit; 0 when there is none. *)
Definition exponent_part (s : string) : Z :=
  match s with
  | String c s' =>
      if (Ascii.eqb c "e" || Ascii.eqb c "E")%bool
      then let '(sg, s1) := take_sign s' in
           let '(ds, _) := span_digits s1 in
           match ds with
           | EmptyString => 0
           | _ => sg * digits_value ds
           end
      else 0
  | EmptyString => 0
  end.

(** The longest prefix that is a [StrUnsignedDecimalLiteral] made of
    digits, a point and an exponent: its digits and its power of ten;
    [None] when there is no such prefix. *)
Definition unsigned_decimal (s : string) : option (Z * Z) :=
  let '(ip, r1) := span_digits s in
  let '(fp, r2) :=
    match r1 with
    | String "." r => span_digits r
    | _ => (EmptyString, r1)
    end in
  match ip, fp with
  | EmptyString, EmptyString => None
  | _, _ =>
      let k := Z.of_nat (String.length fp) in
      Some (digits_value ip * 10 ^ k + digits_value fp, exponent_part r2 - k)
  end.

(** [parseFloat(s)]. *)
Definition parseFloat (s : string) : float :=
  let '(sg, s1) := take_sign (skip_space s) in
  let signed (x : float) := if sg <? 0 then PrimFloat.opp x else x in
  if String.prefix "Infinity" s1 then signed infinity
  else
    match unsigned_decimal s1 with
    | Some (digits, exponent) => signed (Number_of_decimal digits exponent)
    | None => nan
    end.

(** [s.substring(a, b)] for [a <= b], and [s.substring(a)], [s.slice(a)]
    for [0 <= a]. *)
Definition substring (a b : nat) (s : string) : string :=
  String.substring a (b - a) s.

Definition substring_from (a : nat) (s : string) : string :=
  String.substring a (String.length s - a) s.

(** *** Dates: time values in milliseconds since 1970-01-01T00:00Z *)

(** A [Date] object; [None] is the invalid date (time value NaN). *)
Definition Date := option Z.

Definition msPerDay : Z := 86400000.

Definition DayFromYear (y : Z) : Z :=
  365 * (y - 1970) + (y - 1969) / 4 - (y - 1901) / 100 + (y - 1601) / 400.

Definition InLeapYear (y : Z) : bool :=
  (y mod 4 =? 0) && (negb (y mod 100 =? 0) || (y mod 400 =? 0)).

(** Days of the year before the first of month [m] (0 = January). *)
Definition DaysBeforeMonth (leap : bool) (m : Z) : Z :=
  let l := if leap then 1 else 0 in
  match m with
  | 0 => 0 | 1 => 31 | 2 => 59 + l | 3 => 90 + l | 4 => 120 + l
  | 5 => 151 + l | 6 => 181 + l | 7 => 212 + l | 8 => 243 + l
  | 9 => 273 + l | 10 => 304 + l | _ => 334 + l
  end.

Definition MakeDay (year month date : Z) : Z :=
  let ym := year + month / 12 in
  let mn := month mod 12 in
  DayFromYear ym + DaysBeforeMonth (InLeapYear ym) mn + date - 1.

Definition MakeTime (hour min sec ms : Z) : Z :=
  hour * 3600000 + min * 60000 + sec * 1000 + ms.

Definition MakeDate (day time : Z) : Z := day * msPerDay + time.

Definition MakeFullYear (y : Z) : Z :=
  if (0 <=? y) && (y <=? 99) then 1900 + y else y.

(** [TimeClip]: a time that is not finite or is beyond 8.64e15 ms gives
    NaN, any other its integral part. *)
Definition TimeClip (time : float) : Date :=
  if PrimFloat.ltb 8640000000000000 (PrimFloat.abs time) then None
  else integral_part time.

(** [TimeClip] of a time that is an integer. *)
Definition TimeClip_integer (t : Z) : Date :=
  if 8640000000000000 <? Z.abs t then None else Some t.

(** [Date.UTC(year, month, date)], the year a number that may be NaN, and
    [new Date] of the result. *)
Definition Date_UTC (year : option Z) (month date : Z) : Date :=
  match year with
  | None => None
  | Some y =>
      TimeClip_integer (MakeDate (MakeDay (MakeFullYear y) month date) (MakeTime 0 0 0 0))
  end.

(** [new Date(value)] for a number. *)
Definition new_Date (value : float) : Date := TimeClip value.

(** [date.getTime()]. *)
Definition getTime (d : Date) : float :=
  match d with
  | Some t => Number_of_Z t
  | None => nan
  end.

(** The UTC fields of a time value. [YearFromTime] is the largest year
    whose first day is not after the day of the time value: the search
    goes down from a year that is not before it. *)
Definition Day (t : Z) : Z := t / msPerDay.

Definition TimeWithinDay (t : Z) : Z := t mod msPerDay.

Fixpoint year_not_after (fuel : nat) (y day : Z) : Z :=
  match fuel with
  | O => y
  | S fuel' => if DayFromYear y <=? day then y else year_not_after fuel' (y - 1) day
  end.

Definition YearFromTime (t : Z) : Z :=
  let day := Day t in
  year_not_after 1000 (1971 + (if 0 <=? day then day / 365 else day / 366)) day.

Definition DayWithinYear (t : Z) : Z := Day t - DayFromYear (YearFromTime t).

Fixpoint month_not_after (fuel : nat) (leap : bool) (m d : Z) : Z :=
  match fuel with
  | O => m
  | S fuel' => if DaysBeforeMonth leap m <=? d then m else month_not_after fuel' leap (m - 1) d
  end.

Definition MonthFromTime (t : Z) : Z :=
  month_not_after 11 (InLeapYear (YearFromTime t)) 11 (DayWithinYear t).

Definition DateFromTime (t : Z) : Z :=
  DayWithinYear t - DaysBeforeMonth (InLeapYear (YearFromTime t)) (MonthFromTime t) + 1.

Definition HourFromTime (t : Z) : Z := TimeWithinDay t / 3600000.
Definition MinFromTime (t : Z) : Z := (TimeWithinDay t / 60000) mod 60.
Definition SecFromTime (t : Z) : Z := (TimeWithinDay t / 1000) mod 60.
Definition msFromTime (t : Z) : Z := TimeWithinDay t mod 1000.

(** [x | 0]: [ToInt32]. *)
Definition ToInt32 (x : float) : Z :=
  match integral_part x with
  | Some n => (n + 2147483648) mod 4294967296 - 2147483648
  | None => 0
  end.

(** [new Date(text)] for the date-time format
    [YYYY-MM-DDTHH:mm:ss.sssZ] the component writes its clock bounds in;
    any other text is out of the embedding and gives the invalid date. *)
Definition field (a b : nat) (s : string) : option Z :=
  let f := substring a b s in
  let '(ds, rest) := span_digits f in
  match rest with
  | EmptyString =>
      if (String.length ds =? b - a)%nat then Some (digits_value ds) else None
  | _ => None
  end.

Definition new_Date_text (s : string) : Date :=
  if negb (String.eqb (substring 4 5 s) "-" && String.eqb (substring 7 8 s) "-"
           && String.eqb (substring 10 11 s) "T" && String.eqb (substring 13 14 s) ":"
           && String.eqb (substring 16 17 s) ":" && String.eqb (substring 19 20 s) "."
           && String.eqb (substring_from 23 s) "Z")
  then None
  else
    y ← field 0 4 s; mo ← field 5 7 s; d ← field 8 10 s;
    h ← field 11 13 s; mi ← field 14 16 s; sec ← field 17 19 s;
    ms ← field 20 23 s;
    if (1 <=? mo) && (mo <=? 12) && (1 <=? d) && (d <=? 31) && (h <=? 23)
       && (mi <=? 59) && (sec <=? 59)
    then TimeClip_integer (MakeDate (MakeDay y (mo - 1) d) (MakeTime h mi sec ms))
    else None.

End Js.

(** ** What the component uses of Cesium and of sgp4.gl *)

(** The [CesiumJs] module object handed to the component. [JulianDate.clone]
    copies an immutable value and is the identity here. The two frame
    transforms may be unavailable at an instant ([undefined]).
    [JulianDate_of_time] is [JulianDate.fromDate] on a valid [Date], given
    by its time value. The types of the values come first, the functions on
    them after. *)
Class CesiumTypes := {
  JulianDate : Type;
  Matrix3 : Type;
  Matrix4 : Type
}.

Class CesiumType {CesiumT : CesiumTypes} := {
  JulianDate_of_time : Z -> JulianDate;
  JulianDate_compare : JulianDate -> JulianDate -> float;
  JulianDate_secondsDifference : JulianDate -> JulianDate -> float;
  Transforms_computeTemeToPseudoFixedMatrix : JulianDate -> option Matrix3;
  Transforms_computeIcrfToFixedMatrix : JulianDate -> option Matrix3;
  Matrix4_fromRotationTranslation : Matrix3 -> Matrix4;
  Matrix4_IDENTITY : Matrix4
}.

(** [JulianDate.fromDate]: on the invalid date it throws a
    [DeveloperError] ([None]). *)
Definition JulianDate_fromDate `{CesiumType} (date : Js.Date) : option JulianDate :=
  JulianDate_of_time <$> date.

(** The pure part of the sgp4.gl bindings. Each of the three throws when
    it fails ([None]); the component guards [from_tle] only. *)
Class Sgp4Gl := {
  WasmElements : Type;
  WasmConstants : Type;
  WasmGpuConsts : Type;
  WasmElements_from_tle : list byte -> list byte -> list byte -> option WasmElements;
  WasmConstants_from_elements : WasmElements -> option WasmConstants;
  WasmGpuConsts_from_constants : WasmConstants -> option WasmGpuConsts
}.

(** *** The Julian dates of Cesium *)

Module Cesium.

(** A Julian date in the TAI time standard: the whole days, counted from
    noon, and the seconds into the day. *)
Record JulianDate := { dayNumber : Z; secondsOfDay : float }.

Definition SECONDS_PER_DAY : float := 86400.

Definition SECONDS_PER_MILLISECOND : float := Js.Number_of_Q (1 # 1000).

(** [JulianDate.compare]: the difference of the day numbers, or of the
    seconds of the day when the day numbers are equal. *)
Definition compare (left right : JulianDate) : float :=
  let julianDayNumberDifference := dayNumber left - dayNumber right in
  if julianDayNumberDifference =? 0
  then PrimFloat.sub (secondsOfDay left) (secondsOfDay right)
  else Js.Number_of_Z julianDayNumberDifference.

(** [JulianDate.secondsDifference]. *)
Definition secondsDifference (left right : JulianDate) : float :=
  let dayDifference :=
    PrimFloat.mul (Js.Number_of_Z (dayNumber left - dayNumber right)) SECONDS_PER_DAY in
  PrimFloat.add dayDifference (PrimFloat.sub (secondsOfDay left) (secondsOfDay right)).

(** [setComponents]: the seconds are brought into the day. *)
Definition setComponents (wholeDays : Z) (secondsOfDay : float) : JulianDate :=
  let extraDays := Js.ToInt32 (PrimFloat.div secondsOfDay SECONDS_PER_DAY) in
  let wholeDays := wholeDays + extraDays in
  let secondsOfDay :=
    PrimFloat.sub secondsOfDay (PrimFloat.mul SECONDS_PER_DAY (Js.Number_of_Z extraDays)) in
  if PrimFloat.ltb secondsOfDay 0
  then {| dayNumber := wholeDays - 1;
          secondsOfDay := PrimFloat.add secondsOfDay SECONDS_PER_DAY |}
  else {| dayNumber := wholeDays; secondsOfDay := secondsOfDay |}.

Definition addSeconds (julianDate : JulianDate) (seconds : Z) : JulianDate :=
  setComponents (dayNumber julianDate)
    (PrimFloat.add (secondsOfDay julianDate) (Js.Number_of_Z seconds)).

(** [computeJulianDateComponents]; the quotients are exact or far from an
    integer, so that [| 0] truncates the exact quotient. *)
Definition computeJulianDateComponents (year month day hour minute second millisecond : Z)
    : Z * float :=
  let a := Z.quot (month - 14) 12 in
  let b := year + 4800 + a in
  let dayNumber :=
    Z.quot (1461 * b) 4 + Z.quot (367 * (month - 2 - 12 * a)) 12
    - Z.quot (3 * Z.quot (b + 100) 100) 4 + day - 32075 in
  let hour := hour - 12 in
  let hour := if hour <? 0 then hour + 24 else hour in
  let secondsOfDay :=
    PrimFloat.add (Js.Number_of_Z second)
      (PrimFloat.add (Js.Number_of_Z (hour * 3600 + minute * 60))
         (PrimFloat.mul (Js.Number_of_Z millisecond) SECONDS_PER_MILLISECOND)) in
  (if PrimFloat.leb 43200 secondsOfDay then dayNumber - 1 else dayNumber, secondsOfDay).

(** [JulianDate.leapSeconds]: the instants, in TAI, from which each offset
    of TAI from UTC holds. *)
Definition leapSeconds : list (JulianDate * Z) :=
  (fun '(d, offset) =>
     ({| dayNumber := d; secondsOfDay := Js.Number_of_Z (43200 + offset) |}, offset))
  <$> [(2441317, 10); (2441499, 11); (2441683, 12); (2442048, 13); (2442413, 14);
       (2442778, 15); (2443144, 16); (2443509, 17); (2443874, 18); (2444239, 19);
       (2444786, 20); (2445151, 21); (2445516, 22); (2446247, 23); (2447161, 24);
       (2447892, 25); (2448257, 26); (2448804, 27); (2449169, 28); (2449534, 29);
       (2450083, 30); (2450630, 31); (2451179, 32); (2453736, 33); (2454832, 34);
       (2456109, 35); (2457204, 36); (2457754, 37)].

(** [convertUtcToTai]. The binary search over the table, which is in
    increasing order, gives the number of its instants before the date. *)
Definition convertUtcToTai (julianDate : JulianDate) : JulianDate :=
  let index :=
    length (List.filter (fun entry => PrimFloat.ltb (compare (fst entry) julianDate) 0)
              leapSeconds) in
  let index := if (length leapSeconds <=? index)%nat then (length leapSeconds - 1)%nat
               else index in
  let entry_offset (i : nat) := default 0 (snd <$> leapSeconds !! i) in
  let entry_date (i : nat) := default julianDate (fst <$> leapSeconds !! i) in
  let offset := entry_offset index in
  let offset :=
    if (0 <? index)%nat
       && PrimFloat.ltb (Js.Number_of_Z offset)
            (secondsDifference (entry_date index) julianDate)
    then entry_offset (index - 1)%nat
    else offset in
  addSeconds julianDate offset.

(** [JulianDate.fromDate] on the valid date of time value [t]. *)
Definition fromDate (t : Z) : JulianDate :=
  let '(dayNumber, secondsOfDay) :=
    computeJulianDateComponents (Js.YearFromTime t) (Js.MonthFromTime t + 1)
      (Js.DateFromTime t) (Js.HourFromTime t) (Js.MinFromTime t) (Js.SecFromTime t)
      (Js.msFromTime t) in
  convertUtcToTai (setComponents dayNumber secondsOfDay).

End Cesium.

(** The Julian dates as Cesium has them, for closed examples. A frame
    transform stands for the instant it is computed at. *)
Definition cesium_types : CesiumTypes := {|
  JulianDate := Cesium.JulianDate;
  Matrix3 := Cesium.JulianDate;
  Matrix4 := option Cesium.JulianDate
|}.

Definition cesium : @CesiumType cesium_types :=
  @Build_CesiumType cesium_types
    Cesium.fromDate Cesium.compare Cesium.secondsDifference
    (* the two frame transforms, the matrix of a rotation and the identity *)
    Some Some Some None.

(** A reference instance of the bindings: a TLE parses when both lines
    have the 69 columns of the format; the constants are its name. *)
Definition plainSgp4 : Sgp4Gl := {|
  WasmElements := list byte;
  WasmConstants := list byte;
  WasmGpuConsts := list byte;
  WasmElements_from_tle := fun name l1 l2 =>
    if ((length l1 =? 69) && (length l2 =? 69))%nat then Some name else None;
  WasmConstants_from_elements := Some;
  WasmGpuConsts_from_constants := Some
|}.

(** ** The data of the component *)

(** [TLE]: a JavaScript array read at indices 0, 1 and 2; an entry that is
    not a string is [None]. *)
Definition TLE := list (option string).

Definition tle_at (tle : TLE) (i : nat) : option string := mjoin (tle !! i).

Record PositionBuffer := { buf_x : float; buf_y : float; buf_z : float }.

Record Cartesian3 := { c3_x : float; c3_y : float; c3_z : float }.

Record PointPrimitive := { position : Cartesian3; pixelSize : Z }.

Inductive GpuPropagator := GpuPropagatorObject.

(** How a callback ends: it returns, or an exception leaves it. *)
Inductive Completion (A : Type) := normal (a : A) | throw (e : string).

Arguments normal {A} a.
Arguments throw {A} e.

Section Component.

Context {CesiumT : CesiumTypes} {CesiumJs : CesiumType} {Wasm : Sgp4Gl}.

Record SatMetadata := {
  satName : string;
  noradID : string;
  TLEEpochJulian : JulianDate;
  idx : Z
}.

(** [viewer.clock] of the Cesium viewer. *)
Record Viewer := {
  currentTime : JulianDate;
  startTime : JulianDate;
  stopTime : JulianDate;
  multiplier : Z
}.

Record PointPrimitiveCollection := { modelMatrix : Matrix4 }.

(** What a backend call, a log or a frame transform leaves behind, in the
    order it happened. [unhandled] is an exception that leaves a callback
    or an [async] function. *)
Inductive Effect :=
| console_error (msg : string)
| register_const_set (gpuConsts : list WasmGpuConsts) (constSetId : Z)
| propagate_registered_f32 (constSetId : Z) (times : list float)
| unregister_const_set (constSetId : option Z)
| compute_transform (now : JulianDate)
| unhandled (msg : string).

(** The refs of the component, the callbacks the browser holds for it and
    the effects so far. The array [_pointPrimitives] of the collection and
    the ref that aliases it are the one field
    [pointsCollectionPrimitivesRef]. *)
Record World := {
  cesiumViewer : option Viewer;
  pointsCollectionRef : option PointPrimitiveCollection;
  pointsCollectionPrimitivesRef : option (list PointPrimitive);
  pointsMetadataRef : option (list SatMetadata);
  isLoadedRef : bool;
  lastJDateRef : option JulianDate;
  modelMatrixRef : option Matrix4;
  preAllocatedCartesianRef : list Cartesian3;
  gpuPropagatorRef : option GpuPropagator;
  registeredConstSetIdRef : option Z;
  wasmConstantsRef : option (list WasmConstants);
  currentPositionsRef : list PositionBuffer;
  targetPositionsRef : list PositionBuffer;
  isComponentAliveRef : bool;
  inflightRef : Z;
  (** [propagateLoop] callbacks passed to [requestAnimationFrame] *)
  animationFrames : nat;
  (** [propagateLoop] activations suspended at their [await] *)
  propagating : nat;
  (** [tryUnregister] callbacks passed to [setTimeout], with their delay *)
  timeouts : list Z;
  (** [boot] activations suspended while the backend initialises, with the
      [TLEs] of their closure *)
  booting : list (list TLE);
  (** [animate] listeners of [preRender], with the [timeLimit] of their closure *)
  preRender : list float;
  trace : list Effect
}.

(** The component as mounted: every ref at its initial value. *)
Definition mounted : World := {|
  cesiumViewer := None;
  pointsCollectionRef := None;
  pointsCollectionPrimitivesRef := None;
  pointsMetadataRef := None;
  isLoadedRef := false;
  lastJDateRef := None;
  modelMatrixRef := None;
  preAllocatedCartesianRef := [];
  gpuPropagatorRef := None;
  registeredConstSetIdRef := None;
  wasmConstantsRef := None;
  currentPositionsRef := [];
  targetPositionsRef := [];
  isComponentAliveRef := true;
  inflightRef := 0;
  animationFrames := 0;
  propagating := 0;
  timeouts := [];
  booting := [];
  preRender := [];
  trace := []
|}.

Definition log (e : Effect) (w : World) : World := w <| trace := trace w ++ [e] |>.

Definition requestAnimationFrame_propagateLoop (w : World) : World :=
  w <| animationFrames := S (animationFrames w) |>.


(** *** The epoch of a TLE (lines 224-231) *)

(** [year] after the pivot; NaN when the two characters hold no number. *)
Definition epoch_year (epochStr : string) : option Z :=
  year ← Js.parseInt (Js.substring 0 2 epochStr);
  Some (if year <? 57 then 2000 + year else 1900 + year).

Definition epoch_day (epochStr : string) : float :=
  Js.parseFloat (Js.substring_from 2 epochStr).

Definition epochTimeMs (epochStr : string) : float :=
  let startOfYear := Js.Date_UTC (epoch_year epochStr) 0 1 in
  PrimFloat.add (Js.getTime startOfYear)
    (PrimFloat.mul
       (PrimFloat.mul
          (PrimFloat.mul (PrimFloat.mul (PrimFloat.sub (epoch_day epochStr) 1) 24) 60)
          60)
       1000).

(** [None]: [JulianDate.fromDate] throws on the invalid date. *)
Definition tleEpochToJulian (epochStr : string) : option JulianDate :=
  JulianDate_fromDate (Js.new_Date (epochTimeMs epochStr)).

(** *** Registration of the batch: [boot] (lines 314-546) *)

(** [new TextEncoder().encode(s)]: the UTF-8 bytes of a string whose
    code units are below 256. *)
Definition utf8_of_unit (c : ascii) : list byte :=
  let n := N_of_ascii c in
  if (n <? 128)%N then [byte_of_ascii c]
  else [byte_of_ascii (ascii_of_N (192 + n / 64));
        byte_of_ascii (ascii_of_N (128 + n mod 64))].

Definition TextEncoder_encode (s : string) : list byte :=
  flat_map utf8_of_unit (list_ascii_of_string s).

Definition satName_of (tle : TLE) : string :=
  match tle_at tle 0 with
  | Some s => if (2 <? String.length s)%nat then Js.substring_from 2 s else "Unknown"
  | None => "Unknown"
  end.

(** The callback of [TLEs.map]: the elements of a TLE, or [null]. *)
Definition parse_tle (tle : TLE) : option (WasmElements * TLE) :=
  match tle_at tle 1, tle_at tle 2 with
  | Some l1, Some l2 =>
      match WasmElements_from_tle (TextEncoder_encode (satName_of tle))
                                  (TextEncoder_encode l1) (TextEncoder_encode l2) with
      | Some elements => Some (elements, tle)
      | None => None
      end
  | _, _ => None
  end.

(** The arrays [boot] fills, and the counter [idx]. *)
Record Arrays := {
  metadata : list SatMetadata;
  preAllocated : list Cartesian3;
  curr : list PositionBuffer;
  next : list PositionBuffer;
  points : list PointPrimitive;
  next_idx : Z
}.

Definition no_arrays : Arrays :=
  {| metadata := []; preAllocated := []; curr := []; next := []; points := [];
     next_idx := 0 |}.

(** The body of [parsed.forEach]. It throws a TypeError when it reads a
    line that is not a string, and the [DeveloperError] of
    [JulianDate.fromDate] when the epoch is not a date. *)
Definition add_satellite (tle : TLE) (a : Arrays) : Completion Arrays :=
  match tle_at tle 1, tle_at tle 2 with
  | Some l1, Some l2 =>
      let noradID :=
        if (8 <? String.length l2)%nat then Js.substring 2 7 l2 else "Unknown"%string in
      match tleEpochToJulian (Js.substring 18 32 l1) with
      | None => throw "DeveloperError"
      | Some epochJul =>
          let pre := {| c3_x := 0; c3_y := 0; c3_z := 0 |} in
          normal
            {| metadata := metadata a ++
                 [{| satName := satName_of tle; noradID := noradID;
                     TLEEpochJulian := epochJul; idx := next_idx a |}];
               preAllocated := preAllocated a ++ [pre];
               curr := curr a ++ [{| buf_x := 0; buf_y := 0; buf_z := 0 |}];
               next := next a ++ [{| buf_x := 0; buf_y := 0; buf_z := 0 |}];
               points := points a ++ [{| position := pre; pixelSize := 2 |}];
               next_idx := next_idx a + 1 |}
      end
  | _, _ => throw "TypeError"
  end.

Fixpoint forEach_parsed (parsed : list (WasmElements * TLE)) (a : Arrays)
    : Completion Arrays :=
  match parsed with
  | [] => normal a
  | (_, tle) :: rest =>
      match add_satellite tle a with
      | normal a' => forEach_parsed rest a'
      | throw e => throw e
      end
  end.

(** [boot] up to its first [await]. *)
Definition boot (TLEs : list TLE) (w : World) : World :=
  if isLoadedRef w || negb (bool_decide (is_Some (cesiumViewer w)))
     || (length TLEs =? 0)%nat
  then w
  else w <| booting := booting w ++ [TLEs] |>.

(** How the initialisation of the backend ends: [wasmInit] or both
    constructors fail, or one of the constructors gives a propagator. *)
Inductive InitResult := init_failed | init_ok (p : GpuPropagator).

(** [boot] from the initialisation on; [constSetId] is what
    [register_const_set] returns. An exception that is not caught rejects
    the promise of [boot], which nothing handles. *)
Definition boot_resumed (TLEs : list TLE) (r : InitResult) (constSetId : Z)
    (w : World) : World :=
  match r with
  | init_failed => log (console_error "Failed to initialize sgp4.gl") w
  | init_ok p =>
      let w := w <| gpuPropagatorRef := Some p |> in
      match cesiumViewer w with
      | None => log (unhandled "TypeError") w
      | Some viewer =>
          let parsed := omap parse_tle TLEs in
          match mapM (fun x => WasmConstants_from_elements (fst x)) parsed with
          | None => log (unhandled "from_elements") w
          | Some constants =>
              let w := w <| wasmConstantsRef := Some constants |> in
              match mapM WasmGpuConsts_from_constants constants with
              | None => log (unhandled "from_constants") w
              | Some gpuConsts =>
                  let w := log (register_const_set gpuConsts constSetId) w in
                  let w := w <| registeredConstSetIdRef := Some constSetId |> in
                  match forEach_parsed parsed no_arrays with
                  | throw e => log (unhandled e) w
                  | normal a =>
                      let w :=
                        w <| pointsMetadataRef := Some (metadata a) |>
                          <| pointsCollectionRef :=
                               Some {| modelMatrix := Matrix4_IDENTITY |} |>
                          <| pointsCollectionPrimitivesRef := Some (points a) |>
                          <| preAllocatedCartesianRef := preAllocated a |>
                          <| currentPositionsRef := curr a |>
                          <| targetPositionsRef := next a |> in
                      let timeLimit :=
                        JulianDate_compare (stopTime viewer) (startTime viewer) in
                      let w := w <| preRender := preRender w ++ [timeLimit] |> in
                      let w := requestAnimationFrame_propagateLoop w in
                      w <| isLoadedRef := true |>
                  end
              end
          end
      end
  end.

(** The effect that creates the viewer and sets its clock (lines 268-310). *)
Definition viewer_init (w : World) : World :=
  match cesiumViewer w with
  | Some _ => w
  | None =>
      match JulianDate_fromDate (Js.new_Date_text "2024-04-14T00:00:00.000Z"),
            JulianDate_fromDate (Js.new_Date_text "2024-04-17T00:00:00.000Z") with
      | Some start, Some stop =>
          w <| cesiumViewer :=
                 Some {| startTime := start; stopTime := stop;
                         currentTime := start; multiplier := 300 |} |>
      | _, _ => log (unhandled "DeveloperError") w
      end
  end.


(** *** The propagation loop: [propagateLoop] (lines 421-470) *)

(** [flat[o]] of a [Float32Array]; reading past the end gives [undefined],
    which the product turns into NaN. *)
Definition flat_at (flat : list float) (o : nat) : float := default nan (flat !! o).

(** The [for] loop of lines 457-463 from index [i] on. The loop runs while
    [i < flat.length / 6], that is while [6 * i < flat.length]. The second
    component is [true] when [tgt[i]] is [undefined] and the assignment
    throws. *)
Fixpoint copy_loop (fuel i : nat) (flat : list float) (tgt : list PositionBuffer)
    : list PositionBuffer * bool :=
  match fuel with
  | O => (tgt, false)
  | S fuel' =>
      if (6 * i <? length flat)%nat then
        match tgt !! i with
        | None => (tgt, true)
        | Some _ =>
            let o := (i * 6)%nat in
            let p := {| buf_x := PrimFloat.mul (flat_at flat o) 1000;
                        buf_y := PrimFloat.mul (flat_at flat (o + 1)) 1000;
                        buf_z := PrimFloat.mul (flat_at flat (o + 2)) 1000 |} in
            copy_loop fuel' (S i) flat (<[i := p]> tgt)
        end
      else (tgt, false)
  end.

Definition copy_into_target (flat : list float) (tgt : list PositionBuffer)
    : list PositionBuffer * bool :=
  copy_loop (S (length flat)) 0 flat tgt.

(** [propagateLoop] up to its [await]. *)
Definition propagateLoop (w : World) : World :=
  if negb (isComponentAliveRef w) then w
  else
    match cesiumViewer w with
    | None => log (unhandled "TypeError") w
    | Some viewer =>
        let now := currentTime viewer in
        match gpuPropagatorRef w, registeredConstSetIdRef w with
        | Some _, Some constSetId =>
            match pointsMetadataRef w with
            | None => log (unhandled "TypeError") w
            | Some metadata =>
                if (length metadata =? 0)%nat then w
                else if negb (inflightRef w =? 0) then
                  requestAnimationFrame_propagateLoop w
                else
                  let w := w <| inflightRef := inflightRef w + 1 |> in
                  let times :=
                    (fun m => PrimFloat.div
                                (JulianDate_secondsDifference now (TLEEpochJulian m)) 60)
                      <$> metadata in
                  let w := log (propagate_registered_f32 constSetId times) w in
                  w <| propagating := S (propagating w) |>
            end
        | _, _ => w
        end
    end.

(** How the promise of [propagate_registered_f32] settles. *)
Inductive Settlement := fulfilled (flat : list float) | rejected.

(** [propagateLoop] from its [await] on: the rest of the [try], the
    [catch] and the [finally]. *)
Definition propagateLoop_settled (r : Settlement) (w : World) : World :=
  let w :=
    match r with
    | fulfilled flat =>
        let '(tgt, threw) := copy_into_target flat (targetPositionsRef w) in
        let w := w <| targetPositionsRef := tgt |> in
        if threw then log (console_error "GPU propagate loop error") w else w
    | rejected => log (console_error "GPU propagate loop error") w
    end in
  let w := w <| inflightRef := inflightRef w - 1 |> in
  requestAnimationFrame_propagateLoop w.

(** *** The render step: [animate] (lines 473-539) *)

(** Lines 504-518: the transform is computed anew and, when one of the two
    frames is available, set on the collection. *)
Definition update_transform (now : JulianDate) (w : World) : World :=
  let w := w <| lastJDateRef := Some now |> in
  let w := log (compute_transform now) w in
  let teme := Transforms_computeTemeToPseudoFixedMatrix now in
  let icrf := Transforms_computeIcrfToFixedMatrix now in
  match (match teme with Some r => Some r | None => icrf end) with
  | Some r =>
      let mat := Matrix4_fromRotationTranslation r in
      let w := w <| modelMatrixRef := Some mat |> in
      match pointsCollectionRef w with
      | Some c => w <| pointsCollectionRef := Some (c <| modelMatrix := mat |>) |>
      | None => log (unhandled "TypeError") w
      end
  | None => w
  end.

(** The [for] loop of lines 526-538 from index [i] on. *)
Fixpoint move_points (fuel i : nat) (w : World) : World :=
  match fuel with
  | O => w
  | S fuel' =>
      match pointsCollectionPrimitivesRef w with
      | None => log (unhandled "TypeError") w
      | Some pts =>
          if (i <? length pts)%nat then
            match currentPositionsRef w !! i, targetPositionsRef w !! i with
            | Some _, Some t =>
                let c := {| buf_x := buf_x t; buf_y := buf_y t; buf_z := buf_z t |} in
                let w := w <| currentPositionsRef := <[i := c]> (currentPositionsRef w) |> in
                match preAllocatedCartesianRef w !! i, pts !! i with
                | Some _, Some pt =>
                    let p := {| c3_x := buf_x c; c3_y := buf_y c; c3_z := buf_z c |} in
                    let w := w <| preAllocatedCartesianRef :=
                                    <[i := p]> (preAllocatedCartesianRef w) |> in
                    let w := w <| pointsCollectionPrimitivesRef :=
                                    Some (<[i := pt <| position := p |>]> pts) |> in
                    move_points fuel' (S i) w
                | _, _ => log (unhandled "TypeError") w
                end
            | _, _ => log (unhandled "TypeError") w
            end
          else w
      end
  end.

(** [animate], with the [timeLimit] of its closure. *)
Definition animate (timeLimit : float) (w : World) : World :=
  match pointsMetadataRef w, pointsCollectionPrimitivesRef w, pointsCollectionRef w with
  | Some _, Some pts, Some _ =>
      match cesiumViewer w with
      | None => log (unhandled "TypeError") w
      | Some viewer =>
          let now := currentTime viewer in
          if PrimFloat.ltb timeLimit
               (PrimFloat.abs (JulianDate_compare now (stopTime viewer)))
          then w <| cesiumViewer := Some (viewer <| currentTime := startTime viewer |>) |>
          else
            let last := default now (lastJDateRef w) in
            let w := w <| lastJDateRef := Some last |> in
            let diffSeconds := JulianDate_secondsDifference now last in
            let w := if PrimFloat.ltb 1 (PrimFloat.abs diffSeconds)
                     then update_transform now w else w in
            move_points (length pts) 0 w
      end
  | _, _, _ => w
  end.

(** *** Cleanup (lines 550-578) *)

(** [tryUnregister]; [throws] tells whether [unregister_const_set] throws. *)
Definition tryUnregister (throws : bool) (w : World) : World :=
  if inflightRef w =? 0 then
    let w :=
      match gpuPropagatorRef w with
      | None => log (console_error "unregister_const_set error") w
      | Some _ =>
          let w := log (unregister_const_set (registeredConstSetIdRef w)) w in
          if throws then log (console_error "unregister_const_set error") w else w
      end in
    w <| registeredConstSetIdRef := None |>
  else w <| timeouts := timeouts w ++ [10] |>.

Definition cleanup (throws : bool) (w : World) : World :=
  let w := w <| isComponentAliveRef := false |> in
  match gpuPropagatorRef w, registeredConstSetIdRef w with
  | Some _, Some _ => tryUnregister throws w
  | _, _ => w
  end.

(** ** The event loop *)

(** What can happen to a mounted component: React runs an effect or the
    cleanup, the browser runs a callback it holds, a promise settles, the
    clock of the viewer advances, the scene is about to render. *)
Inductive Event :=
| ViewerInit
| RunEffect (TLEs : list TLE)
| BackendInitialized (r : InitResult) (constSetId : Z)
| AnimationFrame
| PropagateSettled (r : Settlement)
| ClockTick (t : JulianDate)
| PreRender
| Cleanup (release_throws : bool)
| TimeoutFired (release_throws : bool).

(** One event; [None] when the browser holds nothing the event could run. *)
Definition step (e : Event) (w : World) : option World :=
  match e with
  | ViewerInit => Some (viewer_init w)
  | RunEffect TLEs => Some (boot TLEs w)
  | BackendInitialized r constSetId =>
      match booting w with
      | TLEs :: rest => Some (boot_resumed TLEs r constSetId (w <| booting := rest |>))
      | [] => None
      end
  | AnimationFrame =>
      match animationFrames w with
      | S n => Some (propagateLoop (w <| animationFrames := n |>))
      | O => None
      end
  | PropagateSettled r =>
      match propagating w with
      | S n => Some (propagateLoop_settled r (w <| propagating := n |>))
      | O => None
      end
  | ClockTick t =>
      match cesiumViewer w with
      | Some v => Some (w <| cesiumViewer := Some (v <| currentTime := t |>) |>)
      | None => None
      end
  | PreRender => Some (fold_left (fun w timeLimit => animate timeLimit w) (preRender w) w)
  | Cleanup throws => Some (cleanup throws w)
  | TimeoutFired throws =>
      match timeouts w with
      | _ :: rest => Some (tryUnregister throws (w <| timeouts := rest |>))
      | [] => None
      end
  end.

Fixpoint run (evs : list Event) (w : World) : option World :=
  match evs with
  | [] => Some w
  | e :: evs' => step e w ≫= run evs'
  end.

(** The calls of [propagate_registered_f32] and of [unregister_const_set]
    so far. *)
Definition is_propagate (e : Effect) : bool :=
  match e with propagate_registered_f32 _ _ => true | _ => false end.

Definition is_unregister (e : Effect) : bool :=
  match e with unregister_const_set _ => true | _ => false end.

Definition is_compute (e : Effect) : bool :=
  match e with compute_transform _ => true | _ => false end.

Definition propagate_calls (w : World) : list Effect :=
  List.filter is_propagate (trace w).

Definition release_calls (w : World) : list Effect :=
  List.filter is_unregister (trace w).

Definition transform_computes (w : World) : list Effect :=
  List.filter is_compute (trace w).

Definition is_cleanup (e : Event) : bool :=
  match e with Cleanup _ => true | _ => false end.

(** A run in which React does not call the cleanup. *)
Definition no_cleanup (evs : list Event) : bool :=
  forallb (fun e => negb (is_cleanup e)) evs.

(** An element [boot] keeps: the callback of [TLEs.map] gives its
    elements. *)
Definition derivable (tle : TLE) : bool :=
  match parse_tle tle with Some _ => true | None => false end.

(** The position of satellite [i] in meters, read from a flat result in
    kilometers that holds [stride] components per satellite. *)
Definition sample_meters (stride : nat) (flat : list float) (i : nat) : PositionBuffer :=
  {| buf_x := PrimFloat.mul (flat_at flat (i * stride)) 1000;
     buf_y := PrimFloat.mul (flat_at flat (i * stride + 1)) 1000;
     buf_z := PrimFloat.mul (flat_at flat (i * stride + 2)) 1000 |}.

End Component.

(** ** A concrete session, for closed examples *)

Module Demo.

#[local] Existing Instance cesium_types.
#[local] Existing Instance cesium.
#[local] Existing Instance plainSgp4.

Definition iss : TLE :=
  [Some "0 ISS (ZARYA)";
   Some "1 25544U 98067A   24091.50000000  .00016717  00000-0  10270-3 0  9005";
   Some "2 25544  51.6400 208.9163 0006703  35.6028 324.5462 15.49560532 12345"]%string.

Definition hst : TLE :=
  [Some "0 HST";
   Some "1 20580U 90037B   24100.25000000  .00001200  00000-0  60000-4 0  9991";
   Some "2 20580  28.4700 120.0000 0002500 100.0000 260.0000 15.10000000 54321"]%string.

(** An element the bindings refuse: its lines are cut short. *)
Definition debris : TLE :=
  [Some "0 DEBRIS"; Some "1 99999U"; Some "2 99999"]%string.


(** The viewer is created, the effect runs with three elements and the
    backend initialises; 7 is the handle of the registered set. *)
Definition boot_session : list Event :=
  [ViewerInit; RunEffect [iss; debris; hst];
   BackendInitialized (init_ok GpuPropagatorObject) 7].

Definition world_after (evs : list Event) : World := default mounted (run evs mounted).

(** The component booted, the first tick of the loop not yet run. *)
Definition booted : World := world_after boot_session.

(** The first tick has begun a backend call. *)
Definition in_flight : World := world_after (boot_session ++ [AnimationFrame]).

(** ... and the cleanup was called while the call is outstanding. *)
Definition shut_down_in_flight : World :=
  world_after (boot_session ++ [AnimationFrame; Cleanup false]).

(** A result with three components for each of the two satellites. *)
Definition flat3 : list float := [1; 2; 3; 4; 5; 6]%float.

(** A result with six components for each of the two satellites. *)
Definition flat6 : list float :=
  [1; 2; 3; 0.5; 0.25; 0.125; 4; 5; 6; 0.5; 0.25; 0.125]%float.

(** The instant of a time value in milliseconds. The clock starts at
    1713052800000 and stops at 1713312000000. *)
Definition instant (t : Z) : JulianDate := JulianDate_of_time t.

(** The clock runs, the transform is computed, and the clock is four days
    and 100 seconds past the stop bound. *)
Definition overrun_session : list Event :=
  boot_session ++
  [ClockTick (instant 1713052900000); PreRender;
   ClockTick (instant 1713053000000); PreRender;
   ClockTick (instant 1713657700000)].

Definition overrun : World := world_after overrun_session.

(** The render step has set the clock back to the start bound. *)
Definition wrapped : World := world_after (overrun_session ++ [PreRender]).

(** Every element of the batch is refused. *)
Definition empty_session : list Event :=
  [ViewerInit; RunEffect [debris];
   BackendInitialized (init_ok GpuPropagatorObject) 7].

Definition booted_empty : World := world_after empty_session.

(** The effect has run, the backend has not initialised yet. *)
Definition booting_world : World :=
  world_after [ViewerInit; RunEffect [iss; debris; hst]].

(** The events of the clock and of the render step that take the booted
    component to [wrapped]. *)
Definition clock_overrun : list Event :=
  [ClockTick (instant 1713052900000); PreRender;
   ClockTick (instant 1713053000000); PreRender;
   ClockTick (instant 1713657700000); PreRender].

End Demo.

(** ** The epoch rule in the words of the specification *)

Module EpochSpec.

Definition is_leap_year (y : Z) : bool :=
  if y mod 400 =? 0 then true
  else if y mod 100 =? 0 then false
  else y mod 4 =? 0.

Definition days_in_year (y : Z) : Z := if is_leap_year y then 366 else 365.

(** Days of the [n] years from [y] on. *)
Fixpoint days_of_years (n : nat) (y : Z) : Z :=
  match n with
  | O => 0
  | S n' => days_in_year y + days_of_years n' (y + 1)
  end.

(** Days from 1970-01-01 to January 1st of [y], counted year by year. *)
Definition jan1_days (y : Z) : Z :=
  if 1970 <=? y then days_of_years (Z.to_nat (y - 1970)) 1970
  else - days_of_years (Z.to_nat (1970 - y)) y.

(** Two-digit year [< 57] is [2000 + year], otherwise [1900 + year]. *)
Definition pivot_year (yy : Z) : Z := if yy <? 57 then 2000 + yy else 1900 + yy.

(** [(day - 1)] days past January 1st of the pivot year at 00:00 UTC, in
    milliseconds since 1970-01-01T00:00Z. *)
Definition epoch_instant (yy : Z) (day : Q) : Q :=
  (inject_Z (jan1_days (pivot_year yy) * 86400000) + (day - 1) * 86400000)%Q.

(** The same in double precision: the day is the number nearest to its
    decimal, and each operation rounds. *)
Definition epoch_ms_binary64 (yy : Z) (day : Q) : float :=
  PrimFloat.add (Js.Number_of_Z (jan1_days (pivot_year yy) * 86400000))
    (PrimFloat.mul
       (PrimFloat.mul
          (PrimFloat.mul (PrimFloat.mul (PrimFloat.sub (Js.Number_of_Q day) 1) 24) 60)
          60)
       1000).

(** The exact value of a number; [None] for NaN and the infinities. *)
Definition value (x : float) : option Q :=
  match Prim2SF x with
  | S754_zero _ => Some 0%Q
  | S754_finite neg m e =>
      let n := if neg then Zneg m else Zpos m in
      Some (if 0 <=? e then n * 2 ^ e # 1 else n # Z.to_pos (2 ^ (- e)))
  | _ => None
  end.

(** The whole milliseconds of a time, toward zero; no date beyond
    8.64e15 ms or when the time is not finite. *)
Definition whole_ms (time : float) : option Z :=
  if PrimFloat.ltb 8640000000000000 (PrimFloat.abs time) then None
  else (fun q => Z.quot (Qnum q) (Zpos (Qden q))) <$> value time.

Definition all_digits (s : string) : bool :=
  forallb Js.is_digit (list_ascii_of_string s).

(** The number written [ip.fp] in decimal. *)
Definition decimal_value (ip fp : string) : Q :=
  let k := Z.of_nat (String.length fp) in
  (Js.digits_value ip * 10 ^ k + Js.digits_value fp) # Z.to_pos (10 ^ k).

End EpochSpec.

(** ** The batch, as the registration is specified *)

Module BatchSpec.

Section Batch.

Context {Wasm : Sgp4Gl}.

(** The display name: the name line without its first two characters,
    [Unknown] when there is no such line or nothing is left of it. *)
Definition display_name (name : option string) : string :=
  match name with
  | Some (String _ (String _ (String c rest))) => String c rest
  | _ => "Unknown"
  end.

(** The elements of a raw element whose two data lines are text the
    parser accepts. *)
Definition parsed_elements (tle : TLE) : option WasmElements :=
  match tle with
  | name :: Some l1 :: Some l2 :: _ =>
      WasmElements_from_tle (TextEncoder_encode (display_name name))
        (TextEncoder_encode l1) (TextEncoder_encode l2)
  | _ => None
  end.

Definition accepted (tle : TLE) : bool :=
  match parsed_elements tle with Some _ => true | None => false end.

(** The constants of an accepted element and their form for the backend,
    when the derivations succeed. *)
Definition constants_of (tle : TLE) : option WasmConstants :=
  parsed_elements tle ≫= WasmConstants_from_elements.

Definition gpu_consts_of (tle : TLE) : option WasmGpuConsts :=
  constants_of tle ≫= WasmGpuConsts_from_constants.

End Batch.

End BatchSpec.


(** ** Views of the world used by the properties of the buffers *)

Section Buffers.

Context {CesiumT : CesiumTypes} {CesiumJs : CesiumType} {Wasm : Sgp4Gl}.

(** The lengths of the arrays that are indexed by satellite. *)
Definition buffer_lengths (w : World) :=
  (length (currentPositionsRef w), length (targetPositionsRef w),
   length (preAllocatedCartesianRef w),
   length <$> pointsCollectionPrimitivesRef w, length <$> pointsMetadataRef w).

(** Current, Target, the pre-allocated positions, the point primitives and
    the metadata have one entry for each satellite. *)
Definition buffers_aligned (w : World) : Prop :=
  length (currentPositionsRef w) = length (targetPositionsRef w)
  /\ length (preAllocatedCartesianRef w) = length (targetPositionsRef w)
  /\ (forall pts, pointsCollectionPrimitivesRef w = Some pts ->
       length pts = length (targetPositionsRef w))
  /\ (forall md, pointsMetadataRef w = Some md ->
       length md = length (targetPositionsRef w)).

(** [new Cartesian3] with the coordinates of a buffer entry. *)
Definition cartesian_of (t : PositionBuffer) : Cartesian3 :=
  {| c3_x := buf_x t; c3_y := buf_y t; c3_z := buf_z t |}.

(** The number of rounds of the loop of lines 457-463 on a result of
    [n] numbers: the least [k] with [n <= 6 * k]. *)
Definition copy_rounds (n : nat) : nat := (n + 5) / 6.

#[local] Arguments copy_rounds : simpl never.

(** What a tick has to wait for once the flag is down: the callbacks in
    the queue, the outstanding calls (each of which queues one tick when it
    settles) and the [boot]s that have not resumed (each of which queues one
    tick at most). *)
Definition loop_backlog (w : World) : nat :=
  animationFrames w + 2 * propagating w + length (booting w).

Definition is_loop_event (e : Event) : bool :=
  match e with AnimationFrame | PropagateSettled _ => true | _ => false end.

Definition is_effect_run (e : Event) : bool :=
  match e with RunEffect _ => true | _ => false end.

Definition is_register (e : Effect) : bool :=
  match e with register_const_set _ _ => true | _ => false end.

Definition register_calls (w : World) : list Effect :=
  List.filter is_register (trace w).

(** What [boot] sets up and nothing else changes. *)
Definition boot_view (w : World) :=
  (isLoadedRef w, booting w, pointsMetadataRef w, wasmConstantsRef w,
   register_calls w, preRender w).

(** The bounds and the rate of the clock of the viewer. *)
Definition clock_setup (w : World) :=
  (fun v => (startTime v, stopTime v, multiplier v)) <$> cesiumViewer w.

(** The positions the render step writes. *)
Definition render_buffers (w : World) :=
  (currentPositionsRef w, preAllocatedCartesianRef w, pointsCollectionPrimitivesRef w).

End Buffers.

(** ** The page: from the text of the element file to the TLEs *)

Module Page.

Section FetchTLEs.

(** [tle_cleaner] of the utilities of the repository, whose text is not
    among the sources: a parameter. It takes a line to a string. *)
Variable tle_cleaner : string -> string.

(** A string as a condition: the empty string is falsy. *)
Definition truthy (s : string) : bool :=
  match s with EmptyString => false | _ => true end.

Definition is_cr (c : ascii) : bool := Ascii.eqb c "013".
Definition is_lf (c : ascii) : bool := Ascii.eqb c "010".

(** [text.split(/\r?\n/)], the line being read carried along. *)
Fixpoint split_from (line : string) (text : string) : list string :=
  match text with
  | EmptyString => [line]
  | String c rest =>
      if is_lf c then line :: split_from EmptyString rest
      else
        match rest with
        | String c' rest' =>
            if is_cr c && is_lf c' then line :: split_from EmptyString rest'
            else split_from (line ++ String c EmptyString) rest
        | EmptyString => [(line ++ String c EmptyString)%string]
        end
  end.

Definition split_lines (text : string) : list string := split_from EmptyString text.

Definition line_at (tleLines : list string) (i : nat) : string :=
  default EmptyString (tleLines !! i).

(** The [for] loop of lines 33-44 of the page from index [i] on. *)
Fixpoint triplets_loop (fuel i : nat) (tleLines : list string) (tleTriplets : list TLE)
    : list TLE :=
  match fuel with
  | O => tleTriplets
  | S fuel' =>
      if (i <? length tleLines)%nat then
        let tleTriplets :=
          if (i + 2 <? length tleLines)%nat then
            let l0 := tle_cleaner (line_at tleLines i) in
            let l1 := tle_cleaner (line_at tleLines (i + 1)) in
            let l2 := tle_cleaner (line_at tleLines (i + 2)) in
            if truthy l1 && truthy l2
            then tleTriplets ++ [[Some l0; Some l1; Some l2]]
            else tleTriplets
          else tleTriplets in
        triplets_loop fuel' (i + 3) tleLines tleTriplets
      else tleTriplets
  end.

(** What [fetchTLEs] passes to [setTles] for the text of the file; [None]
    when the text is empty and [setTles] is not called. *)
Definition fetchTLEs (tleData : string) : option (list TLE) :=
  if (0 <? String.length tleData)%nat then
    let tleLines := split_lines tleData in
    Some (triplets_loop (length tleLines) 0 tleLines [])
  else None.

(** The complete groups of three lines, in order, whose second and third
    lines are not empty once cleaned. *)
Fixpoint groups_of_three (tleLines : list string) : list TLE :=
  match tleLines with
  | a :: b :: c :: rest =>
      (if truthy (tle_cleaner b) && truthy (tle_cleaner c)
       then [[Some (tle_cleaner a); Some (tle_cleaner b); Some (tle_cleaner c)]]
       else [])
      ++ groups_of_three rest
  | _ => []
  end.

End FetchTLEs.

Definition nl : string := String "010" EmptyString.

(** Eight lines: a complete element, a group whose second line is empty,
    and a group cut short. *)
Definition element_file : string :=
  ("0 A" ++ nl ++ "1 a" ++ nl ++ "2 a" ++ nl ++
   "0 B" ++ nl ++ "" ++ nl ++ "2 b" ++ nl ++
   "0 C" ++ nl ++ "1 c")%string.

End Page.

(** ** The frame statistics of the comparison panel *)

Module Performance.

(** What the statistics object of lines 95-120 is computed from: the
    window of frame times, whose length is its [totalFrames], and the
    refresh rate detected so far. Its floating-point arithmetic is not
    modelled. *)
Definition StatsInputs : Type := list float * float.

Definition totalFrames (s : StatsInputs) : nat := length (fst s).

Record Monitor := {
  frameTimesRef : list float;
  lastFrameTimeRef : float;
  (** the calls of [setStats] made by [measurePerformance], oldest first *)
  setStats_calls : list StatsInputs
}.

(** [measurePerformance] (lines 79-124) at the instant [now], the
    variable [refreshRateDetected] of the enclosing effect holding
    [rate]. *)
Definition measurePerformance (frame : float * float) (m : Monitor) : Monitor :=
  let '(rate, now) := frame in
  let frameTime := PrimFloat.sub now (lastFrameTimeRef m) in
  let times := frameTimesRef m ++ [frameTime] in
  let times := if (240 <? length times)%nat then tail times else times in
  {| frameTimesRef := times;
     lastFrameTimeRef := now;
     setStats_calls :=
       if ((length times mod 30 =? 0) && (0 <? length times))%nat
       then setStats_calls m ++ [(times, rate)]
       else setStats_calls m |}.

(** The frames one after the other. *)
Definition measure_frames (frames : list (float * float)) (m : Monitor) : Monitor :=
  fold_left (fun m frame => measurePerformance frame m) frames m.

(** The effect that runs when the mode is switched (lines 136-148)
    empties the window. *)
Definition reset (m : Monitor) : Monitor :=
  {| frameTimesRef := []; lastFrameTimeRef := lastFrameTimeRef m;
     setStats_calls := setStats_calls m |}.

(** The time between each frame and the one before it, the first frame
    being measured from [last]. *)
Fixpoint frame_deltas (last : float) (frames : list (float * float)) : list float :=
  match frames with
  | [] => []
  | (_, now) :: rest => PrimFloat.sub now last :: frame_deltas now rest
  end.

(** Frame number [k] (from 1) of a window that started empty is one at
    which the statistics are computed. *)
Definition stats_frame (k : nat) : bool := ((k mod 30 =? 0) || (240 <=? k))%nat.

Definition fresh_monitor : Monitor :=
  {| frameTimesRef := []; lastFrameTimeRef := 0; setStats_calls := [] |}.

(** Frames 16 ms apart at a rate detected of 60 Hz. *)
Definition steady_frames (n : nat) : list (float * float) :=
  (fun k => (60%float, PrimFloat.mul 16 (PrimFloat.of_uint63 (Uint63.of_Z (Z.of_nat k)))))
    <$> seq 1 n.

End Performance.

(** * Properties *)

(** ** ECMAScript helpers *)

Lemma digit_not_space c : Js.is_digit c = true -> Js.is_space c = false.
Proof.
  unfold Js.is_digit, Js.is_space. intros H.
  apply andb_true_iff in H as [H1 H2].
  apply Nat.leb_le in H1. apply Nat.leb_le in H2.
  apply orb_false_iff. split; [apply orb_false_iff; split|].
  - apply andb_false_iff. right. apply Nat.leb_gt. lia.
  - apply Nat.eqb_neq. lia.
  - apply Nat.eqb_neq. lia.
Qed.

Lemma digit_val_range c : Js.is_digit c = true -> 0 <= Js.digit_val c <= 9.
Proof.
  unfold Js.is_digit, Js.digit_val. intros H.
  apply andb_true_iff in H as [H1 H2].
  apply Nat.leb_le in H1. apply Nat.leb_le in H2. lia.
Qed.

Lemma take_sign_digit c s :
  Js.is_digit c = true -> Js.take_sign (String c s) = (1, String c s).
Proof.
  destruct c as [[] [] [] [] [] [] [] []]; intros H;
    solve [reflexivity | discriminate H].
Qed.

Lemma skip_space_digit c s :
  Js.is_digit c = true -> Js.skip_space (String c s) = String c s.
Proof. intros H. simpl. now rewrite digit_not_space. Qed.

Lemma prefix_Infinity_digit c s :
  Js.is_digit c = true -> String.prefix "Infinity" (String c s) = false.
Proof.
  destruct c as [[] [] [] [] [] [] [] []]; intros H;
    solve [reflexivity | discriminate H].
Qed.

Lemma span_digits_all ds rest :
  EpochSpec.all_digits ds = true ->
  (match rest with String c _ => Js.is_digit c = false | EmptyString => True end) ->
  Js.span_digits (ds ++ rest) = (ds, rest).
Proof.
  unfold EpochSpec.all_digits. induction ds as [|c ds IH]; simpl; intros Hd Hr.
  - destruct rest as [|c r]; [reflexivity|]. simpl. now rewrite Hr.
  - apply andb_true_iff in Hd as [Hc Hd]. rewrite Hc, IH; auto.
Qed.

Lemma digits_value_from_bound ds : forall acc,
  EpochSpec.all_digits ds = true -> 0 <= acc ->
  acc * 10 ^ Z.of_nat (String.length ds) <= Js.digits_value_from acc ds
    < (acc + 1) * 10 ^ Z.of_nat (String.length ds).
Proof.
  unfold EpochSpec.all_digits.
  induction ds as [|c ds IH]; intros acc Hd Hacc.
  - simpl. lia.
  - simpl in Hd. apply andb_true_iff in Hd as [Hc Hd].
    pose proof (digit_val_range c Hc) as Hr.
    cbn [Js.digits_value_from String.length].
    specialize (IH (10 * acc + Js.digit_val c) Hd ltac:(lia)).
    rewrite Nat2Z.inj_succ, Z.pow_succ_r by lia.
    assert (0 < 10 ^ Z.of_nat (String.length ds)) by (apply Z.pow_pos_nonneg; lia).
    nia.
Qed.

Lemma digits_value_bound ds :
  EpochSpec.all_digits ds = true ->
  0 <= Js.digits_value ds < 10 ^ Z.of_nat (String.length ds).
Proof.
  intros H. pose proof (digits_value_from_bound ds 0 H ltac:(lia)).
  unfold Js.digits_value. lia.
Qed.

Lemma substring_whole s : String.substring 0 (String.length s) s = s.
Proof. induction s as [|c s IH]; simpl; [reflexivity | now rewrite IH]. Qed.

Lemma parseInt_two_digits y1 y2 :
  Js.is_digit y1 = true -> Js.is_digit y2 = true ->
  Js.parseInt (String y1 (String y2 EmptyString))
  = Some (10 * Js.digit_val y1 + Js.digit_val y2).
Proof.
  intros H1 H2. unfold Js.parseInt.
  rewrite skip_space_digit, take_sign_digit by assumption.
  simpl. rewrite H1, H2. simpl. f_equal.
  unfold Js.digits_value. simpl. lia.
Qed.

Lemma parseFloat_decimal ip fp :
  EpochSpec.all_digits ip = true -> ip <> EmptyString ->
  EpochSpec.all_digits fp = true ->
  Js.parseFloat (ip ++ String "." fp) = Js.Number_of_Q (EpochSpec.decimal_value ip fp).
Proof.
  intros Hi Hne Hf. unfold Js.parseFloat.
  destruct ip as [|c ip']; [congruence|].
  assert (Hc : Js.is_digit c = true).
  { unfold EpochSpec.all_digits in Hi. simpl in Hi.
    now apply andb_true_iff in Hi as [Hc _]. }
  change (String c ip' ++ String "." fp)%string
    with (String c (ip' ++ String "." fp))%string.
  rewrite skip_space_digit, take_sign_digit, prefix_Infinity_digit by assumption.
  change (String c (ip' ++ String "." fp))%string
    with (String c ip' ++ String "." fp)%string.
  unfold Js.unsigned_decimal.
  rewrite (span_digits_all (String c ip') (String "." fp)) by (auto; reflexivity).
  replace (Js.span_digits fp) with (fp, EmptyString).
  2:{ symmetry. rewrite <- (span_digits_all fp EmptyString Hf I).
      f_equal. clear. induction fp; simpl; congruence. }
  cbn [Js.exponent_part]. change (1 <? 0) with false. cbv iota.
  unfold Js.Number_of_decimal, EpochSpec.decimal_value.
  set (k := Z.of_nat (String.length fp)). rewrite Z.sub_0_l.
  destruct (Z.leb_spec 0 (- k)) as [Hk | Hk].
  - assert (k = 0) by lia. replace (- k) with 0 by lia.
    replace k with 0 by lia. cbn [Z.pow Z.to_pos]. now rewrite !Z.mul_1_r.
  - now rewrite Z.opp_involutive.
Qed.

Lemma Z_range_forallb (P : Z -> bool) lo n :
  forallb P (map (fun k => lo + Z.of_nat k) (seq 0 n)) = true ->
  forall y, lo <= y < lo + Z.of_nat n -> P y = true.
Proof.
  intros H y Hy. rewrite forallb_forall in H. apply H.
  apply in_map_iff. exists (Z.to_nat (y - lo)). split; [lia|].
  apply in_seq. lia.
Qed.

(** The day number ECMAScript gives the first of January is the count of
    the days of the years in between. *)
Lemma DayFromYear_counts y :
  1900 <= y < 2100 -> Js.DayFromYear y = EpochSpec.jan1_days y.
Proof.
  intros Hy. apply Z.eqb_eq.
  apply (Z_range_forallb
           (fun y => Js.DayFromYear y =? EpochSpec.jan1_days y) 1900 200);
    [vm_compute; reflexivity | lia].
Qed.

(** The integral part by shifts is the quotient of the exact value. *)
Lemma TimeClip_whole_ms (time : float) : Js.TimeClip time = EpochSpec.whole_ms time.
Proof.
  unfold Js.TimeClip, EpochSpec.whole_ms, Js.integral_part, EpochSpec.value.
  destruct (PrimFloat.ltb _ _); [reflexivity|].
  destruct (Prim2SF time) as [sg | sg | | sg m e]; try reflexivity.
  cbn [fmap option_fmap option_map]. f_equal.
  destruct (Z.leb_spec 0 e) as [He | He]; cbn [Qnum Qden].
  - rewrite Z.quot_1_r, Z.shiftl_mul_pow2 by lia. destruct sg; lia.
  - assert (Hp : 0 < 2 ^ (- e)) by (apply Z.pow_pos_nonneg; lia).
    rewrite Z2Pos.id, Z.shiftr_div_pow2 by lia.
    destruct sg.
    + change (Z.neg m) with (- Z.pos m). rewrite Z.quot_opp_l by lia.
      rewrite Z.quot_div_nonneg by lia. reflexivity.
    + rewrite Z.quot_div_nonneg by lia. reflexivity.
Qed.

Lemma DayFromYear_small y : 1900 <= y < 2100 -> -50000 <= Js.DayFromYear y <= 50000.
Proof.
  intros Hy.
  pose proof (Z_range_forallb
    (fun y => (-50000 <=? Js.DayFromYear y) && (Js.DayFromYear y <=? 50000))
    1900 200 ltac:(vm_compute; reflexivity) y ltac:(lia)) as H.
  apply andb_true_iff in H as [H1 H2]. lia.
Qed.

Lemma TimeClip_integer_in_range (t : Z) :
  -8640000000000000 <= t <= 8640000000000000 -> Js.TimeClip_integer t = Some t.
Proof.
  intros H. unfold Js.TimeClip_integer.
  destruct (Z.ltb_spec 8640000000000000 (Z.abs t)); [lia | reflexivity].
Qed.

Lemma Date_UTC_jan1 (y : Z) :
  1900 <= y < 2100 ->
  Js.Date_UTC (Some y) 0 1 = Some (EpochSpec.jan1_days y * 86400000).
Proof.
  intros Hy. unfold Js.Date_UTC, Js.MakeFullYear.
  destruct (Z.leb_spec y 99); [lia|]. rewrite andb_false_r.
  unfold Js.MakeDay, Js.MakeDate, Js.MakeTime, Js.msPerDay.
  change (0 / 12) with 0. change (0 mod 12) with 0.
  cbn [Js.DaysBeforeMonth]. rewrite !Z.add_0_r.
  pose proof (DayFromYear_small y Hy).
  rewrite TimeClip_integer_in_range by lia.
  rewrite DayFromYear_counts by lia. f_equal. lia.
Qed.

Section Properties.

Context {CesiumT : CesiumTypes} {CesiumJs : CesiumType} {Wasm : Sgp4Gl}.

(** ** The epoch of a TLE *)

Lemma pivot_year_window yy :
  0 <= yy <= 99 -> 1957 <= EpochSpec.pivot_year yy <= 2056.
Proof. unfold EpochSpec.pivot_year. destruct (Z.ltb_spec yy 57); lia. Qed.

Lemma epoch_year_two_digits y1 y2 rest :
  Js.is_digit y1 = true -> Js.is_digit y2 = true ->
  epoch_year (String y1 (String y2 rest))
  = Some (EpochSpec.pivot_year (10 * Js.digit_val y1 + Js.digit_val y2)).
Proof.
  intros H1 H2. unfold epoch_year, Js.substring.
  replace (String.substring 0 (2 - 0) (String y1 (String y2 rest)))
    with (String y1 (String y2 EmptyString)) by (destruct rest; reflexivity).
  now rewrite parseInt_two_digits.
Qed.

Lemma epoch_day_decimal y1 y2 ip fp :
  EpochSpec.all_digits ip = true -> ip <> EmptyString ->
  EpochSpec.all_digits fp = true ->
  epoch_day (String y1 (String y2 (ip ++ String "." fp)))
  = Js.Number_of_Q (EpochSpec.decimal_value ip fp).
Proof.
  intros Hi Hne Hf. unfold epoch_day, Js.substring_from.
  cbn [String.length Nat.sub String.substring].
  rewrite Nat.sub_0_r, substring_whole.
  now apply parseFloat_decimal.
Qed.

Lemma epochTimeMs_binary64 y1 y2 ip fp :
  Js.is_digit y1 = true -> Js.is_digit y2 = true ->
  EpochSpec.all_digits ip = true -> ip <> EmptyString ->
  EpochSpec.all_digits fp = true ->
  epochTimeMs (String y1 (String y2 (ip ++ String "." fp)))
  = EpochSpec.epoch_ms_binary64 (10 * Js.digit_val y1 + Js.digit_val y2)
      (EpochSpec.decimal_value ip fp).
Proof.
  intros H1 H2 Hi Hne Hf.
  pose proof (digit_val_range y1 H1) as R1.
  pose proof (digit_val_range y2 H2) as R2.
  pose proof (pivot_year_window (10 * Js.digit_val y1 + Js.digit_val y2) ltac:(lia)) as Hw.
  unfold epochTimeMs, EpochSpec.epoch_ms_binary64.
  rewrite epoch_year_two_digits, epoch_day_decimal by assumption.
  rewrite Date_UTC_jan1 by lia. reflexivity.
Qed.

(** C3. For every epoch string made of a two-digit year and a fractional
    day of the year, the decoded year is 2000 + year below the pivot 57 and
    1900 + year from it on, and the decoded instant is the whole
    millisecond, toward zero, of (day - 1) days past the first of January of
    that year at 00:00 UTC as double precision gives it: the day is the
    number nearest to its decimal and each of the operations rounds.
    "24091.50000000" decodes to 2024-03-31T12:00:00.000Z, which is the
    exact instant. *)
Theorem tleEpochToJulian_pivot_rule :
  (forall (y1 y2 : ascii) (ip fp : string),
      Js.is_digit y1 = true -> Js.is_digit y2 = true ->
      EpochSpec.all_digits ip = true -> ip <> EmptyString ->
      EpochSpec.all_digits fp = true ->
      let yy := 10 * Js.digit_val y1 + Js.digit_val y2 in
      let epochStr := String y1 (String y2 (ip ++ String "." fp)) in
      let time := EpochSpec.epoch_ms_binary64 yy (EpochSpec.decimal_value ip fp) in
      (epoch_year epochStr = Some (EpochSpec.pivot_year yy))
      /\ (Js.new_Date (epochTimeMs epochStr) = EpochSpec.whole_ms time)
      /\ (tleEpochToJulian epochStr = JulianDate_fromDate (EpochSpec.whole_ms time)))
  /\ (epoch_year "24091.50000000" = Some 2024)
  /\ (Js.new_Date (epochTimeMs "24091.50000000") = Some 1711886400000)
  /\ (inject_Z 1711886400000 == EpochSpec.epoch_instant 24 (915 # 10))%Q
  /\ (tleEpochToJulian "24091.50000000" =
      JulianDate_fromDate (Js.new_Date_text "2024-03-31T12:00:00.000Z")).
Proof.
  split; [|split; [|split; [|split]]].
  - intros y1 y2 ip fp H1 H2 Hi Hne Hf yy epochStr time.
    split; [now apply epoch_year_two_digits|].
    assert (Ht : Js.new_Date (epochTimeMs epochStr) = EpochSpec.whole_ms time).
    { unfold Js.new_Date. subst epochStr time yy.
      rewrite epochTimeMs_binary64 by assumption. apply TimeClip_whole_ms. }
    split; [exact Ht|]. unfold tleEpochToJulian. now rewrite Ht.
  - reflexivity.
  - vm_compute. reflexivity.
  - vm_compute. reflexivity.
  - unfold tleEpochToJulian. apply f_equal. vm_compute. reflexivity.
Qed.

(** ** Bookkeeping: what each handler leaves alone *)

Lemma propagate_calls_log e w :
  propagate_calls (log e w)
  = if is_propagate e then propagate_calls w ++ [e] else propagate_calls w.
Proof.
  unfold propagate_calls, log. cbn. rewrite List.filter_app.
  destruct e; cbn; try apply app_nil_r; reflexivity.
Qed.

Lemma release_calls_log e w :
  release_calls (log e w)
  = if is_unregister e then release_calls w ++ [e] else release_calls w.
Proof.
  unfold release_calls, log. cbn. rewrite List.filter_app.
  destruct e; cbn; try apply app_nil_r; reflexivity.
Qed.

Lemma transform_computes_log e w :
  transform_computes (log e w)
  = if is_compute e then transform_computes w ++ [e] else transform_computes w.
Proof.
  unfold transform_computes, log. cbn. rewrite List.filter_app.
  destruct e; cbn; try apply app_nil_r; reflexivity.
Qed.

(** The part of the world the propagation loop and the cleanup work on. *)
Definition loop_view (w : World) :=
  (isComponentAliveRef w, gpuPropagatorRef w, registeredConstSetIdRef w,
   inflightRef w, propagating w, animationFrames w, timeouts w,
   propagate_calls w, release_calls w).

(** The part of the world the render step works on, the positions apart. *)
Definition render_view (w : World) :=
  (cesiumViewer w, pointsCollectionRef w, lastJDateRef w, modelMatrixRef w,
   transform_computes w, preRender w).

Ltac split_handler :=
  repeat match goal with
    | |- context [match ?x with _ => _ end] => destruct x eqn:?
    end.

Ltac same_view :=
  cbn; unfold propagate_calls, release_calls, transform_computes; cbn;
  rewrite ?List.filter_app; cbn; rewrite ?app_nil_r; try reflexivity.

Lemma move_points_loop_view fuel : forall i w,
  loop_view (move_points fuel i w) = loop_view w.
Proof.
  induction fuel as [|fuel IH]; intros i w; [reflexivity|].
  cbn [move_points]. split_handler; rewrite ?IH; unfold loop_view, log; same_view.
Qed.

Lemma update_transform_loop_view now w :
  loop_view (update_transform now w) = loop_view w.
Proof. unfold update_transform. split_handler; unfold loop_view, log; same_view. Qed.

Lemma animate_loop_view timeLimit w : loop_view (animate timeLimit w) = loop_view w.
Proof.
  unfold animate. split_handler; rewrite ?move_points_loop_view,
    ?update_transform_loop_view; unfold loop_view, log; same_view.
Qed.

Lemma preRender_loop_view ls : forall w,
  loop_view (fold_left (fun w timeLimit => animate timeLimit w) ls w) = loop_view w.
Proof.
  induction ls as [|tl ls IH]; intros w; [reflexivity|].
  cbn [fold_left]. now rewrite IH, animate_loop_view.
Qed.

(** ** C1: the in-flight counter *)

(** The counter is 0 or 1 and counts the suspended activations of
    [propagateLoop], each of which awaits one backend call. *)
Definition inflight_ok (w : World) : Prop :=
  (inflightRef w = 0 \/ inflightRef w = 1) /\ inflightRef w = Z.of_nat (propagating w).

Lemma inflight_ok_view w w' :
  loop_view w' = loop_view w -> inflight_ok w -> inflight_ok w'.
Proof. unfold loop_view, inflight_ok. intros [= _ _ _ -> -> _ _ _ _]. auto. Qed.

Lemma propagateLoop_inflight_ok w : inflight_ok w -> inflight_ok (propagateLoop w).
Proof.
  unfold propagateLoop, inflight_ok. intros [H1 H2].
  split_handler; cbn; auto.
  match goal with H : negb (inflightRef w =? 0) = false |- _ =>
    apply negb_false_iff, Z.eqb_eq in H; rewrite H in *
  end.
  split; [right; reflexivity | lia].
Qed.

Lemma propagateLoop_settled_inflight_ok r w n :
  inflight_ok w -> propagating w = S n ->
  inflight_ok (propagateLoop_settled r (w <| propagating := n |>)).
Proof.
  unfold propagateLoop_settled, inflight_ok. intros [H1 H2] Hn.
  rewrite Hn in H2.
  split_handler; cbn; lia.
Qed.

Lemma boot_resumed_inflight TLEs r constSetId w :
  inflightRef (boot_resumed TLEs r constSetId w) = inflightRef w
  /\ propagating (boot_resumed TLEs r constSetId w) = propagating w.
Proof. unfold boot_resumed. split_handler; cbn; auto. Qed.

Lemma tryUnregister_inflight throws w :
  inflightRef (tryUnregister throws w) = inflightRef w
  /\ propagating (tryUnregister throws w) = propagating w.
Proof. unfold tryUnregister. split_handler; cbn; auto. Qed.

Lemma step_inflight_ok e w w' : inflight_ok w -> step e w = Some w' -> inflight_ok w'.
Proof.
  intros Hok Hs. destruct e; cbn in Hs.
  - injection Hs as <-. revert Hok. unfold viewer_init, inflight_ok.
    destruct (cesiumViewer w); cbn; auto.
  - injection Hs as <-. revert Hok. unfold boot, inflight_ok.
    split_handler; cbn; auto.
  - destruct (booting w) eqn:Hb; [discriminate|]. injection Hs as <-.
    unfold inflight_ok in *.
    destruct (boot_resumed_inflight l r constSetId (w <| booting := l0 |>)) as [-> ->].
    exact Hok.
  - destruct (animationFrames w) eqn:Hf; [discriminate|]. injection Hs as <-.
    apply propagateLoop_inflight_ok. exact Hok.
  - destruct (propagating w) eqn:Hp; [discriminate|]. injection Hs as <-.
    now apply propagateLoop_settled_inflight_ok.
  - destruct (cesiumViewer w); [|discriminate]. injection Hs as <-. exact Hok.
  - injection Hs as <-. eapply inflight_ok_view; [apply preRender_loop_view | exact Hok].
  - injection Hs as <-. unfold cleanup.
    split_handler; try exact Hok.
    unfold inflight_ok.
    match goal with |- context [tryUnregister ?t ?u] =>
      destruct (tryUnregister_inflight t u) as [-> ->] end.
    exact Hok.
  - destruct (timeouts w) eqn:Ht; [discriminate|]. injection Hs as <-.
    unfold inflight_ok.
    match goal with |- context [tryUnregister ?t ?u] =>
      destruct (tryUnregister_inflight t u) as [-> ->] end.
    exact Hok.
Qed.

Lemma run_inflight_ok evs : forall w w',
  inflight_ok w -> run evs w = Some w' -> inflight_ok w'.
Proof.
  induction evs as [|e evs IH]; intros w w' Hok Hr; cbn in Hr.
  - now injection Hr as <-.
  - destruct (step e w) as [w1|] eqn:Hs; [|discriminate].
    cbn in Hr. eapply IH; [|exact Hr]. eapply step_inflight_ok; eauto.
Qed.

Lemma mounted_inflight_ok : inflight_ok mounted.
Proof. split; [left|]; reflexivity. Qed.

(** What a tick does to the counter: nothing, or it takes the counter from
    0 to 1 and begins one backend call. *)
Lemma propagateLoop_cases w :
  (propagate_calls (propagateLoop w) = propagate_calls w
   /\ inflightRef (propagateLoop w) = inflightRef w
   /\ propagating (propagateLoop w) = propagating w)
  \/ (inflightRef w = 0 /\ inflightRef (propagateLoop w) = 1
      /\ propagating (propagateLoop w) = S (propagating w)
      /\ exists constSetId times,
          propagate_calls (propagateLoop w)
          = propagate_calls w ++ [propagate_registered_f32 constSetId times]).
Proof.
  unfold propagateLoop.
  split_handler; try (left; unfold log; same_view; now auto).
  right.
  match goal with H : negb (inflightRef w =? 0) = false |- _ =>
    apply negb_false_iff, Z.eqb_eq in H; rewrite H end.
  unfold log. cbn. repeat split; try reflexivity.
  eexists _, _. unfold propagate_calls. cbn. rewrite List.filter_app. reflexivity.
Qed.

Lemma propagateLoop_deferred w :
  inflightRef w <> 0 ->
  propagate_calls (propagateLoop w) = propagate_calls w
  /\ inflightRef (propagateLoop w) = inflightRef w
  /\ propagating (propagateLoop w) = propagating w
  /\ targetPositionsRef (propagateLoop w) = targetPositionsRef w.
Proof.
  intros Hn. unfold propagateLoop.
  split_handler; unfold log; same_view; auto.
  match goal with H : negb (inflightRef w =? 0) = false |- _ =>
    apply negb_false_iff, Z.eqb_eq in H; contradiction end.
Qed.

(** C1. The in-flight counter is 0 or 1 in every reachable state, also when
    ticks are fired at will; it counts the backend calls that are
    outstanding, so no two overlap. A tick takes it from 0 to 1 exactly when
    it begins a backend call and the settling of the call takes 1 off; a
    tick that finds it non-zero begins no call, and reschedules itself when
    it gets as far as the in-flight test. *)
Theorem inflight_counter_zero_or_one :
  (forall evs w, run evs mounted = Some w -> inflight_ok w)
  /\ (forall w0 evs w, inflight_ok w0 -> run evs w0 = Some w -> inflight_ok w)
  /\ (forall w w',
        step AnimationFrame w = Some w' ->
        (propagate_calls w' = propagate_calls w
         /\ inflightRef w' = inflightRef w /\ propagating w' = propagating w)
        \/ (inflightRef w = 0 /\ inflightRef w' = 1
            /\ propagating w' = S (propagating w)
            /\ exists constSetId times,
                propagate_calls w'
                = propagate_calls w ++ [propagate_registered_f32 constSetId times]))
  /\ (forall r w w',
        step (PropagateSettled r) w = Some w' ->
        inflightRef w' = inflightRef w - 1 /\ S (propagating w') = propagating w
        /\ propagate_calls w' = propagate_calls w)
  /\ (forall w,
        inflightRef w <> 0 ->
        propagate_calls (propagateLoop w) = propagate_calls w
        /\ inflightRef (propagateLoop w) = inflightRef w
        /\ propagating (propagateLoop w) = propagating w
        /\ targetPositionsRef (propagateLoop w) = targetPositionsRef w)
  /\ (forall w viewer p constSetId metadata,
        inflightRef w <> 0 ->
        isComponentAliveRef w = true ->
        cesiumViewer w = Some viewer ->
        gpuPropagatorRef w = Some p ->
        registeredConstSetIdRef w = Some constSetId ->
        pointsMetadataRef w = Some metadata -> metadata <> [] ->
        propagateLoop w = w <| animationFrames := S (animationFrames w) |>).
Proof.
  split; [|split; [|split; [|split; [|split]]]].
  - intros evs w Hr. eapply run_inflight_ok; [apply mounted_inflight_ok | exact Hr].
  - intros w0 evs w. apply run_inflight_ok.
  - intros w w' Hs. cbn in Hs.
    destruct (animationFrames w) eqn:Hf; [discriminate|]. injection Hs as <-.
    exact (propagateLoop_cases (w <| animationFrames := n |>)).
  - intros r w w' Hs. cbn in Hs.
    destruct (propagating w) eqn:Hp; [discriminate|]. injection Hs as <-.
    unfold propagateLoop_settled.
    split_handler; unfold log; same_view; auto.
  - apply propagateLoop_deferred.
  - intros w viewer p constSetId metadata Hn Ha Hv Hp Hid Hm Hne.
    unfold propagateLoop. rewrite Ha, Hv, Hp, Hid, Hm. cbn.
    destruct metadata; [congruence|]. cbn.
    destruct (Z.eqb_spec (inflightRef w) 0); [contradiction|]. reflexivity.
Qed.

(** ** C10: a tick without a registered set *)

(** No callback of the loop is pending and no [boot] can start one. *)
Definition loop_stopped (w : World) : Prop :=
  isLoadedRef w = true /\ booting w = [] /\ animationFrames w = 0%nat
  /\ propagating w = 0%nat.

Lemma animate_loop_stopped timeLimit w :
  isLoadedRef (animate timeLimit w) = isLoadedRef w
  /\ booting (animate timeLimit w) = booting w.
Proof.
  assert (M : forall fuel i w, isLoadedRef (move_points fuel i w) = isLoadedRef w
                               /\ booting (move_points fuel i w) = booting w).
  { induction fuel as [|fuel IH]; intros i w0; [auto|].
    cbn [move_points]. split_handler; try apply IH; cbn; auto.
    all: match goal with |- context [move_points _ ?j ?u] =>
           destruct (IH j u) as [-> ->] end; cbn; auto. }
  unfold animate, update_transform.
  split_handler; try match goal with |- context [move_points ?f ?j ?u] =>
    destruct (M f j u) as [-> ->] end; cbn; auto.
Qed.

Lemma step_loop_stopped e w w' :
  loop_stopped w -> step e w = Some w' ->
  loop_stopped w' /\ propagate_calls w' = propagate_calls w.
Proof.
  unfold loop_stopped. intros (Hl & Hb & Hf & Hp) Hs.
  destruct e; cbn in Hs.
  - injection Hs as <-. unfold viewer_init. destruct (cesiumViewer w); cbn; auto.
  - injection Hs as <-. unfold boot. rewrite Hl. cbn. auto.
  - rewrite Hb in Hs. discriminate.
  - rewrite Hf in Hs. discriminate.
  - rewrite Hp in Hs. discriminate.
  - destruct (cesiumViewer w); [|discriminate]. injection Hs as <-. cbn. auto.
  - injection Hs as <-.
    pose proof (preRender_loop_view (preRender w) w) as Hv.
    unfold loop_view in Hv. injection Hv as _ _ _ _ Hp' Hf' _ Hc _.
    rewrite Hp', Hf', Hc.
    assert (forall ls u, isLoadedRef (fold_left (fun w t => animate t w) ls u) = isLoadedRef u
                         /\ booting (fold_left (fun w t => animate t w) ls u) = booting u) as F.
    { induction ls as [|t ls IH]; intros u; [auto|]. cbn [fold_left].
      destruct (IH (animate t u)) as [-> ->]. apply animate_loop_stopped. }
    destruct (F (preRender w) w) as [-> ->]. auto.
  - injection Hs as <-. unfold cleanup, tryUnregister.
    split_handler; unfold log; same_view; auto.
  - destruct (timeouts w); [discriminate|]. injection Hs as <-.
    unfold tryUnregister. split_handler; unfold log; same_view; auto.
Qed.

Lemma run_loop_stopped evs : forall w w',
  loop_stopped w -> run evs w = Some w' ->
  loop_stopped w' /\ propagate_calls w' = propagate_calls w.
Proof.
  induction evs as [|e evs IH]; intros w w' Hst Hr; cbn in Hr.
  - injection Hr as <-. auto.
  - destruct (step e w) as [w1|] eqn:Hs; [|discriminate]. cbn in Hr.
    destruct (step_loop_stopped e w w1 Hst Hs) as [H1 <-].
    now apply IH.
Qed.

(** C10. A tick that finds the propagator uninitialised, the handle null
    or the metadata empty returns without a backend call and without
    scheduling a further tick; when it was the only pending callback of a
    booted component the loop never runs again, whatever happens next,
    whereas a tick that finds a call in flight puts itself back in the
    queue. *)
Theorem tick_unregistered_stops_loop (w : World) :
  gpuPropagatorRef w = None \/ registeredConstSetIdRef w = None
  \/ pointsMetadataRef w = Some [] ->
  loop_view (propagateLoop w) = loop_view w
  /\ targetPositionsRef (propagateLoop w) = targetPositionsRef w
  /\ (is_Some (cesiumViewer w) -> propagateLoop w = w)
  /\ (forall w1 evs w',
        isLoadedRef w = true -> booting w = [] ->
        animationFrames w = 1%nat -> propagating w = 0%nat ->
        step AnimationFrame w = Some w1 -> run evs w1 = Some w' ->
        propagate_calls w' = propagate_calls w /\ animationFrames w' = 0%nat
        /\ propagating w' = 0%nat).
Proof.
  intros Hg.
  assert (Hview : loop_view (propagateLoop w) = loop_view w
                  /\ targetPositionsRef (propagateLoop w) = targetPositionsRef w
                  /\ isLoadedRef (propagateLoop w) = isLoadedRef w
                  /\ booting (propagateLoop w) = booting w).
  { unfold propagateLoop.
    destruct Hg as [Hg | [Hg | Hg]]; rewrite Hg;
      split_handler; try (cbn in *; discriminate);
      unfold loop_view, log; same_view; auto. }
  destruct Hview as (Hv & Ht & Hl & Hb).
  split; [exact Hv|]. split; [exact Ht|]. split.
  - intros [v Hvw]. unfold propagateLoop. rewrite Hvw.
    destruct Hg as [Hg | [Hg | Hg]]; rewrite Hg; split_handler;
      try (cbn in *; discriminate); reflexivity.
  - intros w1 evs w' Hld Hbo Hf Hp Hs Hr. cbn in Hs. rewrite Hf in Hs.
    injection Hs as <-.
    set (u := w <| animationFrames := 0%nat |>) in *.
    assert (Hgu : gpuPropagatorRef u = None \/ registeredConstSetIdRef u = None
                  \/ pointsMetadataRef u = Some []) by exact Hg.
    assert (Hu : loop_view (propagateLoop u) = loop_view u
                 /\ isLoadedRef (propagateLoop u) = isLoadedRef u
                 /\ booting (propagateLoop u) = booting u).
    { unfold propagateLoop.
      destruct Hgu as [Hq | [Hq | Hq]]; rewrite Hq;
        split_handler; try (cbn in *; discriminate);
        unfold loop_view, log; same_view; auto. }
    destruct Hu as (Hu1 & Hu2 & Hu3).
    unfold loop_view in Hu1. injection Hu1 as _ _ _ _ Hp1 Hf1 _ Hc1 _.
    assert (Hst : loop_stopped (propagateLoop u)).
    { unfold loop_stopped. rewrite Hu2, Hu3, Hf1, Hp1. subst u. cbn. auto. }
    destruct (run_loop_stopped evs _ _ Hst Hr) as [(_ & _ & Hf' & Hp') Hc'].
    rewrite Hc', Hc1. subst u. auto.
Qed.

(** ** C4: a backend call that fails *)

(** C4. When the promise of the backend call is rejected the failure is
    written to the console and goes no further, every entry of the target
    buffer and everything else stays as it was, the in-flight counter goes
    down by one and the next tick is in the queue. *)
Theorem rejected_call_is_absorbed (w : World) (n : nat) :
  propagating w = S n ->
  exists w',
    step (PropagateSettled rejected) w = Some w'
    /\ w' = w <| propagating := n |>
              <| trace := trace w ++ [console_error "GPU propagate loop error"] |>
              <| inflightRef := inflightRef w - 1 |>
              <| animationFrames := S (animationFrames w) |>
    /\ targetPositionsRef w' = targetPositionsRef w
    /\ inflightRef w' = inflightRef w - 1
    /\ animationFrames w' = S (animationFrames w)
    /\ is_Some (step AnimationFrame w').
Proof.
  intros Hp. eexists. split; [cbn; rewrite Hp; reflexivity|].
  split; [reflexivity|]. cbn. repeat split; eauto.
Qed.

(** ** Shutdown *)

(** Liveness flag, release calls and pending retries. *)
Definition shutdown_view (w : World) :=
  (isComponentAliveRef w, release_calls w, timeouts w).

Lemma loop_view_shutdown_view w w' :
  loop_view w' = loop_view w -> shutdown_view w' = shutdown_view w.
Proof. unfold loop_view, shutdown_view. intros [= -> _ _ _ _ _ -> _ ->]. reflexivity. Qed.

Lemma shutdown_view_eq w w' :
  shutdown_view w' = shutdown_view w ->
  isComponentAliveRef w' = isComponentAliveRef w
  /\ release_calls w' = release_calls w /\ timeouts w' = timeouts w.
Proof. unfold shutdown_view. intros [= H1 H2 H3]. auto. Qed.

Lemma loop_view_eq w w' :
  loop_view w' = loop_view w ->
  isComponentAliveRef w' = isComponentAliveRef w
  /\ gpuPropagatorRef w' = gpuPropagatorRef w
  /\ inflightRef w' = inflightRef w /\ propagating w' = propagating w
  /\ animationFrames w' = animationFrames w
  /\ propagate_calls w' = propagate_calls w.
Proof. unfold loop_view. intros [= H1 H2 H3 H4 H5 H6 H7 H8 H9]. auto 10. Qed.

Lemma boot_resumed_shutdown_view TLEs r constSetId w :
  shutdown_view (boot_resumed TLEs r constSetId w) = shutdown_view w
  /\ propagate_calls (boot_resumed TLEs r constSetId w) = propagate_calls w
  /\ (is_Some (gpuPropagatorRef w) ->
      is_Some (gpuPropagatorRef (boot_resumed TLEs r constSetId w))).
Proof.
  unfold boot_resumed.
  split_handler; unfold shutdown_view, log; same_view; auto.
Qed.

Lemma propagateLoop_shutdown_view w :
  shutdown_view (propagateLoop w) = shutdown_view w
  /\ gpuPropagatorRef (propagateLoop w) = gpuPropagatorRef w.
Proof.
  unfold propagateLoop. split_handler; unfold shutdown_view, log; same_view; auto.
Qed.

Lemma propagateLoop_settled_shutdown_view r w :
  shutdown_view (propagateLoop_settled r w) = shutdown_view w
  /\ gpuPropagatorRef (propagateLoop_settled r w) = gpuPropagatorRef w
  /\ propagate_calls (propagateLoop_settled r w) = propagate_calls w.
Proof.
  unfold propagateLoop_settled.
  split_handler; unfold shutdown_view, log; same_view; auto.
Qed.

(** An event other than the cleanup or a retry leaves the flag, the
    release calls and the retries alone. *)
Lemma step_shutdown_view e w w' :
  step e w = Some w' -> is_cleanup e = false ->
  (forall throws, e <> TimeoutFired throws) ->
  shutdown_view w' = shutdown_view w.
Proof.
  intros Hs Hc Ht. destruct e; cbn in Hs; try discriminate Hc.
  - injection Hs as <-. unfold viewer_init. destruct (cesiumViewer w); reflexivity.
  - injection Hs as <-. unfold boot. split_handler; reflexivity.
  - destruct (booting w); [discriminate|]. injection Hs as <-.
    match goal with |- context [boot_resumed ?a ?b ?c ?d] =>
      destruct (boot_resumed_shutdown_view a b c d) as [-> _] end.
    reflexivity.
  - destruct (animationFrames w); [discriminate|]. injection Hs as <-.
    match goal with |- context [propagateLoop ?u] =>
      destruct (propagateLoop_shutdown_view u) as [-> _] end.
    reflexivity.
  - destruct (propagating w); [discriminate|]. injection Hs as <-.
    match goal with |- context [propagateLoop_settled ?a ?u] =>
      destruct (propagateLoop_settled_shutdown_view a u) as [-> _] end.
    reflexivity.
  - destruct (cesiumViewer w); [|discriminate]. injection Hs as <-. reflexivity.
  - injection Hs as <-. apply loop_view_shutdown_view, preRender_loop_view.
  - exfalso. eapply Ht. reflexivity.
Qed.

Lemma step_keeps_propagator e w w' :
  step e w = Some w' -> is_Some (gpuPropagatorRef w) -> is_Some (gpuPropagatorRef w').
Proof.
  intros Hs Hp. destruct e; cbn in Hs.
  - injection Hs as <-. unfold viewer_init. destruct (cesiumViewer w); exact Hp.
  - injection Hs as <-. unfold boot. split_handler; exact Hp.
  - destruct (booting w); [discriminate|]. injection Hs as <-.
    match goal with |- context [boot_resumed ?a ?b ?c ?d] =>
      destruct (boot_resumed_shutdown_view a b c d) as (_ & _ & H) end.
    apply H. exact Hp.
  - destruct (animationFrames w); [discriminate|]. injection Hs as <-.
    match goal with |- context [propagateLoop ?u] =>
      destruct (propagateLoop_shutdown_view u) as [_ ->] end.
    exact Hp.
  - destruct (propagating w); [discriminate|]. injection Hs as <-.
    match goal with |- context [propagateLoop_settled ?a ?u] =>
      destruct (propagateLoop_settled_shutdown_view a u) as (_ & -> & _) end.
    exact Hp.
  - destruct (cesiumViewer w); [|discriminate]. injection Hs as <-. exact Hp.
  - injection Hs as <-.
    destruct (loop_view_eq _ _ (preRender_loop_view (preRender w) w))
      as (_ & Hg & _). rewrite Hg. exact Hp.
  - injection Hs as <-. unfold cleanup, tryUnregister. split_handler; cbn; auto.
  - destruct (timeouts w); [discriminate|]. injection Hs as <-.
    unfold tryUnregister. split_handler; cbn; auto.
Qed.

(** Once the flag is down it stays down, and no backend call begins. *)
Lemma step_after_shutdown e w w' :
  isComponentAliveRef w = false -> step e w = Some w' ->
  isComponentAliveRef w' = false /\ propagate_calls w' = propagate_calls w.
Proof.
  intros Ha Hs. destruct e; cbn in Hs.
  - injection Hs as <-. unfold viewer_init. destruct (cesiumViewer w); auto.
  - injection Hs as <-. unfold boot. split_handler; auto.
  - destruct (booting w); [discriminate|]. injection Hs as <-.
    match goal with |- context [boot_resumed ?a ?b ?c ?d] =>
      destruct (boot_resumed_shutdown_view a b c d) as (Hv & Hc & _) end.
    apply shutdown_view_eq in Hv as (Hal & _ & _).
    split; [rewrite Hal; exact Ha | exact Hc].
  - destruct (animationFrames w); [discriminate|]. injection Hs as <-.
    unfold propagateLoop. cbn. rewrite Ha. cbn. auto.
  - destruct (propagating w); [discriminate|]. injection Hs as <-.
    match goal with |- context [propagateLoop_settled ?a ?u] =>
      destruct (propagateLoop_settled_shutdown_view a u) as (Hv & _ & Hc) end.
    apply shutdown_view_eq in Hv as (Hal & _ & _).
    split; [rewrite Hal; exact Ha | exact Hc].
  - destruct (cesiumViewer w); [|discriminate]. injection Hs as <-. auto.
  - injection Hs as <-.
    destruct (loop_view_eq _ _ (preRender_loop_view (preRender w) w))
      as (Hal & _ & _ & _ & _ & Hc).
    split; [rewrite Hal; exact Ha | exact Hc].
  - injection Hs as <-. unfold cleanup, tryUnregister.
    split_handler; unfold log; same_view; auto.
  - destruct (timeouts w); [discriminate|]. injection Hs as <-.
    unfold tryUnregister. split_handler; unfold log; same_view; auto.
Qed.

Lemma run_after_shutdown evs : forall w w',
  isComponentAliveRef w = false -> run evs w = Some w' ->
  isComponentAliveRef w' = false /\ propagate_calls w' = propagate_calls w.
Proof.
  induction evs as [|e evs IH]; intros w w' Ha Hr; cbn in Hr.
  - injection Hr as <-. auto.
  - destruct (step e w) as [w1|] eqn:Hs; [|discriminate]. cbn in Hr.
    destruct (step_after_shutdown e w w1 Ha Hs) as [Ha1 <-]. now apply IH.
Qed.

(** What [tryUnregister] does, by the counter. *)
Lemma tryUnregister_busy throws w :
  inflightRef w <> 0 -> tryUnregister throws w = w <| timeouts := timeouts w ++ [10] |>.
Proof.
  intros H. unfold tryUnregister.
  destruct (Z.eqb_spec (inflightRef w) 0); [contradiction | reflexivity].
Qed.

Lemma tryUnregister_idle throws w p :
  inflightRef w = 0 -> gpuPropagatorRef w = Some p ->
  tryUnregister throws w
  = w <| trace := trace w ++ unregister_const_set (registeredConstSetIdRef w)
                   :: (if throws then [console_error "unregister_const_set error"] else []) |>
      <| registeredConstSetIdRef := None |>.
Proof.
  intros H Hp. unfold tryUnregister, log. rewrite H, Hp. cbn.
  destruct throws; cbn; [|reflexivity].
  now rewrite <- app_assoc.
Qed.

Lemma release_calls_tryUnregister throws w :
  (inflightRef w <> 0 /\ release_calls (tryUnregister throws w) = release_calls w
   /\ timeouts (tryUnregister throws w) = timeouts w ++ [10])
  \/ (inflightRef w = 0 /\ timeouts (tryUnregister throws w) = timeouts w
      /\ (length (release_calls (tryUnregister throws w)) <= S (length (release_calls w)))%nat
      /\ (is_Some (gpuPropagatorRef w) ->
          release_calls (tryUnregister throws w)
          = release_calls w ++ [unregister_const_set (registeredConstSetIdRef w)])).
Proof.
  destruct (Z.eqb_spec (inflightRef w) 0) as [H0|Hn].
  - right. split; [exact H0|]. unfold tryUnregister. rewrite (proj2 (Z.eqb_eq _ _) H0).
    split_handler; unfold log; same_view; repeat split; auto;
      try (intros [? [=]]); rewrite ?length_app; cbn; lia.
  - left. rewrite tryUnregister_busy by assumption. cbn. auto.
Qed.

(** Without a cleanup and with no retry pending, the flag, the release
    calls and the retries stay as they are. *)
Lemma run_no_retry evs : forall w w',
  timeouts w = [] -> no_cleanup evs = true ->
  run evs w = Some w' -> shutdown_view w' = shutdown_view w.
Proof.
  induction evs as [|e evs IH]; intros w w' Ht Hnc Hr; cbn in Hr.
  - now injection Hr as <-.
  - cbn in Hnc. apply andb_true_iff in Hnc as [He Hnc].
    apply negb_true_iff in He.
    destruct (step e w) as [w1|] eqn:Hs; [|discriminate]. cbn in Hr.
    assert (Hv : shutdown_view w1 = shutdown_view w).
    { eapply step_shutdown_view; eauto.
      intros throws ->. cbn in Hs. rewrite Ht in Hs. discriminate. }
    rewrite <- Hv. eapply IH; [|exact Hnc|exact Hr].
    apply shutdown_view_eq in Hv as (_ & _ & ->). exact Ht.
Qed.

Lemma classic_timeout (e : Event) :
  (exists throws, e = TimeoutFired throws) \/ (forall throws, e <> TimeoutFired throws).
Proof. destruct e; try (right; intros ? [=]; fail). left. eauto. Qed.

(** After the cleanup: releases and pending retries together are at most
    one, and exactly one as long as a propagator exists. *)
Definition release_budget (w : World) : Prop :=
  (length (release_calls w) + length (timeouts w) <= 1)%nat
  /\ (is_Some (gpuPropagatorRef w) ->
      (length (release_calls w) + length (timeouts w) = 1)%nat).

Lemma step_release_budget e w w' :
  is_Some (gpuPropagatorRef w) -> release_budget w ->
  is_cleanup e = false -> step e w = Some w' -> release_budget w'.
Proof.
  intros Hp [Hle Heq] Hc Hs. specialize (Heq Hp).
  destruct (classic_timeout e) as [[throws ->] | Hnt].
  - cbn in Hs. destruct (timeouts w) as [|d rest] eqn:Ht; [discriminate|].
    injection Hs as <-. cbn in Heq.
    assert (rest = []) by (destruct rest; [reflexivity | cbn in Heq; lia]). subst rest.
    assert (Hrel : length (release_calls w) = 0%nat) by lia.
    set (u := w <| timeouts := [] |>).
    assert (Hur : release_calls u = release_calls w) by reflexivity.
    assert (Hup : is_Some (gpuPropagatorRef u)) by exact Hp.
    destruct (release_calls_tryUnregister throws u) as [(_ & H1 & H2) | (_ & H2 & _ & H3)].
    + unfold release_budget. rewrite H1, H2, Hur. cbn. split; [lia | intros _; lia].
    + unfold release_budget. rewrite (H3 Hup), H2, Hur, length_app. cbn.
      split; [lia | intros _; lia].
  - destruct (shutdown_view_eq _ _ (step_shutdown_view e w w' Hs Hc Hnt))
      as (_ & Hr & Ht).
    unfold release_budget. rewrite Hr, Ht. split; [exact Hle | intros _; exact Heq].
Qed.

Lemma run_release_budget evs : forall w w',
  is_Some (gpuPropagatorRef w) -> release_budget w -> no_cleanup evs = true ->
  run evs w = Some w' -> release_budget w' /\ is_Some (gpuPropagatorRef w').
Proof.
  induction evs as [|e evs IH]; intros w w' Hp Hb Hnc Hr; cbn in Hr.
  - injection Hr as <-. auto.
  - cbn in Hnc. apply andb_true_iff in Hnc as [He Hnc].
    apply negb_true_iff in He.
    destruct (step e w) as [w1|] eqn:Hs; [|discriminate]. cbn in Hr.
    eapply IH; [| |exact Hnc|exact Hr].
    + eapply step_keeps_propagator; eauto.
    + eapply step_release_budget; eauto.
Qed.

(** A pending retry releases as soon as the outstanding call, if any, has
    settled. *)
Lemma release_budget_progress w :
  is_Some (gpuPropagatorRef w) -> release_budget w -> inflight_ok w ->
  exists evs w',
    no_cleanup evs = true /\ run evs w = Some w'
    /\ length (release_calls w') = 1%nat /\ timeouts w' = [].
Proof.
  intros Hp [_ Hb] [H01 Hin]. specialize (Hb Hp).
  destruct (timeouts w) as [|d rest] eqn:Ht.
  - exists [], w. cbn in Hb. rewrite Ht. cbn. repeat split; lia.
  - cbn in Hb.
    assert (rest = []) by (destruct rest; [reflexivity | cbn in Hb; lia]). subst rest.
    assert (Hrel : release_calls w = []) by (destruct (release_calls w); [reflexivity | cbn in Hb; lia]).
    destruct Hp as [p Hp].
    destruct (propagating w) as [|n] eqn:Hn.
    + exists [TimeoutFired false]. eexists. split; [reflexivity|].
      split; [cbn; rewrite Ht; cbn; reflexivity|].
      rewrite (tryUnregister_idle _ _ p) by (cbn; first [lia | exact Hp]).
      unfold release_calls in *. cbn. rewrite List.filter_app, Hrel. cbn. auto.
    + exists [PropagateSettled rejected; TimeoutFired false]. eexists.
      split; [reflexivity|].
      split; [cbn; rewrite Hn; cbn; rewrite Ht; cbn; reflexivity|].
      assert (n = 0%nat) by lia. subst n.
      rewrite (tryUnregister_idle _ _ p) by (cbn; first [lia | exact Hp]).
      unfold release_calls in *. cbn.
      rewrite !List.filter_app, Hrel. cbn. auto.
Qed.

(** X16. After the cleanup has set the liveness flag to false no backend
    call begins any more. When React calls the cleanup once in the life of
    the component and a set is registered, [unregister_const_set] is called
    exactly once: at every later moment either it has been called once and
    no retry is pending, or it has not been called and one retry is
    pending, and the pending retry can always come to the call. The call is
    made only in an event that finds the in-flight counter at 0; an attempt
    that finds it non-zero sets a 10 ms timer for the next attempt
    instead. *)
Theorem shutdown_releases_once :
  (forall throws w, isComponentAliveRef (cleanup throws w) = false)
  /\ (forall w evs w',
        isComponentAliveRef w = false -> run evs w = Some w' ->
        isComponentAliveRef w' = false /\ propagate_calls w' = propagate_calls w)
  /\ (forall evs1 w1 throws evs2 w2,
        run evs1 mounted = Some w1 -> no_cleanup evs1 = true ->
        run (Cleanup throws :: evs2) w1 = Some w2 -> no_cleanup evs2 = true ->
        (length (release_calls w2) <= 1)%nat
        /\ (is_Some (gpuPropagatorRef w1) -> is_Some (registeredConstSetIdRef w1) ->
            (length (release_calls w2) + length (timeouts w2) = 1)%nat
            /\ exists evs3 w3,
                no_cleanup evs3 = true /\ run evs3 w2 = Some w3
                /\ length (release_calls w3) = 1%nat /\ timeouts w3 = []))
  /\ (forall e w w',
        step e w = Some w' -> release_calls w' <> release_calls w -> inflightRef w = 0)
  /\ (forall throws w,
        inflightRef w <> 0 ->
        tryUnregister throws w = w <| timeouts := timeouts w ++ [10] |>).
Proof.
  split; [|split; [|split; [|split]]].
  - intros throws w. unfold cleanup, tryUnregister. split_handler; reflexivity.
  - intros w evs w'. apply run_after_shutdown.
  - intros evs1 w1 throws evs2 w2 Hr1 Hn1 Hr2 Hn2.
    destruct (shutdown_view_eq _ _ (run_no_retry evs1 mounted w1 eq_refl Hn1 Hr1))
      as (Hal & Hrel & Hto).
    cbn in Hal, Hrel, Hto.
    pose proof (run_inflight_ok evs1 _ _ mounted_inflight_ok Hr1) as Hok.
    cbn in Hr2. set (u := cleanup throws w1) in *.
    destruct (gpuPropagatorRef w1) as [p|] eqn:Hp;
      [destruct (registeredConstSetIdRef w1) as [id|] eqn:Hid|].
    + assert (Hu : is_Some (gpuPropagatorRef u) /\ release_budget u /\ inflight_ok u).
      { subst u. unfold cleanup. cbn. rewrite Hp, Hid.
        set (v := w1 <| isComponentAliveRef := false |>).
        destruct (tryUnregister_inflight throws v) as [Hi1 Hi2].
        split; [|split].
        - unfold tryUnregister. split_handler; cbn; rewrite Hp; eauto.
        - unfold release_budget.
          destruct (release_calls_tryUnregister throws v) as [(_ & H1 & H2) | (_ & H2 & _ & H3)].
          + rewrite H1, H2. change (release_calls v) with (release_calls w1).
            change (timeouts v) with (timeouts w1). rewrite Hrel, Hto. cbn. auto.
          + rewrite H3, H2 by (cbn; rewrite Hp; eauto).
            change (release_calls v) with (release_calls w1).
            change (timeouts v) with (timeouts w1). rewrite Hrel, Hto. cbn. auto.
        - unfold inflight_ok. rewrite Hi1, Hi2. exact Hok. }
      destruct Hu as (Hup & Hub & Huo).
      destruct (run_release_budget evs2 u w2 Hup Hub Hn2 Hr2) as [[Hle Heq] Hp2].
      split; [lia|]. intros _ _. split; [auto|].
      apply release_budget_progress; [exact Hp2 | split; auto |].
      eapply run_inflight_ok; eauto.
    + assert (Hu : shutdown_view u = (false, [], [])).
      { subst u. unfold cleanup. cbn. rewrite Hp, Hid.
        unfold shutdown_view. repeat f_equal; first [exact Hrel | exact Hto]. }
      assert (Hv2 : shutdown_view w2 = (false, [], [])).
      { rewrite <- Hu. apply (run_no_retry evs2); auto.
        unfold shutdown_view in Hu. congruence. }
      unfold shutdown_view in Hv2. injection Hv2 as _ Hr Ht. rewrite Hr. cbn.
      split; [lia|]. intros _ [? [=]].
    + assert (Hu : shutdown_view u = (false, [], [])).
      { subst u. unfold cleanup. cbn. rewrite Hp.
        unfold shutdown_view. repeat f_equal; first [exact Hrel | exact Hto]. }
      assert (Hv2 : shutdown_view w2 = (false, [], [])).
      { rewrite <- Hu. apply (run_no_retry evs2); auto.
        unfold shutdown_view in Hu. congruence. }
      unfold shutdown_view in Hv2. injection Hv2 as _ Hr Ht. rewrite Hr. cbn.
      split; [lia|]. intros [? [=]].
  - intros e w w' Hs Hne.
    destruct (Z.eq_dec (inflightRef w) 0) as [|Hn]; [assumption|]. exfalso. apply Hne.
    destruct (is_cleanup e) eqn:Hc.
    + destruct e; try discriminate Hc. cbn in Hs. injection Hs as <-.
      unfold cleanup. split_handler; try reflexivity.
      rewrite tryUnregister_busy by exact Hn. reflexivity.
    + destruct (classic_timeout e) as [[t ->]|Hnt].
      * cbn in Hs. destruct (timeouts w); [discriminate|]. injection Hs as <-.
        rewrite tryUnregister_busy by exact Hn. reflexivity.
      * exact (proj1 (proj2 (shutdown_view_eq _ _ (step_shutdown_view e w w' Hs Hc Hnt)))).
  - apply tryUnregister_busy.
Qed.

(** C9. A cleanup that finds no registered set (no handle, or no
    propagator) only sets the liveness flag: no release call, no retry.
    When [unregister_const_set] throws, the failure is written to the
    console and goes no further, the stored handle is cleared all the same,
    and no retry is set; with no retry pending no later event makes a
    release call, and a later cleanup that finds the handle cleared makes
    none either. *)
Theorem shutdown_without_handle_or_failed_release :
  (forall throws w,
      gpuPropagatorRef w = None \/ registeredConstSetIdRef w = None ->
      cleanup throws w = w <| isComponentAliveRef := false |>)
  /\ (forall w p constSetId,
        gpuPropagatorRef w = Some p -> registeredConstSetIdRef w = Some constSetId ->
        inflightRef w = 0 ->
        let released :=
          w <| trace := trace w ++ [unregister_const_set (Some constSetId);
                                    console_error "unregister_const_set error"] |>
            <| registeredConstSetIdRef := None |> in
        tryUnregister true w = released
        /\ cleanup true w = released <| isComponentAliveRef := false |>
        /\ timeouts (tryUnregister true w) = timeouts w
        /\ registeredConstSetIdRef (tryUnregister true w) = None)
  /\ (forall w evs w',
        timeouts w = [] -> no_cleanup evs = true -> run evs w = Some w' ->
        release_calls w' = release_calls w /\ timeouts w' = [])
  /\ (forall throws w,
        registeredConstSetIdRef w = None ->
        release_calls (cleanup throws w) = release_calls w
        /\ timeouts (cleanup throws w) = timeouts w).
Proof.
  split; [|split; [|split]].
  - intros throws w [H|H]; unfold cleanup; cbn; rewrite H;
      [|destruct (gpuPropagatorRef w)]; reflexivity.
  - intros w p constSetId Hp Hid H0 released.
    assert (E : tryUnregister true w = released).
    { rewrite (tryUnregister_idle _ _ p) by assumption. now rewrite Hid. }
    split; [exact E|]. split.
    + unfold cleanup. cbn. rewrite Hp, Hid.
      rewrite (tryUnregister_idle _ _ p) by assumption. cbn. now rewrite Hid.
    + rewrite E. split; reflexivity.
  - intros w evs w' Ht Hn Hr.
    destruct (shutdown_view_eq _ _ (run_no_retry evs w w' Ht Hn Hr)) as (_ & H1 & H2).
    split; congruence.
  - intros throws w H. unfold cleanup. cbn. rewrite H.
    destruct (gpuPropagatorRef w); split; reflexivity.
Qed.

(** ** C6: the target buffer after a successful call *)

Lemma copy_loop_six (flat : list float) (N : nat) :
  length flat = (6 * N)%nat ->
  forall fuel i tgt,
    length tgt = N -> (i <= N)%nat -> (N - i < fuel)%nat ->
    exists tgt',
      copy_loop fuel i flat tgt = (tgt', false) /\ length tgt' = N
      /\ (forall j, (j < i)%nat -> tgt' !! j = tgt !! j)
      /\ (forall j, (i <= j < N)%nat -> tgt' !! j = Some (sample_meters 6 flat j)).
Proof.
  intros Hflat. induction fuel as [|fuel IH]; intros i tgt Hlen Hi Hfuel; [lia|].
  cbn [copy_loop]. rewrite Hflat.
  destruct (Nat.ltb_spec (6 * i) (6 * N)) as [Hlt|Hge].
  - destruct (lookup_lt_is_Some_2 tgt i ltac:(lia)) as [p0 Hp0]. rewrite Hp0.
    set (p := {| buf_x := _ |}).
    destruct (IH (S i) (<[i := p]> tgt)) as (tgt' & E & L & Hlo & Hhi);
      [rewrite length_insert; exact Hlen | lia | lia |].
    exists tgt'. split; [exact E|]. split; [exact L|]. split.
    + intros j Hj. rewrite Hlo by lia. apply list_lookup_insert_ne. lia.
    + intros j Hj. destruct (Nat.eq_dec j i) as [->|Hne].
      * rewrite Hlo by lia. rewrite list_lookup_insert_eq by lia. reflexivity.
      * apply Hhi. lia.
  - exists tgt. repeat split; auto. intros j Hj. lia.
Qed.

(** C6, as the code has it. When the call succeeds with six components for
    each of the [N] satellites of the target buffer, every entry [i] of the
    target buffer becomes the position of sample [i] times 1000, nothing is
    logged, the counter goes down by one and the next tick is in the
    queue. *)
Theorem target_updated_from_six_components (w : World) (flat : list float) (N n : nat) :
  length flat = (6 * N)%nat -> length (targetPositionsRef w) = N ->
  propagating w = S n ->
  exists w',
    step (PropagateSettled (fulfilled flat)) w = Some w'
    /\ length (targetPositionsRef w') = N
    /\ (forall i, (i < N)%nat ->
          targetPositionsRef w' !! i = Some (sample_meters 6 flat i))
    /\ trace w' = trace w
    /\ inflightRef w' = inflightRef w - 1
    /\ animationFrames w' = S (animationFrames w).
Proof.
  intros Hflat Hlen Hp.
  destruct (copy_loop_six flat N Hflat (S (length flat)) 0 (targetPositionsRef w)
              Hlen ltac:(lia) ltac:(lia)) as (tgt' & E & L & _ & Hhi).
  eexists. split; [cbn; rewrite Hp; reflexivity|].
  unfold propagateLoop_settled, copy_into_target.
  change (targetPositionsRef (w <| propagating := n |>)) with (targetPositionsRef w).
  rewrite E. cbn.
  repeat split; auto. intros i Hi. apply Hhi. lia.
Qed.

(** ** Registration of the batch *)

Lemma parse_tle_Some tle x :
  parse_tle tle = Some x ->
  snd x = tle /\ exists l1 l2, tle_at tle 1 = Some l1 /\ tle_at tle 2 = Some l2.
Proof.
  unfold parse_tle. intros H.
  destruct (tle_at tle 1) as [l1|]; [|discriminate].
  destruct (tle_at tle 2) as [l2|]; [|discriminate].
  destruct (WasmElements_from_tle _ _ _); [|discriminate].
  injection H as <-. eauto.
Qed.

Lemma parsed_are_the_derivable (TLEs : list TLE) :
  snd <$> omap parse_tle TLEs = List.filter derivable TLEs.
Proof.
  induction TLEs as [|tle TLEs IH]; [reflexivity|].
  cbn. unfold derivable. destruct (parse_tle tle) as [x|] eqn:E; [|exact IH].
  cbn. rewrite IH. f_equal. now apply parse_tle_Some in E as [-> _].
Qed.

(** The metadata [boot] writes for element [tle] at index [i]. *)
Definition is_entry (i : nat) (tle : TLE) (m : SatMetadata) : Prop :=
  idx m = Z.of_nat i /\ satName m = satName_of tle
  /\ exists l1 l2,
      tle_at tle 1 = Some l1 /\ tle_at tle 2 = Some l2
      /\ tleEpochToJulian (Js.substring 18 32 l1) = Some (TLEEpochJulian m)
      /\ noradID m = (if (8 <? String.length l2)%nat then Js.substring 2 7 l2
                      else "Unknown"%string).

(** What [parsed.forEach] has built when it returns. *)
Lemma forEach_parsed_normal (parsed : list (WasmElements * TLE)) : forall a a',
  forEach_parsed parsed a = normal a' ->
  next_idx a = Z.of_nat (length (metadata a)) ->
  length (preAllocated a) = length (metadata a) ->
  length (curr a) = length (metadata a) ->
  length (next a) = length (metadata a) ->
  length (points a) = length (metadata a) ->
  length (metadata a') = (length (metadata a) + length parsed)%nat
  /\ length (preAllocated a') = length (metadata a')
  /\ length (curr a') = length (metadata a')
  /\ length (next a') = length (metadata a')
  /\ length (points a') = length (metadata a')
  /\ (forall j, (j < length (metadata a))%nat -> metadata a' !! j = metadata a !! j)
  /\ (forall k x, parsed !! k = Some x ->
        exists m, metadata a' !! (length (metadata a) + k)%nat = Some m
                  /\ is_entry (length (metadata a) + k) (snd x) m).
Proof.
  induction parsed as [|[e tle] parsed IH]; intros a a' E Hidx H1 H2 H3 H4.
  - cbn in E. injection E as <-. cbn. repeat split; auto; try lia. intros k x [=].
  - cbn [forEach_parsed] in E. unfold add_satellite in E.
    destruct (tle_at tle 1) as [l1|] eqn:Hl1; [|discriminate].
    destruct (tle_at tle 2) as [l2|] eqn:Hl2; [|discriminate].
    destruct (tleEpochToJulian (Js.substring 18 32 l1)) as [jd|] eqn:Hjd; [|discriminate].
    set (m0 := {| satName := satName_of tle; TLEEpochJulian := jd |}) in E.
    set (a1 := {| metadata := metadata a ++ [m0] |}) in E.
    assert (La1 : length (metadata a1) = S (length (metadata a)))
      by (subst a1; cbn; rewrite length_app; cbn; lia).
    destruct (IH a1 a' E) as (L & L1 & L2 & L3 & L4 & Hold & Hnew).
    { subst a1. cbn. rewrite length_app. cbn. lia. }
    1-4: subst a1; cbn; rewrite !length_app; cbn; lia.
    rewrite La1 in *.
    split; [cbn; lia|]. repeat (split; [assumption|]). split.
    + intros j Hj. rewrite Hold by lia. subst a1. cbn. apply lookup_app_l. exact Hj.
    + intros k x Hk. destruct k as [|k].
      * cbn in Hk. injection Hk as <-. rewrite Nat.add_0_r.
        exists m0. split.
        -- rewrite Hold by lia. subst a1. cbn.
           rewrite lookup_app_r by lia. now rewrite Nat.sub_diag.
        -- unfold is_entry. subst m0. cbn. repeat split; auto.
           exists l1, l2. auto.
      * cbn in Hk. destruct (Hnew k x Hk) as (m & Hm1 & Hm2).
        replace (length (metadata a) + S k)%nat with (S (length (metadata a)) + k)%nat by lia.
        eauto.
Qed.

(** [parsed.forEach] returns when the lines are strings and every epoch is
    a date, and throws the error of [JulianDate.fromDate] when an epoch is
    not. *)
Definition epoch_readable (tle : TLE) : Prop :=
  forall l1, tle_at tle 1 = Some l1 -> is_Some (tleEpochToJulian (Js.substring 18 32 l1)).

Lemma forEach_parsed_returns (parsed : list (WasmElements * TLE)) : forall a,
  (forall x, In x parsed -> is_Some (parse_tle (snd x)) /\ epoch_readable (snd x)) ->
  exists a', forEach_parsed parsed a = normal a'.
Proof.
  induction parsed as [|[e tle] parsed IH]; intros a Hall; [eexists; reflexivity|].
  cbn [forEach_parsed].
  destruct (Hall (e, tle) (or_introl eq_refl)) as [[y Hy] Hr]. cbn [snd] in *.
  destruct (parse_tle_Some _ _ Hy) as (_ & l1 & l2 & Hl1 & Hl2).
  unfold add_satellite. rewrite Hl1, Hl2.
  destruct (Hr l1 Hl1) as [jd ->].
  apply IH. intros x Hx. apply Hall. now right.
Qed.


(** The callback of [TLEs.map] gives the elements of the accepted raw
    elements. *)
Lemma satName_of_display (name : option string) (rest : TLE) :
  satName_of (name :: rest) = BatchSpec.display_name name.
Proof.
  unfold satName_of, tle_at. cbn [lookup list_lookup mjoin option_join].
  destruct name as [[|c1 [|c2 [|c3 s]]]|]; try reflexivity.
  unfold Js.substring_from. cbn. f_equal. apply substring_whole.
Qed.

Lemma parse_tle_accepted (tle : TLE) :
  parse_tle tle = (fun elements => (elements, tle)) <$> BatchSpec.parsed_elements tle.
Proof.
  unfold parse_tle, BatchSpec.parsed_elements.
  destruct tle as [|name [|[l1|] [|[l2|] rest]]]; try reflexivity.
  rewrite satName_of_display.
  change (tle_at (name :: Some l1 :: Some l2 :: rest) 1) with (Some l1).
  change (tle_at (name :: Some l1 :: Some l2 :: rest) 2) with (Some l2).
  cbv beta iota.
  destruct (WasmElements_from_tle _ _ _); reflexivity.
Qed.

Lemma derivable_accepted (tle : TLE) : derivable tle = BatchSpec.accepted tle.
Proof.
  unfold derivable, BatchSpec.accepted. rewrite parse_tle_accepted.
  destruct (BatchSpec.parsed_elements tle); reflexivity.
Qed.

Lemma mapM_compose {A B C : Type} (f : A -> option B) (g : B -> option C) (l : list A)
    (r : list C) :
  mapM (fun x => f x ≫= g) l = Some r ->
  exists m, mapM f l = Some m /\ mapM g m = Some r.
Proof.
  revert r. induction l as [|x l IH]; intros r H.
  - cbn in H. injection H as <-. exists []. split; reflexivity.
  - cbn in H. destruct (f x) as [y|] eqn:Ef; [|discriminate]. cbn in H.
    destruct (g y) as [z|] eqn:Eg; [|discriminate]. cbn in H.
    destruct (mapM (fun x => f x ≫= g) l) as [r'|] eqn:Er; [|discriminate].
    cbn in H. injection H as <-.
    destruct (IH r' eq_refl) as (m & Hm & Hg).
    exists (y :: m). cbn. rewrite Ef, Hm. cbn. rewrite Eg, Hg. split; reflexivity.
Qed.

Lemma mapM_parsed {B : Type} (h : WasmElements -> option B) (TLEs : list TLE) :
  mapM (fun x => h (fst x)) (omap parse_tle TLEs)
  = mapM (fun tle => BatchSpec.parsed_elements tle ≫= h)
         (List.filter BatchSpec.accepted TLEs).
Proof.
  induction TLEs as [|tle TLEs IH]; [reflexivity|].
  cbn [omap list_omap List.filter]. unfold BatchSpec.accepted at 1.
  rewrite parse_tle_accepted.
  destruct (BatchSpec.parsed_elements tle) as [e|] eqn:E; cbn; [|exact IH].
  rewrite E. cbn. now rewrite IH.
Qed.

Lemma boot_constants (TLEs : list TLE) (gpuConsts : list WasmGpuConsts) :
  mapM BatchSpec.gpu_consts_of (List.filter BatchSpec.accepted TLEs) = Some gpuConsts ->
  exists constants,
    mapM (fun x => WasmConstants_from_elements (fst x)) (omap parse_tle TLEs)
    = Some constants
    /\ mapM WasmGpuConsts_from_constants constants = Some gpuConsts.
Proof.
  intros H. rewrite (mapM_parsed WasmConstants_from_elements).
  apply (mapM_compose BatchSpec.constants_of WasmGpuConsts_from_constants). exact H.
Qed.

(** X13. When the constants of the accepted elements can be derived and
    their epochs are dates, [boot] completes with them whatever the other
    elements are: the metadata has one entry for each accepted element, in
    their order, the entry of the element at position [i] among them has
    index [i], and [register_const_set] is called once, with the constants
    of all of them. *)
Theorem registration_when_boot_completes
    (TLEs : list TLE) (p : GpuPropagator) (constSetId : Z) (w : World) (viewer : Viewer)
    (gpuConsts : list WasmGpuConsts) :
  cesiumViewer w = Some viewer ->
  let kept := List.filter BatchSpec.accepted TLEs in
  mapM BatchSpec.gpu_consts_of kept = Some gpuConsts ->
  (forall tle, In tle kept -> epoch_readable tle) ->
  let w' := boot_resumed TLEs (init_ok p) constSetId w in
  exists md,
    pointsMetadataRef w' = Some md
    /\ length md = length kept
    /\ (forall i tle, kept !! i = Some tle ->
          exists m, md !! i = Some m /\ is_entry i tle m)
    /\ trace w' = trace w ++ [register_const_set gpuConsts constSetId]
    /\ length gpuConsts = length kept
    /\ registeredConstSetIdRef w' = Some constSetId
    /\ length (targetPositionsRef w') = length kept
    /\ length (currentPositionsRef w') = length kept
    /\ isLoadedRef w' = true.
Proof.
  intros Hv kept Hc Hread w'.
  pose proof (parsed_are_the_derivable TLEs) as Hsnd.
  assert (Hk : List.filter derivable TLEs = kept).
  { subst kept. apply List.filter_ext. apply derivable_accepted. }
  rewrite Hk in Hsnd.
  assert (Hlen : length (omap parse_tle TLEs) = length kept)
    by (rewrite <- Hsnd; now rewrite length_fmap).
  assert (Hlc : length gpuConsts = length kept).
  { symmetry. eapply length_mapM. exact Hc. }
  destruct (boot_constants TLEs gpuConsts Hc) as (constants & Hc1 & Hc2).
  destruct (forEach_parsed_returns (omap parse_tle TLEs) no_arrays) as [a E].
  { intros x Hx. apply list_elem_of_In, list_elem_of_lookup in Hx as [k Hx].
    assert (Hs : (snd <$> omap parse_tle TLEs) !! k = Some (snd x))
      by (rewrite list_lookup_fmap, Hx; reflexivity).
    rewrite Hsnd in Hs. apply list_elem_of_lookup_2, list_elem_of_In in Hs.
    split; [|now apply Hread].
    rewrite <- Hk in Hs. apply List.filter_In in Hs as [_ Hd]. unfold derivable in Hd.
    destruct (parse_tle (snd x)); [eauto | discriminate]. }
  destruct (forEach_parsed_normal _ _ _ E) as (L & L1 & L2 & L3 & L4 & _ & Hnew);
    try reflexivity.
  cbn in L.
  exists (metadata a).
  subst w'. unfold boot_resumed. cbn. rewrite Hv, Hc1, Hc2, E. cbn.
  split; [reflexivity|]. split; [lia|]. split.
  - intros i tle Hi. rewrite <- Hsnd, list_lookup_fmap in Hi.
    destruct (omap parse_tle TLEs !! i) as [x|] eqn:Hx; [|discriminate].
    cbn in Hi. injection Hi as <-.
    destruct (Hnew i x Hx) as (m & Hm & He). cbn in Hm, He. eauto.
  - split; [reflexivity|]. split; [exact Hlc|]. repeat split; lia.
Qed.

(** ** The render step *)

Lemma move_points_render_view fuel : forall i w,
  render_view (move_points fuel i w) = render_view w.
Proof.
  induction fuel as [|fuel IH]; intros i w; [reflexivity|].
  cbn [move_points]. split_handler; rewrite ?IH; unfold render_view, log; same_view.
Qed.

Definition present {A} (o : option A) : bool :=
  match o with Some _ => true | None => false end.

(** What a listener of [preRender] relies on: the bounds of the clock, the
    listeners and whether the refs [animate] tests are set. *)
Definition render_static (w : World) :=
  ((fun v => (startTime v, stopTime v)) <$> cesiumViewer w, preRender w,
   present (pointsMetadataRef w), present (pointsCollectionPrimitivesRef w),
   present (pointsCollectionRef w)).

(** Every listener finds the refs set and carries the span of the clock
    as its [timeLimit]. *)
Definition render_ready (w : World) : Prop :=
  forall timeLimit, In timeLimit (preRender w) ->
    present (pointsMetadataRef w) = true
    /\ present (pointsCollectionPrimitivesRef w) = true
    /\ present (pointsCollectionRef w) = true
    /\ exists viewer,
        cesiumViewer w = Some viewer
        /\ timeLimit = JulianDate_compare (stopTime viewer) (startTime viewer).

Lemma render_ready_static w w' :
  render_static w' = render_static w -> render_ready w -> render_ready w'.
Proof.
  unfold render_static, render_ready. intros [= Hb Hl H1 H2 H3] Hr tl Hin.
  rewrite Hl in Hin. destruct (Hr tl Hin) as (R1 & R2 & R3 & v & Hv & Ht).
  rewrite H1, H2, H3. repeat split; auto.
  rewrite Hv in Hb. destruct (cesiumViewer w') as [v'|]; [|discriminate].
  cbn in Hb. injection Hb as Hs He. exists v'. split; [reflexivity|]. congruence.
Qed.

Lemma move_points_render_static fuel : forall i w,
  render_static (move_points fuel i w) = render_static w.
Proof.
  induction fuel as [|fuel IH]; intros i w; [reflexivity|].
  cbn [move_points]. split_handler; rewrite ?IH; unfold render_static; cbn;
    repeat match goal with H : _ = Some _ |- _ => rewrite H end; reflexivity.
Qed.

Lemma animate_render_static timeLimit w :
  render_static (animate timeLimit w) = render_static w.
Proof.
  unfold animate, update_transform.
  split_handler; rewrite ?move_points_render_static; unfold render_static; cbn;
    repeat match goal with H : _ = Some _ |- _ => rewrite H end; reflexivity.
Qed.

Lemma step_render_ready e w w' : render_ready w -> step e w = Some w' -> render_ready w'.
Proof.
  intros Hr Hs. destruct e; cbn in Hs.
  - injection Hs as <-. unfold viewer_init.
    destruct (cesiumViewer w) eqn:Hv; [exact Hr|].
    intros tl Hin. cbn in Hin. destruct (Hr tl Hin) as (_ & _ & _ & v & Hv' & _).
    congruence.
  - injection Hs as <-. eapply render_ready_static; [|exact Hr].
    unfold boot. split_handler; reflexivity.
  - destruct (booting w) as [|TLEs rest]; [discriminate|]. injection Hs as <-.
    unfold boot_resumed.
    destruct r; [eapply render_ready_static; [|exact Hr]; reflexivity|].
    cbn. destruct (cesiumViewer w) as [v|] eqn:Hv;
      [|eapply render_ready_static; [|exact Hr]; unfold render_static; cbn; now rewrite Hv].
    destruct (mapM _ _);
      [|eapply render_ready_static; [|exact Hr]; unfold render_static; cbn; now rewrite Hv].
    destruct (mapM _ _);
      [|eapply render_ready_static; [|exact Hr]; unfold render_static; cbn; now rewrite Hv].
    destruct (forEach_parsed _ _);
      [|eapply render_ready_static; [|exact Hr]; unfold render_static; cbn; now rewrite Hv].
    intros tl Hin. cbn in Hin |- *. rewrite Hv.
    repeat split; auto. exists v. split; [reflexivity|].
    apply in_app_or in Hin as [Hin | [<- | []]]; [|reflexivity].
    destruct (Hr tl Hin) as (_ & _ & _ & v' & Hv' & ->). congruence.
  - destruct (animationFrames w); [discriminate|]. injection Hs as <-.
    eapply render_ready_static; [|exact Hr].
    unfold propagateLoop. split_handler; reflexivity.
  - destruct (propagating w); [discriminate|]. injection Hs as <-.
    eapply render_ready_static; [|exact Hr].
    unfold propagateLoop_settled. split_handler; reflexivity.
  - destruct (cesiumViewer w) eqn:Hv; [|discriminate]. injection Hs as <-.
    eapply render_ready_static; [|exact Hr]. unfold render_static. cbn. now rewrite Hv.
  - injection Hs as <-. eapply render_ready_static; [|exact Hr].
    generalize (preRender w) at 1. intros ls. revert w Hr.
    induction ls as [|tl ls IH]; intros w Hr; [reflexivity|].
    cbn [fold_left]. rewrite IH.
    + apply animate_render_static.
    + eapply render_ready_static; [apply animate_render_static | exact Hr].
  - injection Hs as <-. eapply render_ready_static; [|exact Hr].
    unfold cleanup, tryUnregister. split_handler; reflexivity.
  - destruct (timeouts w); [discriminate|]. injection Hs as <-.
    eapply render_ready_static; [|exact Hr].
    unfold tryUnregister. split_handler; reflexivity.
Qed.

Lemma run_render_ready evs : forall w w',
  render_ready w -> run evs w = Some w' -> render_ready w'.
Proof.
  induction evs as [|e evs IH]; intros w w' Hr Hrun; cbn in Hrun.
  - now injection Hrun as <-.
  - destruct (step e w) as [w1|] eqn:Hs; [|discriminate]. cbn in Hrun.
    eapply IH; [|exact Hrun]. eapply step_render_ready; eauto.
Qed.

Lemma mounted_render_ready : render_ready mounted.
Proof. intros tl []. Qed.

(** X17. A listener of [preRender] carries the value of
    [JulianDate.compare] on the stop and start bounds, and when the absolute
    value of [JulianDate.compare] on the clock and the stop bound exceeds it,
    [animate] sets the clock to the start bound and returns: every position,
    the transform and everything else stay as they were. *)
Theorem wraparound_resets_clock
    (evs : list Event) (w : World) (timeLimit : float) (viewer : Viewer) :
  run evs mounted = Some w -> In timeLimit (preRender w) ->
  cesiumViewer w = Some viewer ->
  PrimFloat.ltb (JulianDate_compare (stopTime viewer) (startTime viewer))
    (PrimFloat.abs (JulianDate_compare (currentTime viewer) (stopTime viewer))) = true ->
  timeLimit = JulianDate_compare (stopTime viewer) (startTime viewer)
  /\ animate timeLimit w
     = w <| cesiumViewer := Some (viewer <| currentTime := startTime viewer |>) |>.
Proof.
  intros Hrun Hin Hv Hfar.
  destruct (run_render_ready evs _ _ mounted_render_ready Hrun timeLimit Hin)
    as (H1 & H2 & H3 & v & Hv' & Htl).
  assert (v = viewer) by congruence. subst v. split; [exact Htl|].
  unfold animate.
  destruct (pointsMetadataRef w); [|discriminate].
  destruct (pointsCollectionPrimitivesRef w); [|discriminate].
  destruct (pointsCollectionRef w); [|discriminate].
  now rewrite Hv, Htl, Hfar.
Qed.

(** C8, as the code has it. On a render tick that is not a wraparound the
    transform is computed anew exactly when the simulated time differs by
    more than one second, forward or backward, from the instant of
    reference: the instant of the last recomputation, or of the first
    render tick as long as there was none. A recomputation is one: it
    makes the current instant the reference and, when a frame is
    available, sets the one matrix of the point collection; otherwise the
    matrix and the reference stay as they were. *)
Theorem transform_recomputed_beyond_one_second
    (evs : list Event) (w : World) (timeLimit : float) (viewer : Viewer) :
  run evs mounted = Some w -> In timeLimit (preRender w) ->
  cesiumViewer w = Some viewer ->
  PrimFloat.ltb timeLimit
    (PrimFloat.abs (JulianDate_compare (currentTime viewer) (stopTime viewer))) = false ->
  let now := currentTime viewer in
  let last := default now (lastJDateRef w) in
  let w' := animate timeLimit w in
  if PrimFloat.ltb 1 (PrimFloat.abs (JulianDate_secondsDifference now last))
  then transform_computes w' = transform_computes w ++ [compute_transform now]
       /\ lastJDateRef w' = Some now
       /\ match Transforms_computeTemeToPseudoFixedMatrix now,
                Transforms_computeIcrfToFixedMatrix now with
          | Some r, _ | None, Some r =>
              pointsCollectionRef w'
              = Some {| modelMatrix := Matrix4_fromRotationTranslation r |}
              /\ modelMatrixRef w' = Some (Matrix4_fromRotationTranslation r)
          | None, None =>
              pointsCollectionRef w' = pointsCollectionRef w
              /\ modelMatrixRef w' = modelMatrixRef w
          end
  else transform_computes w' = transform_computes w
       /\ lastJDateRef w' = Some last
       /\ pointsCollectionRef w' = pointsCollectionRef w
       /\ modelMatrixRef w' = modelMatrixRef w.
Proof.
  intros Hrun Hin Hv Hnear now last w'.
  destruct (run_render_ready evs _ _ mounted_render_ready Hrun timeLimit Hin)
    as (H1 & H2 & H3 & _).
  subst w'. unfold animate.
  destruct (pointsMetadataRef w); [|discriminate].
  destruct (pointsCollectionPrimitivesRef w) as [pts|]; [|discriminate].
  destruct (pointsCollectionRef w) as [c|] eqn:Hc; [|discriminate].
  rewrite Hv. cbv zeta. rewrite Hnear.
  change (currentTime viewer) with now.
  change (default now (lastJDateRef w)) with last.
  match goal with |- context [move_points ?f ?i ?u] =>
    pose proof (move_points_render_view f i u) as Hm end.
  destruct (PrimFloat.ltb 1 (PrimFloat.abs (JulianDate_secondsDifference now last))).
  - unfold render_view in Hm. injection Hm as _ Hcoll Hlast Hmat Htc _.
    rewrite Htc, Hlast, Hcoll, Hmat. unfold update_transform.
    destruct (Transforms_computeTemeToPseudoFixedMatrix now) as [r|];
      [|destruct (Transforms_computeIcrfToFixedMatrix now) as [r|]];
      cbn; rewrite ?Hc; unfold transform_computes, log; cbn;
      rewrite ?List.filter_app; cbn; destruct c; auto.
  - unfold render_view in Hm. injection Hm as _ Hcoll Hlast Hmat Htc _.
    rewrite Htc, Hlast, Hcoll, Hmat. cbn. auto.
Qed.

End Properties.


(** * Further properties of the component *)

Section MoreProperties.

Context {CesiumT : CesiumTypes} {CesiumJs : CesiumType} {Wasm : Sgp4Gl}.

Ltac split_cases :=
  repeat match goal with
    | |- context [match ?x with _ => _ end] => destruct x eqn:?
    end.

Ltac conjs := repeat match goal with |- _ /\ _ => split end.

Ltac trace_views :=
  cbn; unfold propagate_calls, release_calls, transform_computes; cbn;
  rewrite ?List.filter_app; cbn; rewrite ?app_nil_r; try reflexivity.

(** ** The buffers stay aligned *)

Lemma copy_rounds_bounds (n : nat) :
  (n <= 6 * copy_rounds n < n + 6)%nat.
Proof.
  unfold copy_rounds.
  pose proof (Nat.div_mod_eq (n + 5) 6).
  pose proof (Nat.mod_upper_bound (n + 5) 6 ltac:(lia)).
  lia.
Qed.

Lemma copy_rounds_test (n i : nat) :
  (6 * i <? n)%nat = (i <? copy_rounds n)%nat.
Proof.
  pose proof (copy_rounds_bounds n).
  destruct (Nat.ltb_spec (6 * i) n), (Nat.ltb_spec i (copy_rounds n));
    try reflexivity; lia.
Qed.

(** The loop of lines 457-463 on any result and any target, from round
    [i] on: it runs [copy_rounds] rounds, writes the sample of each round
    into the entry of the same index, and throws at the first round whose
    entry does not exist. *)
Lemma copy_loop_general (flat : list float) : forall fuel i tgt,
  (i <= length tgt)%nat -> (copy_rounds (length flat) - i < fuel)%nat ->
  exists tgt',
    copy_loop fuel i flat tgt
    = (tgt', (length tgt <? copy_rounds (length flat))%nat)
    /\ length tgt' = length tgt
    /\ (forall j, (j < i \/ copy_rounds (length flat) <= j)%nat -> tgt' !! j = tgt !! j)
    /\ (forall j, (i <= j < copy_rounds (length flat))%nat -> (j < length tgt)%nat ->
         tgt' !! j = Some (sample_meters 6 flat j)).
Proof.
  set (k := copy_rounds (length flat)).
  induction fuel as [|fuel IH]; intros i tgt Hi Hfuel; [lia|].
  cbn [copy_loop]. rewrite copy_rounds_test. fold k.
  destruct (Nat.ltb_spec i k) as [Hlt|Hge].
  - destruct (tgt !! i) as [p0|] eqn:Hp0.
    + apply lookup_lt_Some in Hp0 as Hil.
      set (p := {| buf_x := _ |}).
      destruct (IH (S i) (<[i := p]> tgt)) as (tgt' & E & L & Hout & Hin);
        [rewrite length_insert; lia | lia |].
      rewrite length_insert in E, L.
      exists tgt'. split; [exact E|]. split; [exact L|]. split.
      * intros j Hj. rewrite Hout by lia. apply list_lookup_insert_ne. lia.
      * intros j Hj Hjl. destruct (Nat.eq_dec j i) as [->|Hne].
        -- rewrite Hout by lia. rewrite list_lookup_insert_eq by lia. reflexivity.
        -- apply Hin; [lia|]. rewrite length_insert. exact Hjl.
    + apply lookup_ge_None in Hp0.
      exists tgt. split; [|split; [reflexivity|split; [reflexivity|]]].
      * f_equal. symmetry. apply Nat.ltb_lt. lia.
      * intros j Hj Hjl. lia.
  - exists tgt. split; [|split; [reflexivity|split; [reflexivity|]]].
    + f_equal. symmetry. apply Nat.ltb_ge. lia.
    + intros j Hj. lia.
Qed.

Lemma copy_into_target_length flat tgt :
  length (fst (copy_into_target flat tgt)) = length tgt.
Proof.
  unfold copy_into_target.
  destruct (copy_loop_general flat (S (length flat)) 0 tgt) as (tgt' & E & L & _).
  - lia.
  - pose proof (copy_rounds_bounds (length flat)). lia.
  - now rewrite E.
Qed.

Lemma buffers_aligned_lengths w w' :
  buffer_lengths w' = buffer_lengths w -> buffers_aligned w -> buffers_aligned w'.
Proof.
  unfold buffer_lengths, buffers_aligned.
  intros [= Hc Ht Hp Hpts Hmd] (A1 & A2 & A3 & A4).
  rewrite Hc, Ht, Hp. repeat split; auto.
  - intros pts Hs. rewrite Hs in Hpts.
    destruct (pointsCollectionPrimitivesRef w) as [pts0|]; [|discriminate].
    cbn in Hpts. injection Hpts as ->. now apply A3.
  - intros md Hs. rewrite Hs in Hmd.
    destruct (pointsMetadataRef w) as [md0|]; [|discriminate].
    cbn in Hmd. injection Hmd as ->. now apply A4.
Qed.

Lemma move_points_buffer_lengths fuel : forall i w,
  buffer_lengths (move_points fuel i w) = buffer_lengths w.
Proof.
  induction fuel as [|fuel IH]; intros i w; [reflexivity|].
  cbn [move_points]. split_cases; rewrite ?IH; unfold buffer_lengths; cbn;
    rewrite ?length_insert;
    repeat match goal with H : _ = Some _ |- _ => rewrite H end;
    cbn; rewrite ?length_insert; reflexivity.
Qed.

Lemma animate_buffer_lengths timeLimit w :
  buffer_lengths (animate timeLimit w) = buffer_lengths w.
Proof.
  unfold animate, update_transform.
  split_cases; rewrite ?move_points_buffer_lengths; unfold buffer_lengths; cbn;
    repeat match goal with H : _ = Some _ |- _ => rewrite H end; reflexivity.
Qed.

Lemma boot_resumed_aligned TLEs r constSetId w :
  buffers_aligned w -> buffers_aligned (boot_resumed TLEs r constSetId w).
Proof.
  intros Hw. unfold boot_resumed.
  destruct r; [eapply buffers_aligned_lengths; [|exact Hw]; reflexivity|].
  cbn. destruct (cesiumViewer w);
    [|eapply buffers_aligned_lengths; [|exact Hw]; reflexivity].
  destruct (mapM _ _); [|eapply buffers_aligned_lengths; [|exact Hw]; reflexivity].
  destruct (mapM _ _); [|eapply buffers_aligned_lengths; [|exact Hw]; reflexivity].
  destruct (forEach_parsed (omap parse_tle TLEs) no_arrays) as [a|e] eqn:E;
    [|eapply buffers_aligned_lengths; [|exact Hw]; reflexivity].
  destruct (forEach_parsed_normal _ _ _ E) as (L & L1 & L2 & L3 & L4 & _);
    try reflexivity.
  unfold buffers_aligned. cbn.
  repeat split; try lia; intros ? [= <-]; lia.
Qed.

Lemma step_buffers_aligned e w w' :
  buffers_aligned w -> step e w = Some w' -> buffers_aligned w'.
Proof.
  intros Hw Hs. destruct e; cbn in Hs.
  - injection Hs as <-. eapply buffers_aligned_lengths; [|exact Hw].
    unfold viewer_init. destruct (cesiumViewer w); reflexivity.
  - injection Hs as <-. eapply buffers_aligned_lengths; [|exact Hw].
    unfold boot. split_cases; reflexivity.
  - destruct (booting w); [discriminate|]. injection Hs as <-.
    apply boot_resumed_aligned. exact Hw.
  - destruct (animationFrames w); [discriminate|]. injection Hs as <-.
    eapply buffers_aligned_lengths; [|exact Hw].
    unfold propagateLoop. split_cases; reflexivity.
  - destruct (propagating w); [discriminate|]. injection Hs as <-.
    eapply buffers_aligned_lengths; [|exact Hw].
    unfold propagateLoop_settled.
    destruct r as [flat|]; [|reflexivity].
    pose proof (copy_into_target_length flat (targetPositionsRef w)) as Hl.
    change (targetPositionsRef (w <| propagating := n |>)) with (targetPositionsRef w).
    destruct (copy_into_target flat (targetPositionsRef w)) as [tgt threw].
    cbn in Hl. destruct threw; unfold buffer_lengths; cbn; now rewrite Hl.
  - destruct (cesiumViewer w); [|discriminate]. injection Hs as <-. exact Hw.
  - injection Hs as <-. eapply buffers_aligned_lengths; [|exact Hw].
    generalize (preRender w). intros ls. generalize w.
    induction ls as [|tl ls IH]; intros u; [reflexivity|].
    cbn [fold_left]. rewrite IH. apply animate_buffer_lengths.
  - injection Hs as <-. eapply buffers_aligned_lengths; [|exact Hw].
    unfold cleanup, tryUnregister. split_cases; reflexivity.
  - destruct (timeouts w); [discriminate|]. injection Hs as <-.
    eapply buffers_aligned_lengths; [|exact Hw].
    unfold tryUnregister. split_cases; reflexivity.
Qed.

Lemma run_buffers_aligned evs : forall w w',
  buffers_aligned w -> run evs w = Some w' -> buffers_aligned w'.
Proof.
  induction evs as [|e evs IH]; intros w w' Hw Hr; cbn in Hr.
  - now injection Hr as <-.
  - destruct (step e w) as [w1|] eqn:Hs; [|discriminate]. cbn in Hr.
    eapply IH; [|exact Hr]. eapply step_buffers_aligned; eauto.
Qed.

Lemma buffers_stay_aligned_lemma (evs : list Event) (w : World) :
  run evs mounted = Some w -> buffers_aligned w.
Proof.
  apply run_buffers_aligned. repeat split; intros ? [=].
Qed.

Lemma render_view_eq w w' :
  render_view w' = render_view w ->
  cesiumViewer w' = cesiumViewer w /\ pointsCollectionRef w' = pointsCollectionRef w.
Proof. unfold render_view. intros [= H1 H2 _ _ _ _]. auto. Qed.

(** X1. In every state the component can reach, Current, Target, the
    pre-allocated positions, the point primitives and the metadata have the
    same length: one entry for each registered satellite. *)
Theorem buffers_stay_aligned (evs : list Event) (w : World) :
  run evs mounted = Some w -> buffers_aligned w.
Proof.
  intros Hr. eapply run_buffers_aligned; [|exact Hr].
  unfold buffers_aligned. cbn. conjs; try reflexivity; intros ? [=].
Qed.

(** ** Any result of the backend *)

(** X2. Whatever array a successful backend call returns, the target
    buffer keeps its length: the entries below both the number of rounds
    of the copy loop and the length of the buffer take the sample of their
    index, the entries from the number of rounds on stay as they were; a
    result that has more rounds than the buffer has entries makes the copy
    throw once the buffer is full, which is logged; in every case the
    counter goes down by one and the next tick is in the queue. *)
Theorem any_result_is_absorbed (w : World) (flat : list float) (n : nat) :
  propagating w = S n ->
  exists w',
    step (PropagateSettled (fulfilled flat)) w = Some w'
    /\ length (targetPositionsRef w') = length (targetPositionsRef w)
    /\ (forall j, (j < copy_rounds (length flat))%nat ->
          (j < length (targetPositionsRef w))%nat ->
          targetPositionsRef w' !! j = Some (sample_meters 6 flat j))
    /\ (forall j, (copy_rounds (length flat) <= j)%nat ->
          targetPositionsRef w' !! j = targetPositionsRef w !! j)
    /\ trace w'
       = trace w ++
         (if (length (targetPositionsRef w) <? copy_rounds (length flat))%nat
          then [console_error "GPU propagate loop error"] else [])
    /\ inflightRef w' = inflightRef w - 1
    /\ animationFrames w' = S (animationFrames w).
Proof.
  intros Hp.
  destruct (copy_loop_general flat (S (length flat)) 0 (targetPositionsRef w))
    as (tgt' & E & L & Hout & Hin); [lia | |].
  { pose proof (copy_rounds_bounds (length flat)). lia. }
  eexists. split; [cbn; rewrite Hp; reflexivity|].
  unfold propagateLoop_settled, copy_into_target.
  change (targetPositionsRef (w <| propagating := n |>)) with (targetPositionsRef w).
  rewrite E.
  assert (Hfin : forall u : World,
             targetPositionsRef u = tgt' ->
             length (targetPositionsRef u) = length (targetPositionsRef w)
             /\ (forall j, (j < copy_rounds (length flat))%nat ->
                   (j < length (targetPositionsRef w))%nat ->
                   targetPositionsRef u !! j = Some (sample_meters 6 flat j))
             /\ (forall j, (copy_rounds (length flat) <= j)%nat ->
                   targetPositionsRef u !! j = targetPositionsRef w !! j)).
  { intros u ->. split; [exact L|]. split.
    - intros j Hj Hjl. apply Hin; [lia | exact Hjl].
    - intros j Hj. apply Hout. lia. }
  destruct (length (targetPositionsRef w) <? copy_rounds (length flat))%nat;
    match goal with |- length (targetPositionsRef ?u) = _ /\ _ =>
      destruct (Hfin u eq_refl) as (F1 & F2 & F3) end;
    (split; [exact F1|]); (split; [exact F2|]); (split; [exact F3|]);
    cbn; rewrite ?app_nil_r; repeat split.
Qed.

(** ** The hand-off of the render step *)

Lemma move_points_aligned (N : nat) : forall fuel i w pts,
  pointsCollectionPrimitivesRef w = Some pts -> length pts = N ->
  length (currentPositionsRef w) = N -> length (targetPositionsRef w) = N ->
  length (preAllocatedCartesianRef w) = N ->
  (N - i <= fuel)%nat ->
  exists pts',
    pointsCollectionPrimitivesRef (move_points fuel i w) = Some pts'
    /\ length pts' = N
    /\ length (currentPositionsRef (move_points fuel i w)) = N
    /\ length (preAllocatedCartesianRef (move_points fuel i w)) = N
    /\ targetPositionsRef (move_points fuel i w) = targetPositionsRef w
    /\ trace (move_points fuel i w) = trace w
    /\ (forall j, (j < i)%nat ->
          currentPositionsRef (move_points fuel i w) !! j = currentPositionsRef w !! j
          /\ preAllocatedCartesianRef (move_points fuel i w) !! j
             = preAllocatedCartesianRef w !! j
          /\ pts' !! j = pts !! j)
    /\ (forall j t, (i <= j)%nat -> targetPositionsRef w !! j = Some t ->
          currentPositionsRef (move_points fuel i w) !! j = Some t
          /\ preAllocatedCartesianRef (move_points fuel i w) !! j = Some (cartesian_of t)
          /\ exists pt, pts !! j = Some pt
                        /\ pts' !! j = Some (pt <| position := cartesian_of t |>)).
Proof.
  induction fuel as [|fuel IH]; intros i w pts Hpts Lp Lc Lt Lpre Hfuel.
  - exists pts. cbn. conjs; auto.
    intros j t Hj Ht. apply lookup_lt_Some in Ht. lia.
  - cbn [move_points]. rewrite Hpts.
    destruct (Nat.ltb_spec i (length pts)) as [Hi|Hi].
    + destruct (lookup_lt_is_Some_2 (currentPositionsRef w) i ltac:(lia)) as [c0 Hc0].
      destruct (lookup_lt_is_Some_2 (targetPositionsRef w) i ltac:(lia)) as [t0 Ht0].
      destruct (lookup_lt_is_Some_2 (preAllocatedCartesianRef w) i ltac:(lia)) as [p0 Hp0].
      destruct (lookup_lt_is_Some_2 pts i ltac:(lia)) as [pt0 Hpt0].
      rewrite Hc0, Ht0. cbn. rewrite Hp0, Hpt0.
      set (c := {| buf_x := buf_x t0 |}).
      assert (Ec : c = t0) by (subst c; destruct t0; reflexivity).
      set (u := _ <| pointsCollectionPrimitivesRef := _ |>).
      destruct (IH (S i) u (<[i := pt0 <| position := cartesian_of c |>]> pts))
        as (pts' & E & L1 & L2 & L3 & Et & Etr & Hlo & Hhi);
        try (subst u; cbn; rewrite ?length_insert; first [reflexivity | lia]).
      exists pts'. split; [exact E|]. split; [exact L1|]. split; [exact L2|].
      split; [exact L3|]. split; [exact Et|]. split; [exact Etr|]. split.
      * intros j Hj. destruct (Hlo j ltac:(lia)) as (A & B & C).
        rewrite A, B, C. subst u. cbn.
        rewrite !list_lookup_insert_ne by lia. auto.
      * intros j t Hj Ht. destruct (Nat.eq_dec j i) as [->|Hne].
        -- assert (t = t0) by congruence. subst t.
           destruct (Hlo i ltac:(lia)) as (A & B & C).
           rewrite A, B, C. subst u. cbn.
           rewrite !list_lookup_insert_eq by lia. rewrite Ec.
           conjs; auto. exists pt0. auto.
        -- destruct (Hhi j t ltac:(lia) Ht) as (A & B & pt & C & D).
           conjs; auto. exists pt. split; [|exact D].
           rewrite list_lookup_insert_ne in C by lia. exact C.
    + exists pts. conjs; auto.
      intros j t Hj Ht. apply lookup_lt_Some in Ht. lia.
Qed.

Lemma update_transform_frame now w c :
  pointsCollectionRef w = Some c ->
  currentPositionsRef (update_transform now w) = currentPositionsRef w
  /\ targetPositionsRef (update_transform now w) = targetPositionsRef w
  /\ preAllocatedCartesianRef (update_transform now w) = preAllocatedCartesianRef w
  /\ pointsCollectionPrimitivesRef (update_transform now w)
     = pointsCollectionPrimitivesRef w
  /\ cesiumViewer (update_transform now w) = cesiumViewer w
  /\ trace (update_transform now w) = trace w ++ [compute_transform now].
Proof.
  intros Hc. unfold update_transform.
  destruct (Transforms_computeTemeToPseudoFixedMatrix now);
    [|destruct (Transforms_computeIcrfToFixedMatrix now)];
    cbn; rewrite ?Hc; cbn; conjs; reflexivity.
Qed.

(** X3. On a render tick of a reachable state that is not a wraparound,
    [animate] copies every entry of Target into Current, into the
    pre-allocated position of the same index and into the position of the
    point primitive of the same index; it creates no entry, changes no
    other attribute of a primitive, leaves Target and the clock as they
    were and throws nothing: the trace grows by the recomputation of the
    transform at most. *)
Theorem render_hands_target_over
    (evs : list Event) (w : World) (timeLimit : float) (viewer : Viewer) :
  run evs mounted = Some w -> In timeLimit (preRender w) ->
  cesiumViewer w = Some viewer ->
  PrimFloat.ltb timeLimit
    (PrimFloat.abs (JulianDate_compare (currentTime viewer) (stopTime viewer))) = false ->
  let w' := animate timeLimit w in
  currentPositionsRef w' = targetPositionsRef w
  /\ preAllocatedCartesianRef w' = cartesian_of <$> targetPositionsRef w
  /\ (exists pts pts',
        pointsCollectionPrimitivesRef w = Some pts
        /\ pointsCollectionPrimitivesRef w' = Some pts'
        /\ position <$> pts' = cartesian_of <$> targetPositionsRef w
        /\ pixelSize <$> pts' = pixelSize <$> pts)
  /\ targetPositionsRef w' = targetPositionsRef w
  /\ cesiumViewer w' = cesiumViewer w
  /\ (trace w' = trace w
      \/ trace w' = trace w ++ [compute_transform (currentTime viewer)]).
Proof.
  intros Hrun Hin Hv Hnear w'.
  destruct (run_render_ready evs _ _ mounted_render_ready Hrun timeLimit Hin)
    as (H1 & H2 & H3 & _).
  destruct (buffers_stay_aligned_lemma evs w Hrun) as (A1 & A2 & A3 & _).
  subst w'. unfold animate.
  destruct (pointsMetadataRef w); [|discriminate].
  destruct (pointsCollectionPrimitivesRef w) as [pts|] eqn:Hpts; [|discriminate].
  destruct (pointsCollectionRef w) as [c|] eqn:Hc; [|discriminate].
  rewrite Hv. cbv zeta. rewrite Hnear.
  specialize (A3 pts eq_refl).
  set (w1 := w <| lastJDateRef := Some (default (currentTime viewer) (lastJDateRef w)) |>).
  set (w2 := if PrimFloat.ltb 1 _ then update_transform (currentTime viewer) w1 else w1).
  assert (F : currentPositionsRef w2 = currentPositionsRef w
              /\ targetPositionsRef w2 = targetPositionsRef w
              /\ preAllocatedCartesianRef w2 = preAllocatedCartesianRef w
              /\ pointsCollectionPrimitivesRef w2 = Some pts
              /\ cesiumViewer w2 = Some viewer
              /\ (trace w2 = trace w
                  \/ trace w2 = trace w ++ [compute_transform (currentTime viewer)])).
  { subst w2. destruct (PrimFloat.ltb 1 _).
    - destruct (update_transform_frame (currentTime viewer) w1 c Hc)
        as (F1 & F2 & F3 & F4 & F5 & F6).
      rewrite F1, F2, F3, F4, F5, F6. subst w1. cbn. conjs; auto.
    - subst w1. cbn. conjs; auto. }
  destruct F as (F1 & F2 & F3 & F4 & F5 & F6).
  destruct (move_points_aligned (length (targetPositionsRef w)) (length pts) 0 w2 pts
              F4 A3 ltac:(rewrite F1; exact A1) ltac:(rewrite F2; reflexivity)
              ltac:(rewrite F3; exact A2) ltac:(lia))
    as (pts' & E & L1 & L2 & L3 & Et & Etr & _ & Hhi).
  destruct (render_view_eq _ _ (move_points_render_view (length pts) 0 w2)) as [Ev _].
  rewrite Et, Etr, Ev, F2, F5. conjs; auto.
  - apply list_eq. intros j.
    destruct (targetPositionsRef w !! j) as [t|] eqn:Ht.
    + rewrite <- F2 in Ht. now destruct (Hhi j t ltac:(lia) Ht) as (-> & _).
    + apply lookup_ge_None in Ht. apply lookup_ge_None. lia.
  - apply list_eq. intros j. rewrite list_lookup_fmap.
    destruct (targetPositionsRef w !! j) as [t|] eqn:Ht.
    + rewrite <- F2 in Ht. now destruct (Hhi j t ltac:(lia) Ht) as (_ & -> & _).
    + apply lookup_ge_None in Ht. apply lookup_ge_None. lia.
  - exists pts, pts'. conjs; auto.
    + apply list_eq. intros j. rewrite !list_lookup_fmap.
      destruct (targetPositionsRef w !! j) as [t|] eqn:Ht.
      * rewrite <- F2 in Ht.
        destruct (Hhi j t ltac:(lia) Ht) as (_ & _ & pt & _ & ->). reflexivity.
      * apply lookup_ge_None in Ht.
        rewrite (proj2 (lookup_ge_None pts' j)) by lia. reflexivity.
    + apply list_eq. intros j. rewrite !list_lookup_fmap.
      destruct (targetPositionsRef w !! j) as [t|] eqn:Ht.
      * rewrite <- F2 in Ht.
        destruct (Hhi j t ltac:(lia) Ht) as (_ & _ & pt & -> & ->). reflexivity.
      * apply lookup_ge_None in Ht.
        rewrite (proj2 (lookup_ge_None pts' j)), (proj2 (lookup_ge_None pts j)) by lia.
        reflexivity.
Qed.

(** ** The offsets handed to the backend *)

(** X4. A tick that begins a backend call does so in a live component whose
    counter is 0, with the handle that is registered at that moment and
    with one time offset for each entry of the metadata, in their order:
    the seconds from the epoch of the entry to the current time of the
    clock, divided by 60. There are as many offsets as Target has
    entries. *)
Theorem call_offsets_match_target (evs : list Event) (w w' : World) :
  run evs mounted = Some w -> step AnimationFrame w = Some w' ->
  propagate_calls w' <> propagate_calls w ->
  exists viewer constSetId md,
    cesiumViewer w = Some viewer
    /\ registeredConstSetIdRef w = Some constSetId
    /\ pointsMetadataRef w = Some md
    /\ isComponentAliveRef w = true /\ inflightRef w = 0
    /\ trace w'
       = trace w ++
         [propagate_registered_f32 constSetId
            ((fun m => PrimFloat.div
                         (JulianDate_secondsDifference (currentTime viewer)
                            (TLEEpochJulian m)) 60) <$> md)]
    /\ length md = length (targetPositionsRef w).
Proof.
  intros Hrun Hs Hne. cbn in Hs.
  destruct (animationFrames w) as [|n] eqn:Hf; [discriminate|]. injection Hs as <-.
  destruct (buffers_stay_aligned_lemma evs w Hrun) as (_ & _ & _ & A4).
  revert Hne. unfold propagateLoop. cbn.
  destruct (isComponentAliveRef w); cbn; [|(intros Hx; exfalso; apply Hx; unfold log; trace_views)].
  destruct (cesiumViewer w) as [viewer|]; [|(intros Hx; exfalso; apply Hx; unfold log; trace_views)].
  destruct (gpuPropagatorRef w); [|(intros Hx; exfalso; apply Hx; unfold log; trace_views)].
  destruct (registeredConstSetIdRef w) as [constSetId|]; [|(intros Hx; exfalso; apply Hx; unfold log; trace_views)].
  destruct (pointsMetadataRef w) as [md|]; [|(intros Hx; exfalso; apply Hx; unfold log; trace_views)].
  destruct (length md =? 0)%nat; [(intros Hx; exfalso; apply Hx; unfold log; trace_views)|].
  destruct (Z.eqb_spec (inflightRef w) 0) as [H0|]; cbn; [|(intros Hx; exfalso; apply Hx; unfold log; trace_views)].
  intros _. exists viewer, constSetId, md. conjs; auto.
Qed.

(** ** Nothing is asked of a released set *)

(** As long as the flag is up nothing was released and no retry is pending;
    once a release call was made no backend call is outstanding. *)
Definition release_discipline (w : World) : Prop :=
  inflight_ok w
  /\ (isComponentAliveRef w = true -> release_calls w = [] /\ timeouts w = [])
  /\ (release_calls w <> [] -> propagating w = 0%nat).

Lemma tryUnregister_release_grows throws w :
  exists es, release_calls (tryUnregister throws w) = release_calls w ++ es.
Proof.
  unfold tryUnregister, log. split_cases; unfold release_calls; cbn;
    rewrite ?List.filter_app; cbn; rewrite ?app_nil_r;
    first [now eexists | exists []; now rewrite app_nil_r].
Qed.

Lemma cleanup_release_grows throws w :
  exists es, release_calls (cleanup throws w) = release_calls w ++ es.
Proof.
  unfold cleanup. cbn.
  destruct (gpuPropagatorRef w); [destruct (registeredConstSetIdRef w)|];
    try (exists []; now rewrite app_nil_r).
  exact (tryUnregister_release_grows throws (w <| isComponentAliveRef := false |>)).
Qed.

Lemma tryUnregister_discipline throws w :
  inflight_ok w -> isComponentAliveRef w = false ->
  (release_calls w <> [] -> propagating w = 0%nat) ->
  release_discipline (tryUnregister throws w).
Proof.
  intros Hok Ha Hr.
  destruct (tryUnregister_inflight throws w) as [Hi Hp].
  assert (Hal : isComponentAliveRef (tryUnregister throws w) = false).
  { unfold tryUnregister. split_cases; exact Ha. }
  unfold release_discipline. split; [|split].
  - unfold inflight_ok. rewrite Hi, Hp. exact Hok.
  - rewrite Hal. discriminate.
  - rewrite Hp. intros Hne.
    destruct (release_calls_tryUnregister throws w) as [(_ & H1 & _) | (H0 & _)].
    + apply Hr. now rewrite <- H1.
    + destruct Hok as [_ Hin]. lia.
Qed.

Lemma step_release_discipline e w w' :
  release_discipline w -> step e w = Some w' -> release_discipline w'.
Proof.
  intros (Hok & Hal & Hrel) Hs.
  pose proof (step_inflight_ok e w w' Hok Hs) as Hok'.
  destruct (is_cleanup e) eqn:Hc.
  - destruct e; try discriminate Hc. cbn in Hs. injection Hs as <-.
    unfold cleanup. cbn.
    destruct (gpuPropagatorRef w); [destruct (registeredConstSetIdRef w)|].
    + apply tryUnregister_discipline; auto.
    + split; [exact Hok|]. split; [discriminate | exact Hrel].
    + split; [exact Hok|]. split; [discriminate | exact Hrel].
  - destruct (classic_timeout e) as [[t ->]|Hnt].
    + cbn in Hs. destruct (timeouts w) as [|d rest] eqn:Ht; [discriminate|].
      injection Hs as <-.
      assert (Ha : isComponentAliveRef w = false).
      { destruct (isComponentAliveRef w); [|reflexivity].
        destruct (Hal eq_refl) as [_ ?]. congruence. }
      apply tryUnregister_discipline; auto.
    + destruct (shutdown_view_eq _ _ (step_shutdown_view e w w' Hs Hc Hnt))
        as (Ea & Er & Et).
      split; [exact Hok'|]. rewrite Ea, Er, Et. split; [exact Hal|].
      intros Hne. specialize (Hrel Hne).
      assert (Ha : isComponentAliveRef w = false).
      { destruct (isComponentAliveRef w); [|reflexivity].
        destruct (Hal eq_refl) as [? _]. congruence. }
      destruct e; cbn in Hs; try discriminate Hc.
      * injection Hs as <-. unfold viewer_init. destruct (cesiumViewer w); exact Hrel.
      * injection Hs as <-. unfold boot. split_cases; exact Hrel.
      * destruct (booting w); [discriminate|]. injection Hs as <-.
        match goal with |- context [boot_resumed ?a ?b ?c ?d] =>
          destruct (boot_resumed_inflight a b c d) as [_ ->] end.
        exact Hrel.
      * destruct (animationFrames w); [discriminate|]. injection Hs as <-.
        unfold propagateLoop. cbn. rewrite Ha. exact Hrel.
      * rewrite Hrel in Hs. discriminate.
      * destruct (cesiumViewer w); [|discriminate]. injection Hs as <-. exact Hrel.
      * injection Hs as <-.
        destruct (loop_view_eq _ _ (preRender_loop_view (preRender w) w))
          as (_ & _ & _ & -> & _). exact Hrel.
      * exfalso. eapply Hnt. reflexivity.
Qed.

Lemma run_release_discipline evs : forall w w',
  release_discipline w -> run evs w = Some w' -> release_discipline w'.
Proof.
  induction evs as [|e evs IH]; intros w w' Hw Hr; cbn in Hr.
  - now injection Hr as <-.
  - destruct (step e w) as [w1|] eqn:Hs; [|discriminate]. cbn in Hr.
    eapply IH; [|exact Hr]. eapply step_release_discipline; eauto.
Qed.

Lemma mounted_release_discipline : release_discipline mounted.
Proof.
  split; [apply mounted_inflight_ok|]. split; [auto|]. intros H. now elim H.
Qed.

(** X5. The backend is never asked to work on a released set. In every
    reachable state: while the liveness flag is up no release call was made
    and no retry is pending; once a release call was made no backend call
    is outstanding and, whatever happens next, none ever begins; an event
    that begins a backend call finds that nothing was released. *)
Theorem no_call_on_a_released_set (evs : list Event) (w : World) :
  run evs mounted = Some w ->
  (isComponentAliveRef w = true -> release_calls w = [] /\ timeouts w = [])
  /\ (release_calls w <> [] ->
      propagating w = 0%nat /\ inflightRef w = 0
      /\ forall evs' w', run evs' w = Some w' ->
                          propagate_calls w' = propagate_calls w
                          /\ propagating w' = 0%nat)
  /\ (forall e w', step e w = Some w' ->
        propagate_calls w' <> propagate_calls w ->
        release_calls w = [] /\ release_calls w' = []).
Proof.
  intros Hrun.
  pose proof (run_release_discipline evs _ _ mounted_release_discipline Hrun)
    as (Hok & Hal & Hrel).
  assert (Hdown : release_calls w <> [] -> isComponentAliveRef w = false).
  { intros Hne. destruct (isComponentAliveRef w); [|reflexivity].
    destruct (Hal eq_refl) as [? _]. contradiction. }
  split; [exact Hal|]. split.
  - intros Hne. specialize (Hrel Hne). destruct Hok as [_ Hin].
    split; [exact Hrel|]. split; [lia|].
    intros evs' w' Hr'.
    destruct (run_after_shutdown evs' w w' (Hdown Hne) Hr') as [Ha' Hc'].
    split; [exact Hc'|].
    assert (Hreach : run (evs ++ evs') mounted = Some w').
    { clear - Hrun Hr'. revert Hrun. generalize mounted.
      induction evs as [|e evs IH]; intros u Hu; cbn in *.
      - now injection Hu as ->.
      - destruct (step e u); [|discriminate]. cbn in *. now apply IH. }
    pose proof (run_release_discipline _ _ _ mounted_release_discipline Hreach)
      as (_ & Hal' & Hrel').
    apply Hrel'. intros Hnil.
    (* release calls only grow *)
    assert (Hgrow : forall evs0 u u', run evs0 u = Some u' ->
                      release_calls u' = [] -> release_calls u = []).
    { clear. induction evs0 as [|e evs0 IH]; intros u u' Hu Hn; cbn in Hu.
      - now injection Hu as ->.
      - destruct (step e u) as [u1|] eqn:Hs; [|discriminate]. cbn in Hu.
        specialize (IH u1 u' Hu Hn).
        destruct (is_cleanup e) eqn:Hc.
        + destruct e; try discriminate Hc. cbn in Hs. injection Hs as <-.
          destruct (cleanup_release_grows release_throws u) as [es Hes].
          rewrite Hes in IH. now apply app_eq_nil in IH as [? _].
        + destruct (classic_timeout e) as [[t ->]|Hnt].
          * cbn in Hs. destruct (timeouts u) as [|d rest]; [discriminate|].
            injection Hs as <-.
            destruct (tryUnregister_release_grows t (u <| timeouts := rest |>))
              as [es Hes].
            rewrite Hes in IH. now apply app_eq_nil in IH as [? _].
          * destruct (shutdown_view_eq _ _ (step_shutdown_view e u u1 Hs Hc Hnt))
              as (_ & Er & _). congruence. }
    apply Hne. eapply Hgrow; eauto.
  - intros e w' Hs Hne.
    assert (Hup : isComponentAliveRef w = true).
    { destruct (isComponentAliveRef w) eqn:Ha; [reflexivity|].
      destruct (step_after_shutdown e w w' Ha Hs) as [_ ?]. contradiction. }
    destruct (Hal Hup) as [Hr Ht]. split; [exact Hr|].
    destruct (is_cleanup e) eqn:Hc.
    + destruct e; try discriminate Hc. cbn in Hs. injection Hs as <-.
      exfalso. apply Hne. unfold cleanup, tryUnregister.
      split_cases; unfold log; trace_views.
    + destruct (classic_timeout e) as [[t ->]|Hnt].
      * cbn in Hs. rewrite Ht in Hs. discriminate.
      * destruct (shutdown_view_eq _ _ (step_shutdown_view e w w' Hs Hc Hnt))
          as (_ & Er & _). congruence.
Qed.

(** ** Who writes what *)

Ltac all_views :=
  unfold boot_view, clock_setup, render_buffers, loop_view, render_view, log;
  cbn; unfold register_calls, propagate_calls, release_calls, transform_computes;
  cbn; rewrite ?List.filter_app; cbn; rewrite ?app_nil_r;
  repeat match goal with H : _ = Some _ |- _ => rewrite H end;
  try reflexivity.

Lemma move_points_boot_view fuel : forall i w,
  boot_view (move_points fuel i w) = boot_view w
  /\ targetPositionsRef (move_points fuel i w) = targetPositionsRef w
  /\ clock_setup (move_points fuel i w) = clock_setup w.
Proof.
  induction fuel as [|fuel IH]; intros i w; [auto|].
  cbn [move_points].
  split_cases; try (conjs; all_views; fail).
  match goal with |- context [move_points fuel ?j ?u] =>
    destruct (IH j u) as (-> & -> & ->) end.
  conjs; all_views.
Qed.

Lemma animate_boot_view timeLimit w :
  boot_view (animate timeLimit w) = boot_view w
  /\ targetPositionsRef (animate timeLimit w) = targetPositionsRef w
  /\ clock_setup (animate timeLimit w) = clock_setup w.
Proof.
  unfold animate, update_transform.
  split_cases;
    try match goal with |- context [move_points ?f ?j ?u] =>
      destruct (move_points_boot_view f j u) as (-> & -> & ->) end;
    conjs; all_views.
Qed.

Lemma preRender_boot_view ls : forall w,
  boot_view (fold_left (fun w timeLimit => animate timeLimit w) ls w) = boot_view w
  /\ targetPositionsRef (fold_left (fun w timeLimit => animate timeLimit w) ls w)
     = targetPositionsRef w
  /\ clock_setup (fold_left (fun w timeLimit => animate timeLimit w) ls w)
     = clock_setup w.
Proof.
  induction ls as [|tl ls IH]; intros w; [auto|].
  cbn [fold_left]. destruct (IH (animate tl w)) as (-> & -> & ->).
  apply animate_boot_view.
Qed.

(** X6. The render step and the propagation loop write disjoint parts of
    the state. An event of [preRender] leaves alone the liveness flag, the
    propagator, the handle, the in-flight counter, the queues, the backend
    and release calls made, Target, the metadata and what [boot] set up; a
    tick of the loop and the settling of a backend call leave alone the
    clock, the transform, its instant of reference, Current, the
    pre-allocated positions and the point primitives. *)
Theorem render_and_loop_write_apart :
  (forall w w',
      step PreRender w = Some w' ->
      loop_view w' = loop_view w /\ boot_view w' = boot_view w
      /\ targetPositionsRef w' = targetPositionsRef w)
  /\ (forall e w w',
        is_loop_event e = true -> step e w = Some w' ->
        render_view w' = render_view w /\ render_buffers w' = render_buffers w).
Proof.
  split.
  - intros w w' Hs. cbn in Hs. injection Hs as <-.
    destruct (preRender_boot_view (preRender w) w) as (Hb & Ht & _).
    split; [apply preRender_loop_view|]. split; assumption.
  - intros e w w' He Hs. destruct e; try discriminate He; cbn in Hs.
    + destruct (animationFrames w); [discriminate|]. injection Hs as <-.
      unfold propagateLoop. split_cases; split; all_views.
    + destruct (propagating w); [discriminate|]. injection Hs as <-.
      unfold propagateLoop_settled. split_cases; split; all_views.
Qed.

(** ** The clock of the viewer *)

Lemma step_clock_setup e w w' v :
  cesiumViewer w = Some v -> step e w = Some w' -> clock_setup w' = clock_setup w.
Proof.
  intros Hv Hs. destruct e; cbn in Hs.
  - injection Hs as <-. unfold viewer_init. now rewrite Hv.
  - injection Hs as <-. unfold boot. split_cases; reflexivity.
  - destruct (booting w); [discriminate|]. injection Hs as <-.
    unfold boot_resumed. split_cases; all_views.
  - destruct (animationFrames w); [discriminate|]. injection Hs as <-.
    unfold propagateLoop. split_cases; all_views.
  - destruct (propagating w); [discriminate|]. injection Hs as <-.
    unfold propagateLoop_settled. split_cases; all_views.
  - rewrite Hv in Hs. injection Hs as <-. unfold clock_setup. cbn. now rewrite Hv.
  - injection Hs as <-. apply preRender_boot_view.
  - injection Hs as <-. unfold cleanup, tryUnregister. split_cases; all_views.
  - destruct (timeouts w); [discriminate|]. injection Hs as <-.
    unfold tryUnregister. split_cases; all_views.
Qed.

(** X7. Once the viewer exists its clock keeps the start bound, the
    stop bound and the multiplier it was created with, whatever happens:
    the component only ever moves the current time. *)
Theorem clock_bounds_never_change (evs : list Event) : forall (w w' : World) (v : Viewer),
  cesiumViewer w = Some v -> run evs w = Some w' ->
  exists v',
    cesiumViewer w' = Some v'
    /\ startTime v' = startTime v /\ stopTime v' = stopTime v
    /\ multiplier v' = multiplier v.
Proof.
  induction evs as [|e evs IH]; intros w w' v Hv Hr; cbn in Hr.
  - injection Hr as <-. eauto.
  - destruct (step e w) as [w1|] eqn:Hs; [|discriminate]. cbn in Hr.
    pose proof (step_clock_setup e w w1 v Hv Hs) as Hc.
    unfold clock_setup in Hc. rewrite Hv in Hc.
    destruct (cesiumViewer w1) as [v1|] eqn:Hv1; [|discriminate].
    cbn in Hc. injection Hc as H1 H2 H3.
    destruct (IH w1 w' v1 Hv1 Hr) as (v' & E & A & B & C).
    exists v'. split; [exact E|]. split; [|split]; congruence.
Qed.

(** ** Loading once *)

Lemma boot_view_eq w w' :
  boot_view w' = boot_view w ->
  isLoadedRef w' = isLoadedRef w /\ booting w' = booting w
  /\ pointsMetadataRef w' = pointsMetadataRef w.
Proof. unfold boot_view. intros [= H1 H2 H3 _ _ _]. auto. Qed.

(** An event that is not the resumption of [boot] and not an effect run
    leaves alone what [boot] set up. *)
Lemma step_boot_view e w w' :
  step e w = Some w' -> is_effect_run e = false ->
  (forall r constSetId, e <> BackendInitialized r constSetId) ->
  boot_view w' = boot_view w.
Proof.
  intros Hs He Hb. destruct e; cbn in Hs; try discriminate He.
  - injection Hs as <-. unfold viewer_init. split_cases; all_views.
  - exfalso. eapply Hb. reflexivity.
  - destruct (animationFrames w); [discriminate|]. injection Hs as <-.
    unfold propagateLoop. split_cases; all_views.
  - destruct (propagating w); [discriminate|]. injection Hs as <-.
    unfold propagateLoop_settled. split_cases; all_views.
  - destruct (cesiumViewer w); [|discriminate]. injection Hs as <-. reflexivity.
  - injection Hs as <-. apply preRender_boot_view.
  - injection Hs as <-. unfold cleanup, tryUnregister. split_cases; all_views.
  - destruct (timeouts w); [discriminate|]. injection Hs as <-.
    unfold tryUnregister. split_cases; all_views.
Qed.

Lemma boot_when_loaded TLEs w : isLoadedRef w = true -> boot TLEs w = w.
Proof. intros H. unfold boot. now rewrite H. Qed.

(** X8. Once [boot] has completed and no other [boot] is suspended, the
    component never boots again: whatever the effect is run with
    afterwards, the metadata, the constants, the listeners of [preRender]
    and the registration calls made stay as they are, and no [boot] is
    ever suspended. *)
Theorem loaded_component_boots_no_more (evs : list Event) : forall (w w' : World),
  isLoadedRef w = true -> booting w = [] -> run evs w = Some w' ->
  boot_view w' = boot_view w.
Proof.
  induction evs as [|e evs IH]; intros w w' Hl Hb Hr; cbn in Hr.
  - now injection Hr as <-.
  - destruct (step e w) as [w1|] eqn:Hs; [|discriminate]. cbn in Hr.
    assert (Hv : boot_view w1 = boot_view w).
    { destruct (is_effect_run e) eqn:He.
      - destruct e; try discriminate He. cbn in Hs. injection Hs as <-.
        now rewrite boot_when_loaded.
      - apply (step_boot_view e); auto.
        intros r c ->. cbn in Hs. rewrite Hb in Hs. discriminate. }
    rewrite <- Hv. apply boot_view_eq in Hv as (E1 & E2 & _).
    apply IH; [congruence | congruence | exact Hr].
Qed.

(** ** The indices of the metadata *)

Definition dense_indices (w : World) : Prop :=
  forall md i m, pointsMetadataRef w = Some md -> md !! i = Some m -> idx m = Z.of_nat i.

Lemma boot_resumed_dense TLEs r constSetId w :
  dense_indices w -> dense_indices (boot_resumed TLEs r constSetId w).
Proof.
  intros Hw. unfold boot_resumed.
  destruct r; [exact Hw|]. cbn.
  destruct (cesiumViewer w); [|exact Hw].
  destruct (mapM _ _); [|exact Hw].
  destruct (mapM _ _); [|exact Hw].
  destruct (forEach_parsed (omap parse_tle TLEs) no_arrays) as [a|e] eqn:E; [|exact Hw].
  destruct (forEach_parsed_normal _ _ _ E) as (L & _ & _ & _ & _ & _ & Hnew);
    try reflexivity.
  intros md i m Hmd Hi. cbn in Hmd. injection Hmd as <-.
  cbn in L. apply lookup_lt_Some in Hi as Hlt. rewrite L in Hlt.
  destruct (lookup_lt_is_Some_2 (omap parse_tle TLEs) i Hlt) as [x Hx].
  destruct (Hnew i x Hx) as (m' & Hm' & He). cbn in Hm'.
  assert (m' = m) by congruence. subst m'. apply He.
Qed.

Lemma step_dense_indices e w w' :
  dense_indices w -> step e w = Some w' -> dense_indices w'.
Proof.
  intros Hw Hs.
  destruct (is_effect_run e) eqn:He.
  - destruct e; try discriminate He. cbn in Hs. injection Hs as <-.
    unfold boot. split_cases; exact Hw.
  - assert (Hcase : (exists r c, e = BackendInitialized r c)
                    \/ (forall r c, e <> BackendInitialized r c)).
    { destruct e; try (right; intros ? ? [=]; fail). left. eauto. }
    destruct Hcase as [(r & c & ->) | Hnb].
    + cbn in Hs. destruct (booting w); [discriminate|]. injection Hs as <-.
      apply boot_resumed_dense. exact Hw.
    + pose proof (step_boot_view e w w' Hs He Hnb) as Hv.
      apply boot_view_eq in Hv as (_ & _ & Hm).
      unfold dense_indices. rewrite Hm. exact Hw.
Qed.

(** X9. In every reachable state the metadata is indexed densely: the
    entry at position [i] of the metadata carries the index [i], so the
    index of an entry is its position in Target and Current. *)
Theorem metadata_indices_are_positions (evs : list Event) (w : World) :
  run evs mounted = Some w ->
  forall md i m,
    pointsMetadataRef w = Some md -> md !! i = Some m ->
    idx m = Z.of_nat i /\ (i < length (targetPositionsRef w))%nat.
Proof.
  intros Hrun md i m Hmd Hi.
  assert (Hd : forall evs0 u u', dense_indices u -> run evs0 u = Some u' -> dense_indices u').
  { induction evs0 as [|e evs0 IH]; intros u u' Hu Hr; cbn in Hr.
    - now injection Hr as <-.
    - destruct (step e u) as [u1|] eqn:Hs; [|discriminate]. cbn in Hr.
      eapply IH; [|exact Hr]. eapply step_dense_indices; eauto. }
  split.
  - eapply (Hd evs mounted w); eauto. intros ? ? ? [=].
  - destruct (buffers_stay_aligned_lemma evs w Hrun) as (_ & _ & _ & A4).
    rewrite <- (A4 md Hmd). eapply lookup_lt_Some; eauto.
Qed.

(** ** The loop winds down after the shutdown *)

Lemma step_backlog e w w' :
  isComponentAliveRef w = false -> is_effect_run e = false -> step e w = Some w' ->
  ((if is_loop_event e then 1 else 0) + loop_backlog w' <= loop_backlog w)%nat.
Proof.
  intros Ha He Hs. unfold loop_backlog.
  destruct e; try discriminate He; cbn in Hs; cbn [is_loop_event].
  - injection Hs as <-. unfold viewer_init. split_cases; cbn; lia.
  - destruct (booting w) as [|TLEs rest] eqn:Hb; [discriminate|]. injection Hs as <-.
    unfold boot_resumed. split_cases; cbn; lia.
  - destruct (animationFrames w) as [|n] eqn:Hf; [discriminate|]. injection Hs as <-.
    unfold propagateLoop. cbn. rewrite Ha. cbn. lia.
  - destruct (propagating w) as [|n] eqn:Hp; [discriminate|]. injection Hs as <-.
    unfold propagateLoop_settled. split_cases; cbn; lia.
  - destruct (cesiumViewer w); [|discriminate]. injection Hs as <-. cbn. lia.
  - injection Hs as <-.
    destruct (loop_view_eq _ _ (preRender_loop_view (preRender w) w))
      as (_ & _ & _ & -> & -> & _).
    destruct (preRender_boot_view (preRender w) w) as (Hv & _).
    apply boot_view_eq in Hv as (_ & -> & _). cbn. lia.
  - injection Hs as <-. unfold cleanup, tryUnregister. split_cases; cbn; lia.
  - destruct (timeouts w); [discriminate|]. injection Hs as <-.
    unfold tryUnregister. split_cases; cbn; lia.
Qed.

(** X10. After the shutdown the loop winds down. As long as the effect is
    not run again, the callbacks of the loop that run from then on (ticks
    and settlings of backend calls) are at most the ticks in the queue,
    plus two for each outstanding call, plus one for each [boot] that has
    not resumed; when they have run, nothing of the loop is pending. *)
Theorem loop_winds_down_after_shutdown (evs : list Event) : forall (w w' : World),
  isComponentAliveRef w = false ->
  forallb (fun e => negb (is_effect_run e)) evs = true ->
  run evs w = Some w' ->
  (length (List.filter is_loop_event evs) + loop_backlog w' <= loop_backlog w)%nat.
Proof.
  induction evs as [|e evs IH]; intros w w' Ha Hne Hr; cbn in Hr.
  - injection Hr as <-. cbn. lia.
  - cbn in Hne. apply andb_true_iff in Hne as [He Hne]. apply negb_true_iff in He.
    destruct (step e w) as [w1|] eqn:Hs; [|discriminate]. cbn in Hr.
    pose proof (step_backlog e w w1 Ha He Hs) as Hb.
    destruct (step_after_shutdown e w w1 Ha Hs) as [Ha1 _].
    specialize (IH w1 w' Ha1 Hne Hr).
    cbn [List.filter]. destruct (is_loop_event e); cbn [length] in *; lia.
Qed.

(** ** An epoch that cannot be read *)




End MoreProperties.

(** * Properties of the page and of the comparison panel *)

Section PageProperties.

Context {CesiumT : CesiumTypes} {CesiumJs : CesiumType} {Wasm : Sgp4Gl}.

Variable tle_cleaner : string -> string.

Lemma truthy_nonempty (s : string) : Page.truthy s = true -> s <> EmptyString.
Proof. destruct s; [discriminate | intros _; discriminate]. Qed.

Lemma triplets_loop_spec (fuel : nat) :
  forall (i : nat) (tleLines : list string) (acc : list TLE),
    (length tleLines <= i + 3 * fuel)%nat ->
    Page.triplets_loop tle_cleaner fuel i tleLines acc
    = acc ++ Page.groups_of_three tle_cleaner (drop i tleLines).
Proof.
  induction fuel as [|fuel IH]; intros i tleLines acc Hlen.
  - rewrite drop_ge by lia. cbn. rewrite app_nil_r. reflexivity.
  - cbn [Page.triplets_loop].
    destruct (Nat.ltb_spec i (length tleLines)) as [Hi | Hi].
    + destruct (Nat.ltb_spec (i + 2) (length tleLines)) as [Hi2 | Hi2].
      * destruct (lookup_lt_is_Some_2 tleLines i ltac:(lia)) as [a Ha].
        destruct (lookup_lt_is_Some_2 tleLines (i + 1) ltac:(lia)) as [b Hb].
        destruct (lookup_lt_is_Some_2 tleLines (i + 2) ltac:(lia)) as [c Hc].
        rewrite (drop_S _ _ _ Ha).
        replace (S i) with (i + 1)%nat by lia.
        rewrite (drop_S _ _ _ Hb).
        replace (S (i + 1)) with (i + 2)%nat by lia.
        rewrite (drop_S _ _ _ Hc).
        replace (S (i + 2)) with (i + 3)%nat by lia.
        cbn [Page.groups_of_three]. unfold Page.line_at.
        rewrite Ha, Hb, Hc. cbn [default from_option]. unfold id.
        rewrite IH by lia.
        destruct (Page.truthy (tle_cleaner b) && Page.truthy (tle_cleaner c)).
        -- rewrite <- !app_assoc. reflexivity.
        -- reflexivity.
      * rewrite IH by lia. rewrite (drop_ge _ (i + 3)) by lia.
        f_equal.
        assert (Hd : (length (drop i tleLines) <= 2)%nat)
          by (rewrite length_drop; lia).
        destruct (drop i tleLines) as [|a [|b [|c rest]]]; try reflexivity.
        cbn in Hd. lia.
    + rewrite drop_ge by lia. cbn. rewrite app_nil_r. reflexivity.
Qed.

Lemma groups_of_three_length (tleLines : list string) :
  (3 * length (Page.groups_of_three tle_cleaner tleLines) <= length tleLines)%nat.
Proof.
  assert (H : forall n (l : list string), (length l <= n)%nat ->
            (3 * length (Page.groups_of_three tle_cleaner l) <= length l)%nat).
  { induction n as [|n IH]; intros l Hl.
    - destruct l; [cbn; lia | cbn in Hl; lia].
    - destruct l as [|a [|b [|c rest]]]; try (cbn; lia).
      cbn [Page.groups_of_three]. rewrite length_app.
      assert (Hr : (length rest <= n)%nat) by (cbn [length] in Hl; lia).
      specialize (IH rest Hr).
      destruct (Page.truthy (tle_cleaner b) && Page.truthy (tle_cleaner c));
        cbn [length]; unfold TLE in *; lia. }
  apply (H (length tleLines)). lia.
Qed.

Lemma groups_of_three_shape (tleLines : list string) :
  Forall (fun tle : TLE =>
            exists l0 l1 l2,
              tle = [Some l0; Some l1; Some l2]
              /\ l1 <> EmptyString /\ l2 <> EmptyString)
         (Page.groups_of_three tle_cleaner tleLines).
Proof.
  assert (H : forall n (l : list string), (length l <= n)%nat ->
            Forall (fun tle : TLE =>
                      exists l0 l1 l2,
                        tle = [Some l0; Some l1; Some l2]
                        /\ l1 <> EmptyString /\ l2 <> EmptyString)
                   (Page.groups_of_three tle_cleaner l)).
  { induction n as [|n IH]; intros l Hl.
    - destruct l; [constructor | cbn in Hl; lia].
    - destruct l as [|a [|b [|c rest]]]; try constructor.
      cbn [Page.groups_of_three]. apply Forall_app. split.
      + destruct (Page.truthy (tle_cleaner b)) eqn:Hb;
          destruct (Page.truthy (tle_cleaner c)) eqn:Hc; cbn; try constructor.
        * exists (tle_cleaner a), (tle_cleaner b), (tle_cleaner c).
          split; [reflexivity|]. split; apply truthy_nonempty; assumption.
        * constructor.
      + apply IH. cbn [length] in Hl. lia. }
  apply (H (length tleLines)). lia.
Qed.

Lemma fetchTLEs_groups (tleData : string) (tles : list TLE) :
  Page.fetchTLEs tle_cleaner tleData = Some tles ->
  tles = Page.groups_of_three tle_cleaner (Page.split_lines tleData).
Proof.
  unfold Page.fetchTLEs. destruct (0 <? String.length tleData)%nat; [|discriminate].
  intros [= <-]. rewrite triplets_loop_spec by lia. reflexivity.
Qed.

(** X12. The triplets the page passes on are the complete groups of three
    lines of the file, in order, whose second and third lines are not
    empty once cleaned: a trailing group of one or two lines is dropped,
    there are at most a third as many triplets as lines, and each holds
    three strings. *)
Theorem page_keeps_complete_triplets (tleData : string) (tles : list TLE) :
  Page.fetchTLEs tle_cleaner tleData = Some tles ->
  tles = Page.groups_of_three tle_cleaner (Page.split_lines tleData)
  /\ (3 * length tles <= length (Page.split_lines tleData))%nat
  /\ Forall (fun tle : TLE =>
               exists l0 l1 l2,
                 tle = [Some l0; Some l1; Some l2]
                 /\ l1 <> EmptyString /\ l2 <> EmptyString) tles.
Proof.
  intros H. apply fetchTLEs_groups in H. subst tles.
  split; [reflexivity|]. split.
  - apply groups_of_three_length.
  - apply groups_of_three_shape.
Qed.

End PageProperties.

Section PerformanceProperties.

Import Performance.

Lemma measurePerformance_window (frame : float * float) (m : Monitor) :
  (length (frameTimesRef m) <= 240)%nat ->
  frameTimesRef (measurePerformance frame m)
  = drop (length (frameTimesRef m) + 1 - 240)
         (frameTimesRef m ++ [PrimFloat.sub (snd frame) (lastFrameTimeRef m)])
  /\ lastFrameTimeRef (measurePerformance frame m) = snd frame.
Proof.
  intros Hl. destruct frame as [rate now]. cbn [measurePerformance frameTimesRef
    lastFrameTimeRef snd]. split; [|reflexivity].
  rewrite length_app. cbn [length].
  destruct (Nat.ltb_spec 240 (length (frameTimesRef m) + 1)) as [H | H].
  - replace (length (frameTimesRef m) + 1 - 240)%nat with 1%nat by lia.
    destruct (frameTimesRef m ++ _); reflexivity.
  - replace (length (frameTimesRef m) + 1 - 240)%nat with 0%nat by lia.
    reflexivity.
Qed.

Lemma measure_frames_window (frames : list (float * float)) :
  forall m : Monitor,
    (length (frameTimesRef m) <= 240)%nat ->
    frameTimesRef (measure_frames frames m)
    = drop (length (frameTimesRef m) + length frames - 240)
           (frameTimesRef m ++ frame_deltas (lastFrameTimeRef m) frames).
Proof.
  induction frames as [|[rate now] frames IH]; intros m Hl.
  - cbn [measure_frames fold_left frame_deltas length].
    rewrite app_nil_r. replace (_ + 0 - 240)%nat with 0%nat by lia. reflexivity.
  - change (measure_frames ((rate, now) :: frames) m)
      with (measure_frames frames (measurePerformance (rate, now) m)).
    destruct (measurePerformance_window (rate, now) m Hl) as [Hw Hlast].
    cbn [snd] in Hw, Hlast.
    assert (Hl' : (length (frameTimesRef (measurePerformance (rate, now) m)) <= 240)%nat).
    { rewrite Hw, length_drop, length_app. cbn [length]. lia. }
    rewrite (IH _ Hl'), Hlast. cbn [frame_deltas length].
    rewrite Hw, length_drop, length_app. cbn [length].
    set (ft := frameTimesRef m) in *.
    set (d := PrimFloat.sub now (lastFrameTimeRef m)).
    set (rest := frame_deltas now frames).
    replace (ft ++ d :: rest) with ((ft ++ [d]) ++ rest)
      by (rewrite <- app_assoc; reflexivity).
    destruct (Nat.le_gt_cases (length ft + 1) 240) as [Hk | Hk].
    + replace (length ft + 1 - 240)%nat with 0%nat by lia.
      rewrite drop_0. f_equal. lia.
    + replace (length ft + 1 - 240)%nat with 1%nat by lia.
      assert (Hne : (1 <= length (ft ++ [d]))%nat) by (rewrite length_app; cbn; lia).
      rewrite <- (drop_app_le (ft ++ [d]) rest 1 Hne).
      rewrite drop_drop. f_equal. lia.
Qed.

Lemma measure_frames_length (frames : list (float * float)) (m : Monitor) :
  frameTimesRef m = [] ->
  length (frameTimesRef (measure_frames frames m)) = Nat.min (length frames) 240.
Proof.
  intros He. rewrite measure_frames_window by (rewrite He; cbn; lia).
  rewrite He, length_drop. cbn [app length].
  assert (Hd : forall last, length (frame_deltas last frames) = length frames).
  { induction frames as [|[r n] fs IH]; intros last; [reflexivity|].
    cbn [frame_deltas length]. rewrite IH. reflexivity. }
  rewrite Hd. lia.
Qed.

(** X14. The window of frame times, started empty, holds the times
    between the last 240 frames at most, oldest first, each measured from
    the frame before it. *)
Theorem window_is_the_last_240_frames (frames : list (float * float)) (m : Monitor) :
  frameTimesRef m = [] ->
  frameTimesRef (measure_frames frames m)
  = drop (length frames - 240) (frame_deltas (lastFrameTimeRef m) frames)
  /\ length (frameTimesRef (measure_frames frames m)) = Nat.min (length frames) 240.
Proof.
  intros He. split; [|apply measure_frames_length; exact He].
  rewrite measure_frames_window by (rewrite He; cbn; lia).
  rewrite He. reflexivity.
Qed.

(** X15. While the window fills, the statistics are computed at every
    thirtieth frame; from the 240th frame on they are computed at every
    frame, each time from the whole window and the refresh rate of that
    frame. *)
Theorem stats_every_frame_once_window_is_full
    (frames : list (float * float)) (frame : float * float) (m : Monitor) :
  frameTimesRef m = [] ->
  let before := measure_frames frames m in
  let after := measurePerformance frame before in
  setStats_calls after
  = setStats_calls before
    ++ (if stats_frame (S (length frames)) then [(frameTimesRef after, fst frame)] else [])
  /\ length (frameTimesRef after) = Nat.min (S (length frames)) 240.
Proof.
  intros He before after.
  pose proof (measure_frames_length frames m He) as Hlen. fold before in Hlen.
  subst after. destruct frame as [rate now].
  cbn [measurePerformance frameTimesRef setStats_calls fst].
  rewrite length_app. cbn [length].
  set (times := frameTimesRef before ++ [PrimFloat.sub now (lastFrameTimeRef before)]).
  assert (Ht : length times = S (length (frameTimesRef before)))
    by (subst times; rewrite length_app; cbn; lia).
  unfold stats_frame.
  destruct (Nat.ltb_spec 240 (length (frameTimesRef before) + 1)) as [H | H].
  - assert (Hl : length (tail times) = 240%nat).
    { destruct times; cbn in *; lia. }
    replace (240 <=? S (length frames))%nat with true
      by (symmetry; apply Nat.leb_le; lia).
    rewrite orb_true_r, Hl.
    split; [reflexivity | lia].
  - rewrite Ht.
    replace (0 <? S (length (frameTimesRef before)))%nat with true by reflexivity.
    rewrite andb_true_r.
    assert (Hn : length (frameTimesRef before) = length frames) by lia.
    rewrite Hn.
    split; [|lia].
    destruct (Nat.leb_spec 240 (S (length frames))) as [Hf | Hf].
    + assert (Heq : S (length frames) = 240%nat) by lia.
      rewrite Heq. reflexivity.
    + rewrite orb_false_r.
      destruct (S (length frames) mod 30 =? 0)%nat;
        [reflexivity | rewrite app_nil_r; reflexivity].
Qed.

End PerformanceProperties.

(** * Closed examples on the concrete session *)

Section Examples.

#[local] Existing Instance cesium_types.
#[local] Existing Instance cesium.
#[local] Existing Instance plainSgp4.

Import Demo.

(** C1 at work: with a call outstanding a tick of the live loop puts
    itself back in the queue. *)
Lemma inflight_counter_witness :
  inflight_ok in_flight
  /\ inflightRef in_flight = 1
  /\ propagateLoop in_flight
     = in_flight <| animationFrames := S (animationFrames in_flight) |>.
Proof.
  destruct inflight_counter_zero_or_one as (H1 & _ & _ & _ & _ & H6).
  split; [|split].
  - apply (H1 (boot_session ++ [AnimationFrame])). vm_compute. reflexivity.
  - vm_compute. reflexivity.
  - eapply H6; try (vm_compute; reflexivity); vm_compute; discriminate.
Defined.

(** One cleanup: it comes while a call is outstanding; the call
    fails, the retry fires, and the set is released once. *)
Lemma shutdown_releases_once_witness :
  exists w2,
    run (Cleanup false :: [PropagateSettled rejected; TimeoutFired false]) in_flight
    = Some w2
    /\ (length (release_calls w2) + length (timeouts w2) = 1)%nat
    /\ timeouts w2 = [].
Proof.
  destruct shutdown_releases_once as (_ & _ & H3 & _ & _).
  eexists. split; [vm_compute; reflexivity|].
  split; [|vm_compute; reflexivity].
  eapply (H3 (boot_session ++ [AnimationFrame]) in_flight false
             [PropagateSettled rejected; TimeoutFired false]);
    try (vm_compute; reflexivity); vm_compute; eauto.
Defined.

(** C3 at work on the epoch of the first element of the session. *)
Lemma tleEpochToJulian_witness :
  epoch_year "24091.50000000" = Some (EpochSpec.pivot_year 24)
  /\ Js.new_Date (epochTimeMs "24091.50000000")
     = EpochSpec.whole_ms
         (EpochSpec.epoch_ms_binary64 24 (EpochSpec.decimal_value "091" "50000000"))
  /\ EpochSpec.whole_ms
       (EpochSpec.epoch_ms_binary64 24 (EpochSpec.decimal_value "091" "50000000"))
     = Some 1711886400000.
Proof.
  destruct tleEpochToJulian_pivot_rule as (H & _).
  pose proof (H "2"%char "4"%char "091"%string "50000000"%string
                eq_refl eq_refl eq_refl ltac:(discriminate) eq_refl) as H'.
  cbv zeta in H'. destruct H' as (Hy & Ht & _).
  split; [exact Hy|]. split; [exact Ht|]. vm_compute. reflexivity.
Defined.

(** C3 as stated fails: the day 069.76397250 of 1970 is 5941207224 ms past
    the first of January exactly, and the code decodes the instant one
    millisecond before it. In double precision the day is
    69.763972499999994 and the time 5941207223.999999 ms, which [new Date]
    truncates. *)
Lemma epoch_one_millisecond_short :
  Js.new_Date (epochTimeMs "70069.76397250") = Some 5941207223
  /\ (EpochSpec.epoch_instant 70 (EpochSpec.decimal_value "069" "76397250")
      == inject_Z 5941207224)%Q
  /\ tleEpochToJulian "70069.76397250" = JulianDate_fromDate (Some 5941207223)
  /\ JulianDate_fromDate (Some 5941207223) <> JulianDate_fromDate (Some 5941207224).
Proof.
  split; [vm_compute; reflexivity|]. split; [vm_compute; reflexivity|].
  split; [vm_compute; reflexivity|].
  vm_compute. intros H.
  apply (f_equal (fun o => match o with
                           | Some d => PrimFloat.ltb (Cesium.secondsOfDay d) 22817.2236328125
                           | None => false
                           end)) in H.
  vm_compute in H. discriminate H.
Qed.

Lemma rejected_call_witness :
  propagating in_flight = 1%nat
  /\ exists w',
      step (PropagateSettled rejected) in_flight = Some w'
      /\ targetPositionsRef w' = targetPositionsRef in_flight
      /\ inflightRef w' = 0.
Proof.
  split; [vm_compute; reflexivity|].
  destruct (rejected_call_is_absorbed in_flight 0 ltac:(vm_compute; reflexivity))
    as (w' & Hs & _ & Ht & Hi & _).
  exists w'. split; [exact Hs|]. split; [exact Ht|].
  rewrite Hi. vm_compute. reflexivity.
Defined.

Lemma registration_witness :
  exists viewer,
    cesiumViewer booting_world = Some viewer
    /\ List.filter BatchSpec.accepted [iss; debris; hst] = [iss; hst]
    /\ exists md,
        pointsMetadataRef
          (boot_resumed [iss; debris; hst] (init_ok GpuPropagatorObject) 7 booting_world)
        = Some md
        /\ length md = 2%nat.
Proof.
  eexists. split; [vm_compute; reflexivity|]. split; [vm_compute; reflexivity|].
  destruct (registration_when_boot_completes [iss; debris; hst] GpuPropagatorObject 7
              booting_world _ _ ltac:(vm_compute; reflexivity)
              ltac:(vm_compute; reflexivity))
    as (md & Hm & Hl & _).
  { intros tle Hin l1 Hl1. vm_compute in Hin.
    destruct Hin as [<- | [<- | []]]; vm_compute in Hl1; injection Hl1 as <-;
      vm_compute; eauto. }
  exists md. split; [exact Hm|]. rewrite Hl. vm_compute. reflexivity.
Defined.

Lemma six_components_witness :
  length flat6 = (6 * 2)%nat /\ length (targetPositionsRef in_flight) = 2%nat
  /\ propagating in_flight = 1%nat
  /\ exists w',
      step (PropagateSettled (fulfilled flat6)) in_flight = Some w'
      /\ targetPositionsRef w' !! 1%nat = Some (sample_meters 6 flat6 1).
Proof.
  repeat (split; [vm_compute; reflexivity|]).
  destruct (target_updated_from_six_components in_flight flat6 2 0
              ltac:(vm_compute; reflexivity) ltac:(vm_compute; reflexivity)
              ltac:(vm_compute; reflexivity))
    as (w' & Hs & _ & Hi & _).
  exists w'. split; [exact Hs|]. apply Hi. lia.
Defined.

(** C6 as stated fails: a result of three components for each of the two
    satellites holds the position (4, 5, 6) km for satellite 1, and the
    code, which reads six components a satellite, leaves entry 1 of the
    target buffer at (0, 0, 0). *)
Lemma three_components_counterexample :
  length flat3 = (3 * 2)%nat
  /\ length (targetPositionsRef in_flight) = 2%nat
  /\ exists w',
      step (PropagateSettled (fulfilled flat3)) in_flight = Some w'
      /\ sample_meters 3 flat3 1
         = {| buf_x := 4000; buf_y := 5000; buf_z := 6000 |}
      /\ targetPositionsRef w' !! 1%nat
         = Some {| buf_x := 0; buf_y := 0; buf_z := 0 |}
      /\ targetPositionsRef w' !! 1%nat <> Some (sample_meters 3 flat3 1).
Proof.
  split; [reflexivity|]. split; [vm_compute; reflexivity|].
  eexists. split; [vm_compute; reflexivity|].
  split; [vm_compute; reflexivity|]. split; [vm_compute; reflexivity|].
  vm_compute. intros H.
  apply (f_equal (fun o => match o with
                           | Some p => PrimFloat.ltb (buf_x p) 1
                           | None => false
                           end)) in H.
  vm_compute in H. discriminate H.
Qed.

Lemma wraparound_witness :
  exists viewer,
    cesiumViewer overrun = Some viewer
    /\ cesiumViewer (animate 3 overrun)
       = Some (viewer <| currentTime := startTime viewer |>)
    /\ pointsCollectionPrimitivesRef (animate 3 overrun)
       = pointsCollectionPrimitivesRef overrun.
Proof.
  eexists.
  split; [vm_compute; reflexivity|].
  assert (H1 : run overrun_session mounted = Some overrun) by (vm_compute; reflexivity).
  assert (H2 : In 3%float (preRender overrun)) by (vm_compute; auto).
  assert (H3 : cesiumViewer overrun
               = Some {| currentTime := instant 1713657700000;
                         startTime := instant 1713052800000;
                         stopTime := instant 1713312000000; multiplier := 300 |})
    by (vm_compute; reflexivity).
  assert (H4 : PrimFloat.ltb
                 (JulianDate_compare (instant 1713312000000) (instant 1713052800000))
                 (PrimFloat.abs
                    (JulianDate_compare (instant 1713657700000) (instant 1713312000000)))
               = true) by (vm_compute; reflexivity).
  destruct (wraparound_resets_clock overrun_session overrun 3 _ H1 H2 H3 H4) as [_ H].
  rewrite H. split; vm_compute; reflexivity.
Defined.

Lemma transform_recompute_witness :
  transform_computes (animate 3 wrapped)
  = transform_computes wrapped ++ [compute_transform (instant 1713052800000)].
Proof.
  assert (H1 : run (overrun_session ++ [PreRender]) mounted = Some wrapped)
    by (vm_compute; reflexivity).
  assert (H2 : In 3%float (preRender wrapped)) by (vm_compute; auto).
  assert (H3 : cesiumViewer wrapped
               = Some {| currentTime := instant 1713052800000;
                         startTime := instant 1713052800000;
                         stopTime := instant 1713312000000; multiplier := 300 |})
    by (vm_compute; reflexivity).
  assert (H4 : PrimFloat.ltb 3
                 (PrimFloat.abs
                    (JulianDate_compare (instant 1713052800000) (instant 1713312000000)))
               = false) by (vm_compute; reflexivity).
  pose proof (transform_recomputed_beyond_one_second
                (overrun_session ++ [PreRender]) wrapped 3 _ H1 H2 H3 H4) as H.
  cbv zeta in H.
  assert (H5 : PrimFloat.ltb 1
                 (PrimFloat.abs
                    (JulianDate_secondsDifference (instant 1713052800000)
                       (default (instant 1713052800000) (lastJDateRef wrapped))))
               = true) by (vm_compute; reflexivity).
  cbn [currentTime] in H. rewrite H5 in H.
  destruct H as [H _]. exact H.
Defined.

(** C8 as stated fails: the transform was last computed at the instant
    of time value 1713053000 s; the render step then set the clock back to
    the start bound, 200 s earlier, and the next render tick computes the
    transform anew although the simulated time has not advanced since. *)
Lemma recompute_without_advance :
  lastJDateRef wrapped = Some (instant 1713053000000)
  /\ currentTime <$> cesiumViewer wrapped = Some (instant 1713052800000)
  /\ JulianDate_secondsDifference (instant 1713052800000) (instant 1713053000000)
     = (-200)%float
  /\ PrimFloat.ltb 1
       (JulianDate_secondsDifference (instant 1713052800000) (instant 1713053000000))
     = false
  /\ exists w',
      step PreRender wrapped = Some w'
      /\ transform_computes w'
         = transform_computes wrapped ++ [compute_transform (instant 1713052800000)].
Proof.
  repeat (split; [vm_compute; reflexivity|]).
  eexists. split; vm_compute; reflexivity.
Qed.

Lemma failed_release_witness :
  exists p constSetId,
    gpuPropagatorRef booted = Some p
    /\ registeredConstSetIdRef booted = Some constSetId
    /\ inflightRef booted = 0
    /\ registeredConstSetIdRef (tryUnregister true booted) = None
    /\ timeouts (tryUnregister true booted) = timeouts booted.
Proof.
  destruct shutdown_without_handle_or_failed_release as (_ & H2 & _ & _).
  eexists _, _.
  split; [vm_compute; reflexivity|]. split; [vm_compute; reflexivity|].
  split; [vm_compute; reflexivity|].
  destruct (H2 booted GpuPropagatorObject 7) as (_ & _ & Ht & Hh);
    try (vm_compute; reflexivity).
  split; [exact Hh | exact Ht].
Defined.

Lemma tick_unregistered_witness :
  pointsMetadataRef booted_empty = Some []
  /\ propagateLoop booted_empty = booted_empty.
Proof.
  split; [vm_compute; reflexivity|].
  destruct (tick_unregistered_stops_loop booted_empty
              ltac:(right; right; vm_compute; reflexivity)) as (_ & _ & H & _).
  apply H. vm_compute. eauto.
Defined.

(** C2. The release is not made exactly once when React runs the cleanup a
    second time while a backend call is outstanding: here the TLEs change,
    so that the cleanup and then the effect run, and the component is
    unmounted. Each
    cleanup finds the handle stored and the counter at 1 and sets a timer
    of its own; once the call has settled the first timer releases the set
    and clears the handle, and the second calls [unregister_const_set]
    again, on the cleared handle. No backend call begins after the first
    cleanup, and both calls of the release find the counter at 0. *)
Theorem second_cleanup_releases_again :
  let session :=
    boot_session ++
    [AnimationFrame; Cleanup false; RunEffect [iss]; Cleanup false;
     PropagateSettled (fulfilled flat6); TimeoutFired false; TimeoutFired false] in
  timeouts (world_after
              (boot_session ++ [AnimationFrame; Cleanup false; RunEffect [iss];
                                Cleanup false]))
  = [10; 10]
  /\ exists w,
      run session mounted = Some w
      /\ release_calls w = [unregister_const_set (Some 7); unregister_const_set None]
      /\ (length (propagate_calls w) = 1)%nat
      /\ inflightRef w = 0
      /\ timeouts w = [].
Proof.
  intros session. split; [vm_compute; reflexivity|].
  eexists. split; [vm_compute; reflexivity|].
  do 3 (split; [vm_compute; reflexivity|]). vm_compute. reflexivity.
Qed.


(** C7. The test of the wraparound compares values of
    [JulianDate.compare], which is the difference of the Julian day
    numbers and, only when they are equal, the difference in seconds. The
    span from start to stop is 3, in days. With the clock 3 days and 100
    seconds past the stop bound the distance exceeds the span, the
    comparison gives 3, and the render step does not reset the clock: it
    takes the instant as the reference of the transform and goes on to the
    positions. With the clock 12 hours before the
    stop bound, inside the window, the comparison gives 43200, in seconds,
    and the render step resets the clock. *)
Theorem wraparound_compares_day_numbers :
  let start := instant 1713052800000 in
  let stop := instant 1713312000000 in
  let past := instant 1713571300000 in
  let inside := instant 1713268800000 in
  preRender booted = [JulianDate_compare stop start]
  /\ JulianDate_compare stop start = 3%float
  /\ JulianDate_secondsDifference stop start = 259200%float
  /\ JulianDate_secondsDifference past stop = 259300%float
  /\ JulianDate_compare past stop = 3%float
  /\ (exists w,
        run [ClockTick past; PreRender] booted = Some w
        /\ currentTime <$> cesiumViewer w = Some past
        /\ lastJDateRef w = Some past)
  /\ JulianDate_secondsDifference inside stop = (-43200)%float
  /\ JulianDate_compare inside stop = (-43200)%float
  /\ (exists w,
        run [ClockTick inside; PreRender] booted = Some w
        /\ currentTime <$> cesiumViewer w = Some start
        /\ lastJDateRef w = None).
Proof.
  intros start stop past inside.
  do 5 (split; [vm_compute; reflexivity|]).
  split.
  { eexists. split; [vm_compute; reflexivity|]. split; vm_compute; reflexivity. }
  do 2 (split; [vm_compute; reflexivity|]).
  eexists. split; [vm_compute; reflexivity|]. split; vm_compute; reflexivity.
Qed.

End Examples.

(** * Closed examples for the further properties *)

Section MoreExamples.

#[local] Existing Instance cesium_types.
#[local] Existing Instance cesium.
#[local] Existing Instance plainSgp4.

Import Demo.

(** The booted component of the session: two satellites, every buffer of
    length two. *)
Lemma buffers_stay_aligned_witness :
  run boot_session mounted = Some booted /\ buffers_aligned booted.
Proof.
  split; [vm_compute; reflexivity|].
  apply (buffers_stay_aligned boot_session). vm_compute. reflexivity.
Defined.

(** A result of six numbers fills one entry of the two of the target
    buffer and leaves the other as it was. *)
Lemma any_result_witness :
  propagating in_flight = 1%nat
  /\ exists w',
      step (PropagateSettled (fulfilled flat3)) in_flight = Some w'
      /\ targetPositionsRef w' !! 0%nat = Some (sample_meters 6 flat3 0)
      /\ targetPositionsRef w' !! 1%nat = targetPositionsRef in_flight !! 1%nat.
Proof.
  split; [vm_compute; reflexivity|].
  destruct (any_result_is_absorbed in_flight flat3 0 ltac:(vm_compute; reflexivity))
    as (w' & Hs & _ & Hlow & Hhigh & _).
  exists w'. split; [exact Hs|]. split.
  - apply Hlow; vm_compute; lia.
  - apply Hhigh. vm_compute. lia.
Defined.

(** The render step that follows a result of the backend shows it. *)
Lemma render_hands_over_witness :
  let session := boot_session ++ [AnimationFrame; PropagateSettled (fulfilled flat6)] in
  run session mounted = Some (world_after session)
  /\ In 3%float (preRender (world_after session))
  /\ currentPositionsRef (animate 3 (world_after session))
     = [{| buf_x := 1000; buf_y := 2000; buf_z := 3000 |};
        {| buf_x := 4000; buf_y := 5000; buf_z := 6000 |}].
Proof.
  intros session.
  assert (H1 : run session mounted = Some (world_after session))
    by (vm_compute; reflexivity).
  assert (H2 : In 3%float (preRender (world_after session)))
    by (vm_compute; left; reflexivity).
  assert (H3 : cesiumViewer (world_after session)
               = Some {| currentTime := instant 1713052800000;
                         startTime := instant 1713052800000;
                         stopTime := instant 1713312000000; multiplier := 300 |})
    by (vm_compute; reflexivity).
  assert (H4 : PrimFloat.ltb 3
                 (PrimFloat.abs
                    (JulianDate_compare (instant 1713052800000) (instant 1713312000000)))
               = false) by (vm_compute; reflexivity).
  split; [exact H1|]. split; [exact H2|].
  destruct (render_hands_target_over session (world_after session) 3 _ H1 H2 H3 H4)
    as (Hc & _).
  rewrite Hc. vm_compute. reflexivity.
Defined.

(** The first tick of the session asks for one offset for each of the two
    entries of the target buffer. *)
Lemma call_offsets_witness :
  run boot_session mounted = Some booted
  /\ step AnimationFrame booted = Some in_flight
  /\ exists constSetId md,
      pointsMetadataRef booted = Some md
      /\ trace in_flight
         = trace booted ++
           [propagate_registered_f32 constSetId
              ((fun m => PrimFloat.div
                           (JulianDate_secondsDifference (instant 1713052800000)
                              (TLEEpochJulian m)) 60) <$> md)]
      /\ length md = length (targetPositionsRef booted).
Proof.
  assert (H1 : run boot_session mounted = Some booted) by (vm_compute; reflexivity).
  assert (H2 : step AnimationFrame booted = Some in_flight) by (vm_compute; reflexivity).
  assert (H3 : propagate_calls in_flight <> propagate_calls booted)
    by (vm_compute; discriminate).
  split; [exact H1|]. split; [exact H2|].
  destruct (call_offsets_match_target boot_session booted in_flight H1 H2 H3)
    as (viewer & constSetId & md & Hv & _ & Hm & _ & _ & Ht & Hl).
  exists constSetId, md. split; [exact Hm|]. split; [|exact Hl].
  rewrite Ht. vm_compute in Hv. injection Hv as <-. reflexivity.
Defined.

(** The set of the session is released after the outstanding call has
    failed; no call is outstanding then. *)
Lemma released_set_witness :
  let session :=
    boot_session ++
    [AnimationFrame; Cleanup false; PropagateSettled rejected; TimeoutFired false] in
  run session mounted = Some (world_after session)
  /\ release_calls (world_after session) <> []
  /\ propagating (world_after session) = 0%nat
  /\ inflightRef (world_after session) = 0.
Proof.
  intros session.
  assert (H1 : run session mounted = Some (world_after session))
    by (vm_compute; reflexivity).
  assert (H2 : release_calls (world_after session) <> []) by (vm_compute; discriminate).
  split; [exact H1|]. split; [exact H2|].
  destruct (no_call_on_a_released_set session (world_after session) H1) as (_ & H & _).
  destruct (H H2) as (Hp & Hi & _).
  split; [exact Hp | exact Hi].
Defined.

(** The clock of the session runs past the stop bound and is set back;
    the bounds are those of the creation of the viewer. *)
Lemma clock_bounds_witness :
  exists v v',
    cesiumViewer booted = Some v
    /\ cesiumViewer wrapped = Some v'
    /\ startTime v' = startTime v /\ stopTime v' = stopTime v.
Proof.
  assert (H1 : cesiumViewer booted
               = Some {| currentTime := instant 1713052800000;
                         startTime := instant 1713052800000;
                         stopTime := instant 1713312000000; multiplier := 300 |})
    by (vm_compute; reflexivity).
  assert (H2 : run clock_overrun booted = Some wrapped) by (vm_compute; reflexivity).
  destruct (clock_bounds_never_change clock_overrun booted wrapped _ H1 H2)
    as (v' & Hv' & Hs & Ht & _).
  eexists; exists v'.
  split; [exact H1|]. split; [exact Hv'|].
  split; [exact Hs | exact Ht].
Defined.

(** The effect runs again with another batch on the booted component:
    what [boot] wrote stays. *)
Lemma loaded_component_witness :
  isLoadedRef booted = true
  /\ boot_view (world_after (boot_session ++ [RunEffect [iss]; AnimationFrame]))
     = boot_view booted.
Proof.
  split; [vm_compute; reflexivity|].
  apply (loaded_component_boots_no_more [RunEffect [iss]; AnimationFrame] booted);
    vm_compute; reflexivity.
Defined.

(** The second satellite of the session is the element of index 2 of the
    batch; its index in the buffers is 1. *)
Lemma metadata_indices_witness :
  exists md m,
    pointsMetadataRef booted = Some md /\ md !! 1%nat = Some m
    /\ satName m = "HST"%string /\ idx m = 1.
Proof.
  assert (H1 : run boot_session mounted = Some booted) by (vm_compute; reflexivity).
  eexists; eexists.
  split; [vm_compute; reflexivity|]. split; [vm_compute; reflexivity|].
  split; [vm_compute; reflexivity|].
  eapply (metadata_indices_are_positions boot_session booted H1 _ 1%nat);
    vm_compute; reflexivity.
Defined.

(** After the cleanup the outstanding call fails and the tick it
    requested stops the loop: two events, and nothing is left. *)
Lemma loop_winds_down_witness :
  isComponentAliveRef shut_down_in_flight = false
  /\ loop_backlog shut_down_in_flight = 2%nat
  /\ (2 + loop_backlog
            (world_after
               (boot_session ++
                [AnimationFrame; Cleanup false; PropagateSettled rejected;
                 AnimationFrame]))
      <= loop_backlog shut_down_in_flight)%nat.
Proof.
  split; [vm_compute; reflexivity|].
  split; [vm_compute; reflexivity|].
  apply (loop_winds_down_after_shutdown
           [PropagateSettled rejected; AnimationFrame] shut_down_in_flight);
    vm_compute; reflexivity.
Defined.

(** The first tick of the loop begins a call and leaves the positions of
    the render step alone. *)
Lemma write_apart_witness :
  is_loop_event AnimationFrame = true
  /\ step AnimationFrame booted = Some in_flight
  /\ render_buffers in_flight = render_buffers booted.
Proof.
  assert (H1 : step AnimationFrame booted = Some in_flight) by (vm_compute; reflexivity).
  destruct render_and_loop_write_apart as (_ & H).
  destruct (H AnimationFrame booted in_flight eq_refl H1) as (_ & Hb).
  split; [reflexivity|]. split; [exact H1 | exact Hb].
Defined.


End MoreExamples.

Section PageExamples.

#[local] Existing Instance cesium_types.
#[local] Existing Instance cesium.
#[local] Existing Instance plainSgp4.

Lemma page_triplets_witness :
  Page.fetchTLEs (fun line => line) Page.element_file
  = Some [[Some "0 A"; Some "1 a"; Some "2 a"]]%string
  /\ length (Page.split_lines Page.element_file) = 8%nat
  /\ (3 * length [[Some "0 A"; Some "1 a"; Some "2 a"]]%string
      <= length (Page.split_lines Page.element_file))%nat.
Proof.
  split; [vm_compute; reflexivity|]. split; [vm_compute; reflexivity|].
  destruct (page_keeps_complete_triplets (fun line => line) Page.element_file
              [[Some "0 A"; Some "1 a"; Some "2 a"]]%string
              ltac:(vm_compute; reflexivity))
    as (_ & H & _).
  exact H.
Defined.

End PageExamples.

Section PerformanceExamples.

Import Performance.

Lemma window_witness :
  frameTimesRef fresh_monitor = []
  /\ length (frameTimesRef (measure_frames (steady_frames 250) fresh_monitor)) = 240%nat.
Proof.
  split; [reflexivity|].
  destruct (window_is_the_last_240_frames (steady_frames 250) fresh_monitor eq_refl)
    as (_ & H).
  rewrite H. vm_compute. reflexivity.
Defined.

(** Frame 250 computes the statistics, as does frame 30; frame 31 does
    not. *)
Lemma stats_cadence_witness :
  stats_frame 250 = true /\ stats_frame 30 = true /\ stats_frame 31 = false
  /\ length (setStats_calls
               (measurePerformance (60%float, 4000%float)
                  (measure_frames (steady_frames 249) fresh_monitor)))
     = S (length (setStats_calls (measure_frames (steady_frames 249) fresh_monitor))).
Proof.
  split; [vm_compute; reflexivity|]. split; [vm_compute; reflexivity|].
  split; [vm_compute; reflexivity|].
  destruct (stats_every_frame_once_window_is_full (steady_frames 249)
              (60%float, 4000%float) fresh_monitor eq_refl)
    as (H & _).
  rewrite H. rewrite length_app.
  replace (stats_frame (S (length (steady_frames 249)))) with true
    by (vm_compute; reflexivity).
  cbn [length]. lia.
Defined.

End PerformanceExamples.
